(** * StockHunter: synchronisation engine and technical analyser

    A shallow embedding of [config.py], [src/downloader.py] and
    [src/data_analyzer.py], followed by the properties of the
    synchronisation engine (planner, append-merge, retry loop with its
    circuit breaker) and of the feature / backtest engine.

    Layout: the first part of the file holds the embedding (modules
    [Config], [Dates], [Downloader], [Arith], [PandasTA], [Analyzer] and
    the sample data of [Samples]); the second part holds the lemmas and
    theorems. *)

From Stdlib Require Import List String Ascii Bool Arith ZArith QArith Qabs Lia.
From Stdlib Require Import Permutation Sorted.
Import ListNotations.

Close Scope Q_scope.
Set Implicit Arguments.

(* ================================================================= *)
(** * Part I: the embedding                                            *)
(* ================================================================= *)

(** ** config.py *)

Module Config.

Definition DATA_DIR : string := "data/daily"%string.
Definition DEFAULT_START_DATE : string := "2023-01-01"%string.
Definition DATA_READY_HOUR : nat := 17.
Definition MAX_ATTEMPTS : nat := 7.
Definition ABORT_THRESHOLD : nat := 50.

End Config.

(** ** Calendar dates: [datetime], [strftime] and [strptime] *)

Module Dates.

Local Open Scope string_scope.
Local Open Scope Z_scope.

Record Date : Type := mkDate { year : Z; month : Z; day : Z }.

Definition is_leap (y : Z) : bool :=
  (y mod 4 =? 0) && negb (y mod 100 =? 0) || (y mod 400 =? 0).

Definition days_in_month (y m : Z) : Z :=
  match m with
  | 2 => if is_leap y then 29 else 28
  | 4 | 6 | 9 | 11 => 30
  | _ => 31
  end.

(** The dates [datetime] can hold: years 1 to 9999. *)
Definition valid (d : Date) : bool :=
  (1 <=? year d) && (year d <=? 9999) &&
  (1 <=? month d) && (month d <=? 12) &&
  (1 <=? day d) && (day d <=? days_in_month (year d) (month d)).

(** [d + datetime.timedelta(days=1)] *)
Definition next_day (d : Date) : Date :=
  if day d <? days_in_month (year d) (month d)
  then mkDate (year d) (month d) (day d + 1)
  else if month d <? 12 then mkDate (year d) (month d + 1) 1
  else mkDate (year d + 1) 1 1.

(** [d - datetime.timedelta(days=1)] *)
Definition prev_day (d : Date) : Date :=
  if 1 <? day d then mkDate (year d) (month d) (day d - 1)
  else if 1 <? month d
  then mkDate (year d) (month d - 1) (days_in_month (year d) (month d - 1))
  else mkDate (year d - 1) 12 31.

Definition compare (a b : Date) : comparison :=
  match year a ?= year b with
  | Eq => match month a ?= month b with
          | Eq => day a ?= day b
          | ne => ne
          end
  | ne => ne
  end.

Definition ltb (a b : Date) : bool :=
  match compare a b with Lt => true | _ => false end.
Definition leb (a b : Date) : bool :=
  match compare a b with Gt => false | _ => true end.
Definition eqb (a b : Date) : bool :=
  match compare a b with Eq => true | _ => false end.

(** *** Formatting, ["%Y-%m-%d"] *)

Definition digit (n : Z) : ascii := ascii_of_N (Z.to_N (48 + n mod 10)).

Definition fmt2 (n : Z) : string :=
  String (digit (n / 10)) (String (digit n) "").

Definition fmt4 (n : Z) : string :=
  String (digit (n / 1000)) (String (digit (n / 100))
    (String (digit (n / 10)) (String (digit n) ""))).

(** [d.strftime("%Y-%m-%d")], the year written with four digits. *)
Definition strftime (d : Date) : string :=
  (fmt4 (year d) ++ "-" ++ fmt2 (month d) ++ "-" ++ fmt2 (day d))%string.

(** The dates [strftime] writes with four, two and two digits. *)
Definition printable (d : Date) : Prop :=
  0 <= year d <= 9999 /\ 0 <= month d <= 99 /\ 0 <= day d <= 99.

(** *** Parsing, ["%Y-%m-%d"] *)

Definition code (c : ascii) : Z := Z.of_N (N_of_ascii c).

Definition is_digit (c : ascii) : bool := (48 <=? code c) && (code c <=? 57).

Definition digit_val (c : ascii) : Z := code c - 48.

(** [%Y]: exactly four digits. *)
Definition read_year (s : string) : option (Z * string) :=
  match s with
  | String a (String b (String c (String d rest))) =>
      if is_digit a && is_digit b && is_digit c && is_digit d
      then Some (1000 * digit_val a + 100 * digit_val b
                 + 10 * digit_val c + digit_val d, rest)
      else None
  | _ => None
  end.

(** [%m] and [%d]: one or two digits, as many as there are. *)
Definition read_upto2 (s : string) : option (Z * string) :=
  match s with
  | String a rest =>
      if is_digit a then
        match rest with
        | String b rest' =>
            if is_digit b then Some (10 * digit_val a + digit_val b, rest')
            else Some (digit_val a, rest)
        | EmptyString => Some (digit_val a, rest)
        end
      else None
  | EmptyString => None
  end.

Definition expect_dash (s : string) : option string :=
  match s with
  | String c rest => if Ascii.eqb c "-" then Some rest else None
  | EmptyString => None
  end.

(** [datetime.datetime.strptime(s, "%Y-%m-%d")]; [None] stands for the
    [ValueError] raised on text that is not a date. *)
Definition strptime (s : string) : option Date :=
  match read_year s with
  | None => None
  | Some (y, s1) =>
    match expect_dash s1 with
    | None => None
    | Some s2 =>
      match read_upto2 s2 with
      | None => None
      | Some (m, s3) =>
        match expect_dash s3 with
        | None => None
        | Some s4 =>
          match read_upto2 s4 with
          | Some (d, EmptyString) =>
              if valid (mkDate y m d) then Some (mkDate y m d) else None
          | _ => None
          end
        end
      end
    end
  end.

End Dates.

(** ** src/downloader.py *)

Module Downloader.

Import Config.
Local Open Scope string_scope.
Local Open Scope list_scope.

(** *** Data *)

(** One line of a series file.  The first column is the date, kept as the
    text the file holds (pandas reads it back as a string and compares it
    as a string); [cells] are the remaining columns
    [code,open,high,low,close,volume,amount,adjustflag,turn,pctChg]. *)
Record Row : Type := mkRow { date : string; cells : list string }.

Definition DataFrame : Type := list Row.

(** [(code, name)] *)
Definition Item : Type := (string * string)%type.

Inductive Mode : Type := ModeW | ModeA.

(** [(item, need_dl, start_date, mode)] *)
Definition Task : Type := (Item * bool * option string * option Mode)%type.

Definition task_item (t : Task) : Item := fst (fst (fst t)).
Definition task_start (t : Task) : option string := snd (fst t).
Definition task_mode (t : Task) : option Mode := snd t.

(** *** The pandas operations of the merge (lines 145-148) *)

Definition has_date (d : string) (df : DataFrame) : bool :=
  existsb (fun r => date r =? d) df.

(** [pd.concat([old_df, new_df])] *)
Definition concat (old_df new_df : DataFrame) : DataFrame := old_df ++ new_df.

(** [drop_duplicates(subset=['date'], keep='last')]: a row stays exactly
    when no later row carries its date. *)
Fixpoint drop_duplicates_last (df : DataFrame) : DataFrame :=
  match df with
  | [] => []
  | r :: rest =>
      if has_date (date r) rest then drop_duplicates_last rest
      else r :: drop_duplicates_last rest
  end.

Fixpoint insert_by_date (r : Row) (df : DataFrame) : DataFrame :=
  match df with
  | [] => [r]
  | x :: rest =>
      if (date r <=? date x) then r :: df else x :: insert_by_date r rest
  end.

(** [sort_values('date')]: ascending, by the string order of the column.
    The frame it is given has pairwise distinct dates, and on such a
    frame every way of sorting gives the same list. *)
Definition sort_values (df : DataFrame) : DataFrame :=
  fold_right insert_by_date [] df.

(** Lines 145-148: what is written back in append mode. *)
Definition merge_frames (old_df new_df : DataFrame) : DataFrame :=
  sort_values (drop_duplicates_last (concat old_df new_df)).

(** The row a frame holds for a date: the last one, when there are
    several. *)
Fixpoint last_with_date (d : string) (df : DataFrame) : option Row :=
  match df with
  | [] => None
  | r :: rest =>
      match last_with_date d rest with
      | Some r' => Some r'
      | None => if date r =? d then Some r else None
      end
  end.

(** Number of rows of a frame that carry a date. *)
Definition count_date (d : string) (df : DataFrame) : nat :=
  List.length (filter (fun r => date r =? d) df).

(** Two rows in strictly ascending order of date. *)
Definition date_lt (a b : Row) : Prop := (date a <? date b) = true.

(** *** The series files *)

(** What a series file holds.  [Csv df] is a table pandas reads back as
    [df] ([to_csv(index=False)] followed by [read_csv] is taken to give the
    frame back).  [Garbled tail] is any other content, one on which
    [read_csv] or the merge raises; [tail] is what [get_last_date] finds
    at its end ([None] when the file is shorter than 50 bytes or the tail
    cannot be read). *)
Inductive FileContent : Type :=
| Csv (df : DataFrame)
| Garbled (tail : option string).

(** The data directory: a path is mapped to the content of its file, or
    to [None] when there is no file. *)
Definition Disk : Type := string -> option FileContent.

Definition disk_set (d : Disk) (path : string) (c : option FileContent) : Disk :=
  fun p => if p =? path then c else d p.

Fixpoint strip (s : string) : string :=
  match s with
  | EmptyString => EmptyString
  | String c rest =>
      if (Ascii.eqb c "*" || Ascii.eqb c "/" || Ascii.eqb c "?")%bool
      then strip rest else String c (strip rest)
  end.

(** [name.replace("*", "").replace("/", "").replace("?", "")] *)
Definition safe_name (name : string) : string := strip name.

(** [os.path.join(str(DATA_DIR), f"{code}_{safe_name}.csv")] *)
Definition file_path (item : Item) : string :=
  (DATA_DIR ++ "/" ++ fst item ++ "_" ++ safe_name (snd item) ++ ".csv")%string.

(** [get_last_date]: the first field of the last line.  The header line
    of a series file starts with the column name ["date"] and is longer
    than 50 bytes. *)
Definition get_last_date (d : Disk) (path : string) : option string :=
  match d path with
  | None => None
  | Some (Csv df) =>
      match df with
      | [] => Some "date"
      | _ => Some (date (last df (mkRow "" [])))
      end
  | Some (Garbled tail) => tail
  end.

(** *** check_status_worker *)

(** [datetime.datetime.now()]: the day and the hour. *)
Record Clock : Type := mkClock { today : Dates.Date; hour : nat }.

(** A Python call either returns or raises. *)
Inductive Outcome (A : Type) : Type :=
| Returned (a : A)
| Raised.
Arguments Raised {A}.

Definition is_empty (s : string) : bool :=
  match s with EmptyString => true | _ => false end.

Definition check_status_worker (d : Disk) (now : Clock) (item : Item)
  : Outcome Task :=
  let file_path := file_path item in
  let today_str := Dates.strftime (today now) in
  let current_hour := hour now in
  let start_date := DEFAULT_START_DATE in
  match d file_path with
  | None => Returned (item, true, Some start_date, Some ModeW)
  | Some _ =>
    match get_last_date d file_path with
    | None => Returned (item, true, Some start_date, Some ModeW)
    | Some last_date =>
      if is_empty last_date
      then Returned (item, true, Some start_date, Some ModeW)
      else if (today_str <=? last_date)
      then Returned (item, false, None, None)
      else
        match Dates.strptime last_date with
        | None => Raised
        | Some last_dt =>
          let yesterday := Dates.strftime (Dates.prev_day (today now)) in
          if ((last_date =? yesterday) && (current_hour <? DATA_READY_HOUR)%nat)%bool
          then Returned (item, false, None, None)
          else
            let next_dt := Dates.next_day last_dt in
            let new_start_date := Dates.strftime next_dt in
            if (today_str <? new_start_date)
            then Returned (item, false, None, None)
            else Returned (item, true, Some new_start_date, Some ModeA)
        end
    end
  end.

(** The planner as the specification words it: what is known of the
    stored series, and the decision taken from it. *)
Inductive LastDate : Type :=
| NoFile
| Unreadable
| Stored (last : Dates.Date).

Definition planner_spec (now : Clock) (item : Item) (l : LastDate) : Task :=
  match l with
  | NoFile | Unreadable => (item, true, Some DEFAULT_START_DATE, Some ModeW)
  | Stored last =>
      if Dates.leb (today now) last then (item, false, None, None)
      else if (Dates.eqb last (Dates.prev_day (today now))
               && (hour now <? DATA_READY_HOUR)%nat)%bool
      then (item, false, None, None)
      else (item, true, Some (Dates.strftime (Dates.next_day last)), Some ModeA)
  end.

(** What the disk shows of a series: no file; a file whose last date
    cannot be read; a file whose last line starts with a date. *)
Definition observed (d : Disk) (path : string) (l : LastDate) : Prop :=
  match l with
  | NoFile => d path = None
  | Unreadable =>
      d path <> None /\
      (get_last_date d path = None \/ get_last_date d path = Some "")
  | Stored last =>
      d path <> None /\ Dates.valid last = true /\
      get_last_date d path = Some (Dates.strftime last)
  end.

(** *** download_worker *)

(** Calls that touch the disk: they return or raise, and leave a disk. *)
Definition IO (A : Type) : Type := Disk -> Outcome A * Disk.

Definition ret {A : Type} (a : A) : IO A := fun d => (Returned a, d).

Definition raise {A : Type} : IO A := fun d => (Raised, d).

Definition bind {A B : Type} (m : IO A) (k : A -> IO B) : IO B :=
  fun d =>
    match m d with
    | (Returned a, d') => k a d'
    | (Raised, d') => (Raised, d')
    end.

(** [try: m  except: handler] *)
Definition try_except {A : Type} (m handler : IO A) : IO A :=
  fun d =>
    match m d with
    | (Returned a, d') => (Returned a, d')
    | (Raised, d') => handler d'
    end.

Notation "x <- m ;; k" := (bind m (fun x => k))
  (at level 61, m at next level, right associativity).
Notation "m ;;; k" := (bind m (fun _ => k))
  (at level 61, right associativity).

(** [os.path.exists(file_path)] *)
Definition path_exists (path : string) : IO bool :=
  fun d => (Returned (match d path with Some _ => true | None => false end), d).

(** [pd.read_csv(file_path)]: raises when the file is missing or garbled,
    and when the operating system fails the read ([fault]). *)
Definition read_csv (fault : bool) (path : string) : IO DataFrame :=
  fun d =>
    match d path with
    | Some (Csv df) => if fault then (Raised, d) else (Returned df, d)
    | _ => (Raised, d)
    end.

(** What the operating system does with one [to_csv]: the write goes
    through, or it raises and leaves the file in some state (untouched,
    truncated, partly written). *)
Inductive WriteOutcome : Type :=
| WriteOk
| WriteFails (left_behind : option FileContent).

(** [df.to_csv(file_path, index=False)] *)
Definition to_csv (w : WriteOutcome) (path : string) (df : DataFrame) : IO unit :=
  fun d =>
    match w with
    | WriteOk => (Returned tt, disk_set d path (Some (Csv df)))
    | WriteFails c => (Raised, disk_set d path c)
    end.

(** The answer of [bs.query_history_k_data_plus] for one task:
    an exception, an error code other than ['0'], or the rows (already
    turned into a frame, numeric columns converted). *)
Inductive QueryResult : Type :=
| QueryRaises
| QueryError
| QueryRows (new_df : DataFrame).

(** The environment of one task. *)
Record TaskEnv : Type := mkTaskEnv {
  upstream : QueryResult;
  read_fault : bool;
  merged_write : WriteOutcome;   (* the [to_csv] of line 149 *)
  plain_write : WriteOutcome     (* the [to_csv] of line 152 or 155 *)
}.

Definition is_append (mode : option Mode) : bool :=
  match mode with Some ModeA => true | _ => false end.

(** Lines 141-155. *)
Definition store (env : TaskEnv) (mode : option Mode) (file_path : string)
    (new_df : DataFrame) : IO unit :=
  ex <- path_exists file_path ;;
  if (is_append mode && ex)%bool then
    try_except
      (old_df <- read_csv (read_fault env) file_path ;;
       let final_df := merge_frames old_df new_df in
       to_csv (merged_write env) file_path final_df)
      (to_csv (plain_write env) file_path new_df)
  else
    to_csv (plain_write env) file_path new_df.

(** The body of the loop over [task_list], lines 109-160: [true] when the
    item goes to [success], [false] when it goes to [failed]. *)
Definition download_task (env : TaskEnv) (task : Task) : IO bool :=
  let file_path := file_path (task_item task) in
  try_except
    (match upstream env with
     | QueryRaises => raise
     | QueryError => ret false
     | QueryRows data_list =>
         match data_list with
         | [] => ret true
         | _ => store env (task_mode task) file_path data_list ;;; ret true
         end
     end)
    (ret false).

(** The append-merge of a task fails: the old file cannot be read, or
    the write of the merged frame raises. *)
Definition merge_step_fails (env : TaskEnv) (c : FileContent) : Prop :=
  (exists tail, c = Garbled tail) \/ read_fault env = true \/
  (exists residue, merged_write env = WriteFails residue).

Inductive LoginResult : Type := LoginOk | LoginError | LoginRaises.

Record WorkerEnv : Type := mkWorkerEnv {
  login : LoginResult;
  task_env : Item -> TaskEnv
}.

Fixpoint download_loop (we : WorkerEnv) (task_list : list Task)
    (success failed : list Item) (d : Disk) : (list Item * list Item) * Disk :=
  match task_list with
  | [] => ((success, failed), d)
  | task :: rest =>
      let item := task_item task in
      match download_task (task_env we item) task d with
      | (Returned true, d') => download_loop we rest (success ++ [item]) failed d'
      | (_, d') => download_loop we rest success (failed ++ [item]) d'
      end
  end.

Definition download_worker (we : WorkerEnv) (args : list Task * bool) (d : Disk)
  : (list Item * list Item) * Disk :=
  let '(task_list, use_proxy) := args in
  match login we with
  | LoginOk => download_loop we task_list [] [] d
  | _ => (([], map task_item task_list), d)
  end.

(** *** StockDownloader.run *)

Definition chunk_size : nat := 20.

(** [for i in range(0, len(current_batch), chunk_size):
       chunks.append((current_batch[i:i + chunk_size], use_proxy))] *)
Fixpoint make_chunks (fuel : nat) (current_batch : list Task) (use_proxy : bool)
  : list (list Task * bool) :=
  match fuel, current_batch with
  | _, [] => []
  | O, _ => []
  | S fuel', _ =>
      (firstn chunk_size current_batch, use_proxy)
        :: make_chunks fuel' (skipn chunk_size current_batch) use_proxy
  end.

(** What a worker hands back for a chunk: [(success_list, failed_list)]. *)
Definition ChunkResult : Type := (list Item * list Item)%type.

(** [pool.imap_unordered(download_worker, chunks)] of round [attempt]: the
    results of the chunks, in the order in which the workers finish. *)
Definition Pool : Type := nat -> list (list Task * bool) -> list ChunkResult.

(** The variables of [run] that the retry loop updates, and three
    counters that observe it: the rounds started, the chunk results taken
    from the pool, and whether the breaker has tripped. *)
Record RunState : Type := mkRunState {
  finished_codes : list string;
  final_success_count : nat;
  rounds_started : nat;
  results_consumed : nat;
  tripped : bool
}.

Definition mem (c : string) (s : list string) : bool :=
  existsb (fun x => x =? c) s.

(** [finished_codes.add(code)] *)
Definition set_add (c : string) (s : list string) : list string :=
  if mem c s then s else c :: s.

(** Lines 280-282. *)
Fixpoint record_successes (success_list : list Item) (st : RunState) : RunState :=
  match success_list with
  | [] => st
  | item :: rest =>
      record_successes rest
        (mkRunState (set_add (fst item) (finished_codes st))
                    (S (final_success_count st))
                    (rounds_started st) (results_consumed st) (tripped st))
  end.

Definition step_counter (consecutive_fail : nat) (r : ChunkResult) : nat :=
  match fst r with
  | [] => consecutive_fail + List.length (snd r)
  | _ :: _ => 0
  end.

Definition took_result (st : RunState) : RunState :=
  mkRunState (finished_codes st) (final_success_count st)
             (rounds_started st) (S (results_consumed st)) (tripped st).

(** The counter after a run of results, when nothing stops the loop. *)
Definition counter_after (consecutive_fail : nat) (results : list ChunkResult) : nat :=
  fold_left step_counter results consecutive_fail.

(** The loop over the results of one round, lines 276-292; the boolean is
    [abort]. *)
Fixpoint consume (results : list ChunkResult) (consecutive_fail : nat)
    (st : RunState) : RunState * bool :=
  match results with
  | [] => (st, false)
  | r :: rest =>
      let st := record_successes (fst r) (took_result st) in
      let consecutive_fail := step_counter consecutive_fail r in
      if (ABORT_THRESHOLD <=? consecutive_fail)%nat then (st, true)
      else consume rest consecutive_fail st
  end.

Definition started_round (st : RunState) : RunState :=
  mkRunState (finished_codes st) (final_success_count st)
             (S (rounds_started st)) (results_consumed st) (tripped st).

Definition trip (st : RunState) : RunState :=
  mkRunState (finished_codes st) (final_success_count st)
             (rounds_started st) (results_consumed st) true.

(** [current_batch = [t for t in pending_tasks if t[0][0] not in finished_codes]] *)
Definition current_batch_of (pending_tasks : list Task) (st : RunState) : list Task :=
  filter (fun t => negb (mem (fst (task_item t)) (finished_codes st))) pending_tasks.

(** The loop over [attempt], lines 257-299 (the pause between rounds is
    left out). *)
Fixpoint rounds (pool : Pool) (pending_tasks : list Task) (attempts : list nat)
    (st : RunState) : RunState :=
  match attempts with
  | [] => st
  | attempt :: later =>
      match current_batch_of pending_tasks st with
      | [] => st
      | current_batch =>
          let use_proxy := (attempt mod 2 =? 0)%nat in
          let chunks :=
            make_chunks (List.length current_batch) current_batch use_proxy in
          let '(st', abort) := consume (pool attempt chunks) 0 (started_round st) in
          if abort then trip st' else rounds pool pending_tasks later st'
      end
  end.

Definition initial_state : RunState := mkRunState [] 0 0 0 false.

(** Step 2 of [run]: the tasks that need a download. *)
Definition tasks_to_run (results : list Task) : list Task :=
  filter (fun t => snd (fst (fst t))) results.

(** Step 3 of [run]. *)
Definition run_downloads (pool : Pool) (tasks_to_run : list Task) : RunState :=
  match tasks_to_run with
  | [] => initial_state
  | _ => rounds pool tasks_to_run (seq 1 MAX_ATTEMPTS) initial_state
  end.

(** The failures handed back by a list of results. *)
Definition failure_volume (results : list ChunkResult) : nat :=
  list_sum (map (fun r => List.length (snd r)) results).

Definition no_success (r : ChunkResult) : Prop := fst r = [].

(** A pool in which every task of every chunk fails. *)
Definition all_failed (chunk : list Task * bool) : ChunkResult :=
  ([], map task_item (fst chunk)).

Definition failing_pool : Pool := fun _ chunks => map all_failed chunks.

End Downloader.

(** ** Numbers *)

(** The analyser computes on [float64].  Its arithmetic is taken as an
    interface, with no law assumed: what is proved below holds for every
    implementation of it, the machine's included.  [Arith.QFloat]
    implements it on the rationals, to run the code on examples. *)

Module Arith.

Class Float (F : Type) : Type := {
  of_Q : Q -> F;                (* a literal *)
  fadd : F -> F -> F;
  fsub : F -> F -> F;
  fmul : F -> F -> F;
  fdiv : F -> F -> F;
  fabs : F -> F;
  fgt : F -> F -> bool;         (* [a > b] *)
  flt : F -> F -> bool;         (* [a < b] *)
  feq : F -> F -> bool;         (* [a == b] *)
  fround : Z -> F -> F;         (* [round(a, ndigits)] *)
  feps : F                      (* [sys.float_info.epsilon] *)
}.

Definition of_Z {F : Type} `{Float F} (z : Z) : F := of_Q (inject_Z z).
Definition of_nat {F : Type} `{Float F} (n : nat) : F := of_Z (Z.of_nat n).

(** A cell of a numeric column: [None] is NaN (a missing value). *)
Definition Cell (F : Type) : Type := option F.
Definition Series (F : Type) : Type := list (Cell F).

Section Cells.
Context {F : Type} `{Float F}.

Definition lift2 (op : F -> F -> F) (a b : Cell F) : Cell F :=
  match a, b with
  | Some x, Some y => Some (op x y)
  | _, _ => None
  end.

(** Comparisons with a missing value are false. *)
Definition cmp2 (op : F -> F -> bool) (a b : Cell F) : bool :=
  match a, b with
  | Some x, Some y => op x y
  | _, _ => false
  end.

(** [pd.notna] *)
Definition notna (a : Cell F) : bool :=
  match a with Some _ => true | None => false end.

(** [s.iloc[i]] of a column. *)
Definition at_ (s : Series F) (i : nat) : Cell F := nth i s None.

Definition fmax (a b : F) : F := if fgt b a then b else a.
Definition fmin (a b : F) : F := if flt b a then b else a.

(** [.max()] and [.min()] of a column without missing values. *)
Definition max_of (l : list F) : Cell F :=
  match l with
  | [] => None
  | x :: rest => Some (fold_left fmax rest x)
  end.
Definition min_of (l : list F) : Cell F :=
  match l with
  | [] => None
  | x :: rest => Some (fold_left fmin rest x)
  end.

Definition fsum (l : list F) : F := fold_left fadd l (of_Q 0).
End Cells.

(** *** The rationals as an implementation *)

(** Exact arithmetic, every result in lowest terms.  Division by zero
    gives zero here where [float64] gives an infinity or NaN; no value
    that the examples look at comes from such a division. *)

Local Open Scope Z_scope.

(** Round half to even, to the nearest integer. *)
Definition round_half_even (q : Q) : Z :=
  let n := Qnum q in
  let d := Zpos (Qden q) in
  let fl := n / d in
  let r2 := 2 * (n mod d) in
  if r2 <? d then fl
  else if d <? r2 then fl + 1
  else if Z.even fl then fl else fl + 1.

Definition Qround (ndigits : Z) (q : Q) : Q :=
  let scale := inject_Z (10 ^ ndigits) in
  Qred (Qdiv (inject_Z (round_half_even (Qmult q scale))) scale).

Definition Qgtb (a b : Q) : bool :=
  match Qcompare a b with Gt => true | _ => false end.
Definition Qltb (a b : Q) : bool :=
  match Qcompare a b with Lt => true | _ => false end.

#[export] Instance QFloat : Float Q := {
  of_Q := Qred;
  fadd := fun a b => Qred (Qplus a b);
  fsub := fun a b => Qred (Qminus a b);
  fmul := fun a b => Qred (Qmult a b);
  fdiv := fun a b => Qred (Qdiv a b);
  fabs := fun a => Qred (Qabs a);
  fgt := Qgtb;
  flt := Qltb;
  feq := Qeq_bool;
  fround := Qround;
  feps := Qmake 1 4503599627370496
}.

End Arith.

(** ** The indicator library *)

(** [data_analyzer.py] calls four functions of the package [pandas_ta]:
    [ta.sma], [ta.macd], [ta.kdj] and [ta.rsi].  [TALib] is that interface;
    [pandas_ta] implements it the way the package computes them with pandas
    (rolling windows and exponentially weighted means), each result built
    in one pass down the column. *)

Module PandasTA.

Import Arith.

(** A function of the package returns [None] when the column is shorter
    than the indicator needs. *)
Class TALib (F : Type) : Type := {
  ta_sma : list F -> nat -> option (Series F);
  (** the three columns of the frame [ta.macd] returns, in its order *)
  ta_macd : list F -> nat -> nat -> nat ->
            option (Series F * Series F * Series F);
  (** the columns [K_9_3], [D_9_3] and [J_9_3] *)
  ta_kdj : list F -> list F -> list F ->
           option (Series F * Series F * Series F);
  ta_rsi : list F -> nat -> option (Series F)
}.

Section Indicators.
Context {F : Type} `{Float F}.

Definition zip_with {A B C : Type} (f : A -> B -> C)
    (l1 : list A) (l2 : list B) : list C :=
  map (fun p => f (fst p) (snd p)) (combine l1 l2).

(** [verify_series(series, min_length)] *)
Definition verify_series (xs : list F) (min_length : nat) : option (list F) :=
  if (List.length xs <? min_length)%nat then None else Some xs.

(** *** Rolling windows *)

(** The window after one more value: the last [length] values seen. *)
Definition push (length : nat) (window : list F) (x : F) : list F :=
  let w := window ++ [x] in skipn (List.length w - length) w.

(** [xs.rolling(length).agg()]: missing until the window is full. *)
Fixpoint rolling (length : nat) (agg : list F -> F) (window : list F)
    (xs : list F) : Series F :=
  match xs with
  | [] => []
  | x :: rest =>
      let window' := push length window x in
      (if (List.length window' =? length)%nat then Some (agg window') else None)
        :: rolling length agg window' rest
  end.

Definition mean (w : list F) : F := fdiv (fsum w) (of_nat (List.length w)).

Definition window_max (w : list F) : F :=
  match w with [] => of_Q 0 | x :: rest => fold_left fmax rest x end.
Definition window_min (w : list F) : F :=
  match w with [] => of_Q 0 | x :: rest => fold_left fmin rest x end.

(** [ta.sma(close, length)] = [close.rolling(length, min_periods=length).mean()] *)
Definition sma (close : list F) (length : nat) : option (Series F) :=
  match verify_series close length with
  | None => None
  | Some close => Some (rolling length mean [] close)
  end.

(** *** Exponentially weighted means *)

Definition one : F := of_Z 1.

(** [alpha = 2 / (span + 1)] *)
Definition alpha_span (length : nat) : F := fdiv (of_Z 2) (of_nat (length + 1)).

(** The package's [ema]: missing for the first [length - 1] values, the
    plain mean of the first [length] values at the next, and from there
    [y = (1 - alpha) * y_prev + alpha * x]
    ([ewm(span=length, adjust=False).mean()] on the column seeded that
    way).  Leading missing values are passed over, as [ta.macd] does for
    its signal line with [macd.loc[macd.first_valid_index():]].  [acc]
    is the running sum while warming up and the previous mean
    afterwards. *)
Fixpoint ema_scan (length seen : nat) (acc : F) (xs : Series F) : Series F :=
  match xs with
  | [] => []
  | None :: rest => None :: ema_scan length seen acc rest
  | Some x :: rest =>
      let seen' := S seen in
      if (seen' <? length)%nat
      then None :: ema_scan length seen' (fadd acc x) rest
      else
        let y :=
          if (seen' =? length)%nat then fdiv (fadd acc x) (of_nat length)
          else fadd (fmul (fsub one (alpha_span length)) acc)
                    (fmul (alpha_span length) x) in
        Some y :: ema_scan length seen' y rest
  end.

Definition ema (close : Series F) (length : nat) : Series F :=
  ema_scan length 0 (of_Q 0) close.

(** The package's [rma]: [ewm(alpha=1/length, min_periods=length).mean()],
    the weighted mean [sum (1-alpha)^k x_(t-k) / sum (1-alpha)^k] over
    the values seen so far, missing until [length] of them were seen. *)
Fixpoint rma_scan (length seen : nat) (num den : F) (xs : Series F) : Series F :=
  match xs with
  | [] => []
  | None :: rest => None :: rma_scan length seen num den rest
  | Some x :: rest =>
      let decay := fsub one (fdiv one (of_nat length)) in
      let num' := fadd (fmul decay num) x in
      let den' := fadd (fmul decay den) one in
      let seen' := S seen in
      (if (length <=? seen')%nat then Some (fdiv num' den') else None)
        :: rma_scan length seen' num' den' rest
  end.

Definition rma (xs : Series F) (length : nat) : Series F :=
  rma_scan length 0 (of_Q 0) (of_Q 0) xs.

(** *** MACD *)

(** [ta.macd(close, fast, slow, signal)]; the frame it returns has the
    columns [MACD], [MACDh] (histogram) and [MACDs] (signal), in this
    order.  The signal line is defined once the column is as long as
    [slow + signal - 1]. *)
Definition macd (close : list F) (fast slow signal : nat)
  : option (Series F * Series F * Series F) :=
  match verify_series close (Nat.max fast (Nat.max slow signal)) with
  | None => None
  | Some close =>
      let fastma := ema (map Some close) fast in
      let slowma := ema (map Some close) slow in
      let macd := zip_with (lift2 fsub) fastma slowma in
      let signalma := ema macd signal in
      let histogram := zip_with (lift2 fsub) macd signalma in
      Some (macd, histogram, signalma)
  end.

(** *** RSI *)

Fixpoint diff_from (prev : F) (xs : list F) : Series F :=
match xs with
| [] => []
| x :: rest => Some (fsub x prev) :: diff_from x rest
end.

(** [close.diff(1)]: missing at the first row, then the change from the
    row before. *)
Definition diff (xs : list F) : Series F :=
match xs with
| [] => []
| x :: rest => None :: diff_from x rest
end.

Definition clip_below (c : Cell F) : Cell F :=
  match c with
  | Some d => Some (if flt d (of_Q 0) then of_Q 0 else d)
  | None => None
  end.
Definition clip_above (c : Cell F) : Cell F :=
  match c with
  | Some d => Some (if fgt d (of_Q 0) then of_Q 0 else d)
  | None => None
  end.

Definition rsi_cell (p n : Cell F) : Cell F :=
  lift2 (fun p n => fdiv (fmul (of_Z 100) p) (fadd p (fabs n))) p n.

(** [ta.rsi(close, length)] *)
Definition rsi (close : list F) (length : nat) : option (Series F) :=
  match verify_series close length with
  | None => None
  | Some close =>
      let negative := diff close in
      let positive := map clip_below negative in
      let negative := map clip_above negative in
      let positive_avg := rma positive length in
      let negative_avg := rma negative length in
      Some (zip_with rsi_cell positive_avg negative_avg)
  end.

(** *** KDJ *)

(** The package's [non_zero_range]: when some difference of the column
    is zero, epsilon is added to every difference. *)
Definition non_zero_range (high low : Series F) : Series F :=
  let diff := zip_with (lift2 fsub) high low in
  if existsb (fun c => cmp2 feq c (Some (of_Q 0))) diff
  then map (fun c => lift2 fadd c (Some feps)) diff
  else diff.

Definition fastk_cell (c l r : Cell F) : Cell F :=
  lift2 fdiv (lift2 fmul (Some (of_Z 100)) (lift2 fsub c l)) r.

(** [ta.kdj(high, low, close)] with its defaults [length=9], [signal=3]. *)
Definition kdj (high low close : list F)
  : option (Series F * Series F * Series F) :=
  match verify_series high 9, verify_series low 9, verify_series close 9 with
  | Some high, Some low, Some close =>
      let highest_high := rolling 9 window_max [] high in
      let lowest_low := rolling 9 window_min [] low in
      let range := non_zero_range highest_high lowest_low in
      let fastk :=
        zip_with (fun cl r => fastk_cell (fst cl) (snd cl) r)
                 (combine (map Some close) lowest_low) range in
      let k := rma fastk 3 in
      let d := rma k 3 in
      let j := zip_with (fun k d =>
                 lift2 fsub (lift2 fmul (Some (of_Z 3)) k)
                            (lift2 fmul (Some (of_Z 2)) d)) k d in
      Some (k, d, j)
  | _, _, _ => None
  end.

Definition pandas_ta : TALib F := {|
  ta_sma := sma;
  ta_macd := macd;
  ta_kdj := kdj;
  ta_rsi := rsi
|}.

End Indicators.

End PandasTA.

(** ** src/data_analyzer.py *)

Module Analyzer.

Import Arith PandasTA.
Local Open Scope string_scope.
Local Open Scope list_scope.

(** One row of a series file as the analyser reads it: the date turned
    into a timestamp by [pd.to_datetime], the price and volume columns as
    numbers. *)
Record Bar (F : Type) : Type := mkBar {
  date : Dates.Date;
  open : F;
  high : F;
  low : F;
  close : F;
  volume : F
}.

(** The frame after step 1: the rows and the columns added to them. *)
Record Frame (F : Type) : Type := mkFrame {
  bars : list (Bar F);
  MA5 : Series F;
  MA20 : Series F;
  MA60 : Series F;
  MA250 : Series F;
  DIF : Series F;
  DEA : Series F;
  KD : option (Series F * Series F);   (* [K_9_3], [D_9_3], when [kdj] is there *)
  RSI : Series F;
  VOL_MA5 : Series F
}.

(** The four keys that backtest mode adds to the result. *)
Record Forward (F : Type) : Type := mkForward {
  T5 : F;          (* 'T+5收益(%)' *)
  T10 : F;         (* 'T+10收益(%)' *)
  T30 : F;         (* 'T+30收益(%)' *)
  max_gain : F     (* '后市最高涨幅(%)' *)
}.

(** The dictionary [res]; numbers are kept as numbers where the code
    formats them into text. *)
Record Result (F : Type) : Type := mkResult {
  res_code : string;                (* '代码' *)
  res_name : string;                (* '名称' *)
  res_date : Dates.Date;            (* '回测日期' *)
  buy_price : F;                    (* '买入价' *)
  res_rsi : F;                      (* 'RSI' *)
  res_vol_ratio : F;                (* '量比' *)
  res_ma_state : string;            (* '均线形态' *)
  res_year_line : string * F;       (* '年线状态' *)
  res_macd_state : string;          (* 'MACD状态' *)
  res_kdj_state : string;           (* 'KDJ状态' *)
  res_vol_state : string;           (* '量能状态' *)
  res_pressure : Cell F;            (* '压力位' *)
  res_support : Cell F;             (* '支撑位' *)
  res_pressure_dist : Cell F;       (* '压力位距' *)
  res_support_dist : Cell F;        (* '支撑位距' *)
  res_trend : list F;               (* '近5日走势' *)
  res_match : string;               (* '策略匹配' *)
  is_watchlist : bool;
  forward : option (Forward F)
}.

(** The tuple [args], with the file read: [frame] is what [pd.read_csv]
    gives ([None] when it raises), [code] and [name] are the two parts of
    the file name, [bt_date] is the backtest date when one is given. *)
Record Args (F : Type) : Type := mkArgs {
  frame : option (list (Bar F));
  code : string;
  name : string;
  watchlist_set : list string;
  mode : string;
  scope : string;
  bt_date : option Dates.Date
}.

(** [sub in s] on strings *)
Fixpoint contains (sub s : string) : bool :=
  if String.prefix sub s then true
  else match s with
       | EmptyString => false
       | String _ rest => contains sub rest
       end.

Fixpoint join (sep : string) (l : list string) : string :=
  match l with
  | [] => ""
  | [x] => x
  | x :: rest => (x ++ sep ++ join sep rest)%string
  end.

Section TechnicalAnalyzer.
Context {F : Type} {FF : Float F} {TA : TALib F}.

Definition _get_ma_state (close ma5 ma20 ma60 : Cell F) : string :=
  if negb (notna ma60) then "数据不足"
  else if cmp2 fgt ma5 ma20 && cmp2 fgt ma20 ma60 then "多头排列"
  else if cmp2 flt ma5 ma20 && cmp2 flt ma20 ma60 then "空头排列"
  else if cmp2 fgt close ma60 && cmp2 fgt ma5 ma20 then "反弹趋势"
  else "震荡整理".

(** Assigning the result of an indicator to a column: a result of
    [None] gives a column of missing values. *)
Definition column (n : nat) (s : option (Series F)) : Series F :=
  match s with Some s => s | None => repeat None n end.

(** Step 1, lines 74-100. *)
Definition indicators (df : list (Bar F)) : option (Frame F) :=
  let n := List.length df in
  let closes := map (@close F) df in
  match ta_macd closes 12 26 9 with
  | None => None
  | Some (c0, c1, _) =>
      let kdj := ta_kdj (map (@high F) df) (map (@low F) df) closes in
      Some {| bars := df;
              MA5 := column n (ta_sma closes 5);
              MA20 := column n (ta_sma closes 20);
              MA60 := column n (ta_sma closes 60);
              MA250 := column n (ta_sma closes 250);
              DIF := c0;
              DEA := c1;
              KD := match kdj with
                    | Some (k, d, _) => Some (k, d)
                    | None => None
                    end;
              RSI := column n (ta_rsi closes 14);
              VOL_MA5 := column n (ta_sma (map (@volume F) df) 5) |}
  end.

(** The index of the last row dated on or before [target]:
    [df[df['date'] <= target_dt].index[-1]]. *)
Fixpoint last_index_upto (target : Dates.Date) (df : list (Bar F))
    (i : nat) (found : option nat) : option nat :=
  match df with
  | [] => found
  | b :: rest =>
      last_index_upto target rest (S i)
        (if Dates.leb (date b) target then Some i else found)
  end.

(** Step 2, lines 102-111. *)
Definition eval_index (mode : string) (bt_date : option Dates.Date)
    (df : list (Bar F)) : option nat :=
  match (mode =? "backtest"), bt_date with
  | true, Some target_dt =>
      match last_index_upto target_dt df 0 None with
      | None => None
      | Some idx => if (idx <? 60)%nat then None else Some idx
      end
  | _, _ => Some (List.length df - 1)
  end.

(** Lines 56-111: the frame with its indicator columns, the evaluation
    index and [is_vip]; [None] where the code returns [None]. *)
Definition evaluation_point (args : Args F) : option (Frame F * nat * bool) :=
  match frame args with
  | None => None
  | Some df =>
      if (List.length df <? 60)%nat then None
      else
        let is_vip := existsb (fun c => c =? code args) (watchlist_set args) in
        if (scope args =? "watchlist_only") && negb is_vip then None
        else
          match indicators df with
          | None => None
          | Some fr =>
              match eval_index (mode args) (bt_date args) df with
              | None => None
              | Some idx => Some (fr, idx, is_vip)
              end
          end
  end.

(** [curr[col]] for a column of the bars. *)
Definition bar_at (fr : Frame F) (idx : nat) (col : Bar F -> F) : Cell F :=
  option_map col (nth_error (bars fr) idx).

(** [curr['DIF'] > curr['DEA']] *)
Definition macd_golden (fr : Frame F) (idx : nat) : bool :=
cmp2 fgt (at_ (DIF fr) idx) (at_ (DEA fr) idx).

(** [k_col in curr and d_col in curr] and [curr[k_col] > curr[d_col]] *)
Definition kdj_golden (fr : Frame F) (idx : nat) : bool :=
match KD fr with
| Some (k, d) => cmp2 fgt (at_ k idx) (at_ d idx)
| None => false
end.

Definition macd_state (fr : Frame F) (idx : nat) : string :=
if macd_golden fr idx then "金叉" else "死叉".

Definition kdj_state (fr : Frame F) (idx : nat) : string :=
if kdj_golden fr idx then "金叉" else "死叉".

Definition vol_ratio (fr : Frame F) (idx : nat) : F :=
  let vol_ma5 := at_ (VOL_MA5 fr) idx in
  match vol_ma5, bar_at fr idx (@volume F) with
  | Some m, Some v => if fgt m (of_Q 0) then fround 2 (fdiv v m) else of_Q 0
  | _, _ => of_Q 0
  end.

(** [cond1], line 157 *)
Definition cond1 (fr : Frame F) (idx : nat) : bool :=
  cmp2 fgt (bar_at fr idx (@close F)) (at_ (MA20 fr) idx).

(** [cond2], line 158 *)
Definition cond2 (fr : Frame F) (idx : nat) : bool :=
  contains "金叉" (macd_state fr idx) || contains "金叉" (kdj_state fr idx).

Definition strategy_pass (fr : Frame F) (idx : nat) : bool :=
  cond1 fr idx || cond2 fr idx.

(** Lines 167-170. *)
Definition match_reason (fr : Frame F) (idx : nat) : list string :=
  (if cond1 fr idx then ["站上月线"] else []) ++
  (if contains "金叉" (macd_state fr idx) then ["MACD金叉"] else []) ++
  (if fgt (vol_ratio fr idx) (of_Q (3 # 2)) then ["放量"] else []).

(** Line 171. *)
Definition match_str (fr : Frame F) (idx : nat) : string :=
  match match_reason fr idx with
  | [] => "自选观察"
  | reasons => join "+" reasons
  end.

(** [(x - buy_price) / buy_price * 100], rounded to two places. *)
Definition pct_gain (buy_price x : F) : F :=
  fround 2 (fmul (fdiv (fsub x buy_price) buy_price) (of_Z 100)).

(** Step 6, lines 209-224. *)
Definition forward_returns (df : list (Bar F)) (idx : nat) (buy_price : F)
  : Forward F :=
  let future_df := skipn (idx + 1) df in
  let zero := of_Q 0 in
  let n := List.length future_df in
  if (0 <? n)%nat then
    let max_price := max_of (map (@high F) (firstn 30 future_df)) in
    let at_offset k :=
      if (k <=? n)%nat
      then match nth_error future_df (k - 1) with
           | Some b => pct_gain buy_price (close b)
           | None => zero
           end
      else zero in
    {| T5 := at_offset 5; T10 := at_offset 10; T30 := at_offset 30;
       max_gain := match max_price with
                   | Some m => pct_gain buy_price m
                   | None => zero
                   end |}
  else {| T5 := zero; T10 := zero; T30 := zero; max_gain := zero |}.

(** Steps 3 to 6, lines 113-226, at the row [curr]. *)
Definition analyse (args : Args F) (fr : Frame F) (idx : nat) (is_vip : bool)
    (curr : Bar F) : option (Result F) :=
  let df := bars fr in
  let c := Some (close curr) in
  let ma_state :=
    _get_ma_state c (at_ (MA5 fr) idx) (at_ (MA20 fr) idx) (at_ (MA60 fr) idx) in
  let year_line :=
    match at_ (MA250 fr) idx with
    | Some m =>
        let dist_pct := fmul (fdiv (fsub (close curr) m) m) (of_Z 100) in
        (if fgt (close curr) m then "站上年线" else "年线下方", fround 1 dist_pct)
    | None => ("无数据", of_Q 0)
    end in
  let start_idx := Nat.max 0 (idx - 30) in
  let period_df := firstn (idx + 1 - start_idx) (skipn start_idx df) in
  let high_30d := max_of (map (@high F) period_df) in
  let low_30d := min_of (map (@low F) period_df) in
  let pressure_dist :=
    option_map (fun h =>
      fround 1 (fmul (fdiv (fsub h (close curr)) (close curr)) (of_Z 100)))
      high_30d in
  let support_dist :=
    option_map (fun l =>
      fround 1 (fmul (fdiv (fsub (close curr) l) (close curr)) (of_Z 100)))
      low_30d in
  let ratio := vol_ratio fr idx in
  let vol_state := if fgt ratio (of_Q (6 # 5)) then "放量" else "缩量" in
  if negb (strategy_pass fr idx) && negb is_vip then None
  else
    let buy_price := close curr in
    let recent_prices := map (@close F) (firstn 5 (skipn (idx - 4) df)) in
    Some {| res_code := code args;
            res_name := name args;
            res_date := date curr;
            buy_price := buy_price;
            res_rsi := match at_ (RSI fr) idx with
                       | Some r => fround 2 r
                       | None => of_Q 0
                       end;
            res_vol_ratio := ratio;
            res_ma_state := ma_state;
            res_year_line := year_line;
            res_macd_state := macd_state fr idx;
            res_kdj_state := kdj_state fr idx;
            res_vol_state := vol_state;
            res_pressure := option_map (fround 2) high_30d;
            res_support := option_map (fround 2) low_30d;
            res_pressure_dist := pressure_dist;
            res_support_dist := support_dist;
            res_trend := map (fround 2) recent_prices;
            res_match := match_str fr idx;
            is_watchlist := is_vip;
            forward := if mode args =? "backtest"
                       then Some (forward_returns df idx buy_price)
                       else None |}.

Definition _process_one_stock (args : Args F) : option (Result F) :=
  match evaluation_point args with
  | None => None
  | Some (fr, idx, is_vip) =>
      match nth_error (bars fr) idx with
      | None => None
      | Some curr => analyse args fr idx is_vip curr
      end
  end.

End TechnicalAnalyzer.

End Analyzer.

(** ** Sample data *)

Module Samples.

Import Config Downloader Arith PandasTA.
Local Open Scope string_scope.
Local Open Scope list_scope.

Definition item : Item := ("sh.600000", "浦发银行").

Definition path : string := file_path item.

Definition row (d o h l c v : string) : Row :=
  mkRow d ["sh.600000"; o; h; l; c; v; "0"; "2"; "0.1"; "0.5"].

(** A stored series of two days, and a batch that fetches the second
    day again, with other prices, and one day more. *)
Definition old_df : DataFrame :=
  [ row "2024-01-02" "10.0" "10.5" "9.8" "10.2" "1000";
    row "2024-01-03" "10.2" "10.6" "10.0" "10.4" "1200" ].

Definition new_df : DataFrame :=
  [ row "2024-01-03" "10.3" "10.9" "10.1" "10.8" "1500";
    row "2024-01-04" "10.8" "11.0" "10.6" "10.9" "900" ].

Definition merged_df : DataFrame :=
  [ row "2024-01-02" "10.0" "10.5" "9.8" "10.2" "1000";
    row "2024-01-03" "10.3" "10.9" "10.1" "10.8" "1500";
    row "2024-01-04" "10.8" "11.0" "10.6" "10.9" "900" ].

Definition disk : Disk := disk_set (fun _ => None) path (Some (Csv old_df)).

Definition append_task : Task := (item, true, Some "2024-01-03", Some ModeA).

(** Everything works. *)
Definition env_ok : TaskEnv := mkTaskEnv (QueryRows new_df) false WriteOk WriteOk.

(** The old file cannot be read; the write that follows works. *)
Definition env_read_fault : TaskEnv :=
  mkTaskEnv (QueryRows new_df) true WriteOk WriteOk.

(** The write of the merged frame breaks off and leaves a garbled file;
    the write that follows works. *)
Definition env_write_fault : TaskEnv :=
  mkTaskEnv (QueryRows new_df) false (WriteFails (Some (Garbled None))) WriteOk.

(** Ten tasks, every one of which fails in every round. *)
Definition ten_tasks : list Task :=
  map (fun n => ((("sz.00000" ++ String (Dates.digit (Z.of_nat n)) "")%string, "N"),
                 true, Some DEFAULT_START_DATE, Some ModeW))
      (seq 0 10).

(** Sixty tasks. *)
Definition sixty_tasks : list Task :=
  map (fun n => ((("sz.00" ++ Dates.fmt4 (Z.of_nat n))%string, "N"),
                 true, Some DEFAULT_START_DATE, Some ModeW))
      (seq 0 60).

(** The clock on 2024-01-04, in the morning and in the evening. *)
Definition morning : Clock := mkClock (Dates.mkDate 2024 1 4) 10.
Definition evening : Clock := mkClock (Dates.mkDate 2024 1 4) 18.

(** A series for the analyser, on the rationals: [n] rows on the days
    from 2024-01-01 on, with the closes given by [price], highs one above
    and lows one below, and a constant volume. *)
Fixpoint days_from (d : Dates.Date) (n : nat) : list Dates.Date :=
match n with
| O => []
| S n' => d :: days_from (Dates.next_day d) n'
end.

Definition bar_of (price : nat -> Q) (i : nat) (d : Dates.Date) : Analyzer.Bar Q :=
Analyzer.mkBar d (price i) (price i + 1)%Q (price i - 1)%Q (price i) 1000%Q.

Definition series (price : nat -> Q) (n : nat) : list (Analyzer.Bar Q) :=
map (fun p => bar_of price (fst p) (snd p))
    (combine (seq 0 n) (days_from (Dates.mkDate 2024 1 1) n)).

(** The closes rise by one a day from 100. *)
Definition rising (i : nat) : Q := inject_Z (100 + Z.of_nat i).

(** The closes stay at 100 for 45 days, fall by one a day for 14 days and
    tick up by a half on the last day. *)
Definition sliding (i : nat) : Q :=
if (i <? 45)%nat then 100%Q
else if (i <? 59)%nat then inject_Z (100 - Z.of_nat (i - 44))
else (173 # 2)%Q.

(** The closes fall by one a day from 200. *)
Definition falling (i : nat) : Q := inject_Z (200 - Z.of_nat i).

Definition analyser_args (df : list (Analyzer.Bar Q)) (watchlist : list string)
    (mode : string) (bt_date : option Dates.Date) : Analyzer.Args Q :=
Analyzer.mkArgs (Some df) "sh.600000" "浦发银行" watchlist mode "all" bt_date.

(** A rising series of 71 rows, evaluated at 2024-03-01, the date of row
    60: ten rows follow.  The close is 160 at row 60 and 165 at row 65. *)
Definition backtest_args : Analyzer.Args Q :=
analyser_args (series rising 71) [] "backtest" (Some (Dates.mkDate 2024 3 1)).

End Samples.

(** ** src/downloader.py, the rest *)

Module DownloaderRest.

Import Config Downloader.
Local Open Scope string_scope.
Local Open Scope list_scope.

(** *** [get_last_date] on the bytes of a file *)

Definition newline : ascii := "010"%char.
Definition comma : ascii := ","%char.

(** Lines 28-32: from the byte before the last one, step back until a
    newline was read; the line starts after it.  Stepping back before the
    first byte raises [OSError], and the line then starts at byte 0. *)
Fixpoint seek_line_start (text : list ascii) (pos : nat) {struct pos} : nat :=
  if Ascii.eqb (nth pos text zero) newline then S pos
  else match pos with
       | O => 0
       | S p => seek_line_start text p
       end.

(** [f.readline()]: up to the next newline, included. *)
Fixpoint readline (l : list ascii) : list ascii :=
  match l with
  | [] => []
  | c :: rest => if Ascii.eqb c newline then [c] else c :: readline rest
  end.

(** [last_line.split(',')[0]] *)
Fixpoint first_field (l : list ascii) : list ascii :=
  match l with
  | [] => []
  | c :: rest => if Ascii.eqb c comma then [] else c :: first_field rest
  end.

(** [get_last_date(file_path)] on what the file holds: [None] for a
    missing file ([os.path.getsize] raises) and for one shorter than 50
    bytes. *)
Definition get_last_date_of (content : option (list ascii)) : option string :=
  match content with
  | None => None
  | Some text =>
      if (List.length text <? 50)%nat then None
      else
        let start := seek_line_start text (List.length text - 2) in
        let last_line := readline (skipn start text) in
        Some (string_of_list_ascii (first_field last_line))
  end.

(** The columns of a series file, [fields] of [download_worker]. *)
Definition header : list string :=
  ["date"; "code"; "open"; "high"; "low"; "close"; "volume"; "amount";
   "adjustflag"; "turn"; "pctChg"].

(** [os.linesep], the line terminator of [to_csv]: a newline, after a
    carriage return on Windows ([crlf]). *)
Definition linesep (crlf : bool) : list ascii :=
  (if crlf then ["013"%char] else []) ++ [newline].

Definition csv_line (crlf : bool) (fields : list string) : list ascii :=
  list_ascii_of_string (String.concat "," fields) ++ linesep crlf.

(** The bytes [to_csv(file_path, index=False)] writes for a frame whose
    fields need no quoting. *)
Definition to_csv_text (crlf : bool) (df : DataFrame) : list ascii :=
  csv_line crlf header ++ flat_map (fun r => csv_line crlf (date r :: cells r)) df.

(** A field written as it is: no comma, quote, newline or carriage
    return. *)
Definition plain_char (c : ascii) : bool :=
  negb (Ascii.eqb c comma || Ascii.eqb c (ascii_of_nat 34)
        || Ascii.eqb c newline || Ascii.eqb c "013"%char).

Definition plain (s : string) : bool :=
  forallb plain_char (list_ascii_of_string s).

Definition plain_row (r : Row) : bool :=
  plain (date r) && forallb plain (cells r).

(** *** [StockDownloader.get_all_stocks] *)

(** A row of [bs.query_all_stock]: the code, the trade status and the
    name; the code is [row[0]] and the name [row[2]]. *)
Record StockRow : Type := mkStockRow {
  row_code : string;
  trade_status : string;
  code_name : string
}.

(** The answer for one day: an error code other than ['0'], or rows. *)
Inductive DayAnswer : Type :=
| DayError
| DayRows (temp : list StockRow).

(** [c.startswith(("sh.6", "sz.0", "sz.3", "bj."))] *)
Definition listed (c : string) : bool :=
  String.prefix "sh.6" c || String.prefix "sz.0" c
  || String.prefix "sz.3" c || String.prefix "bj." c.

Definition keep_listed (temp : list StockRow) : list Item :=
  map (fun row => (row_code row, code_name row))
      (filter (fun row => listed (row_code row)) temp).

(** The loop over [range(30)]: [query i] is the answer for the day [i]
    days before today; the loop breaks at the first day with more than
    4000 rows. *)
Fixpoint scan_days (query : nat -> DayAnswer) (days : list nat) : list Item :=
  match days with
  | [] => []
  | i :: rest =>
      match query i with
      | DayError => scan_days query rest
      | DayRows temp =>
          if (4000 <? List.length temp)%nat then keep_listed temp
          else scan_days query rest
      end
  end.

Definition get_all_stocks (query : nat -> DayAnswer) : list Item :=
  scan_days query (seq 0 30).

(** A day whose answer is taken: no error and more than 4000 rows. *)
Definition full_day (a : DayAnswer) : Prop :=
  match a with
  | DayError => False
  | DayRows temp => 4000 < List.length temp
  end.

(** A worker that succeeds on every task of its chunk. *)
Definition all_succeeded (chunk : list Task * bool) : ChunkResult :=
  (map task_item (fst chunk), []).

(** The environment of a task whose query returns no row. *)
Definition nothing_new (env : TaskEnv) : Prop := upstream env = QueryRows [].

(** The environment of a task whose query fails: an error code or an
    exception. *)
Definition query_fails (env : TaskEnv) : Prop :=
  upstream env = QueryError \/ upstream env = QueryRaises.

(** The codes of a list of items. *)
Definition codes (items : list Item) : list string := map fst items.

(** The successes handed back by a list of results. *)
Definition successes (results : list ChunkResult) : nat :=
  list_sum (map (fun r => List.length (fst r)) results).

(** The invariant of the retry loop: no code is held twice, and no more
    codes are held than successes were counted. *)
Definition tidy (st : RunState) : Prop :=
  NoDup (finished_codes st) /\
  List.length (finished_codes st) <= final_success_count st.

End DownloaderRest.

(** ** The MACD golden cross, as the specification words it *)

Module MacdSpec.

Import Arith PandasTA Analyzer.

Section Spec.
Context {F : Type} {FF : Float F} {TA : TALib F}.

(** The signal line of [ta.macd(close, fast=12, slow=26, signal=9)], the
    DEA of the specification: the third column of the frame,
    [MACDs_12_26_9]. *)
Definition signal_line (df : list (Bar F)) : Series F :=
  match ta_macd (map (@close F) df) 12 26 9 with
  | Some (_, _, c2) => c2
  | None => []
  end.

(** "golden cross" if [DIF > DEA]: the MACD line above its signal line. *)
Definition spec_macd_golden (fr : Frame F) (idx : nat) : bool :=
  cmp2 fgt (at_ (DIF fr) idx) (at_ (signal_line (bars fr)) idx).

(** [matched = (close > MA20) OR (MACD golden cross OR KDJ golden cross)] *)
Definition spec_matched (fr : Frame F) (idx : nat) : bool :=
  cmp2 fgt (bar_at fr idx (@close F)) (at_ (MA20 fr) idx)
  || (spec_macd_golden fr idx || kdj_golden fr idx).

End Spec.

End MacdSpec.

(** ** File names, and the functions that read them back *)

Module FileNames.

Import Config Downloader.
Local Open Scope string_scope.
Local Open Scope list_scope.

(** [f"{code}_{safe_name}.csv"], the last component of [file_path]. *)
Definition file_name (item : Item) : string :=
  fst item ++ "_" ++ safe_name (snd item) ++ ".csv".

(** [c in s] for a character *)
Fixpoint has_char (c : ascii) (s : string) : bool :=
  match s with
  | EmptyString => false
  | String a rest => Ascii.eqb a c || has_char c rest
  end.

(** [s.split(sep)] for a separator of one character: at least one part. *)
Fixpoint split_on (sep : ascii) (s : string) : list string :=
  match s with
  | EmptyString => [EmptyString]
  | String a rest =>
      if Ascii.eqb a sep then EmptyString :: split_on sep rest
      else match split_on sep rest with
           | [] => [String a EmptyString]
           | part :: parts => String a part :: parts
           end
  end.

(** [s.replace('.csv', '')]: every occurrence, from the left. *)
Fixpoint remove_csv (s : string) : string :=
  match s with
  | EmptyString => EmptyString
  | String c0 r0 =>
      match r0 with
      | String _ (String _ (String _ r3)) =>
          if String.prefix ".csv" s then remove_csv r3
          else String c0 (remove_csv r0)
      | _ => String c0 (remove_csv r0)
      end
  end.

(** [s.endswith(suffix)] *)
Fixpoint ends_with (suffix s : string) : bool :=
  (s =? suffix) ||
  match s with
  | EmptyString => false
  | String _ rest => ends_with suffix rest
  end.

(** [data_analyzer.py], lines 62-66: the code and the name that
    [_process_one_stock] takes from the name of the file. *)
Definition parse_file_name (file_name : string) : string * string :=
  let code := hd EmptyString (split_on "_" file_name) in
  let name_part :=
    if has_char "_" file_name then nth 1 (split_on "_" file_name) EmptyString
    else "未知" in
  (code, remove_csv name_part).

(** The body of the loop of [_get_watchlist_stocks] (lines 199-206), and
    of [get_stock_name_map] of [app.py]: the pair that a file of the data
    directory adds to the dictionary, if any. *)
Definition entry (f : string) : option (string * string) :=
  if ends_with ".csv" f then
    match split_on "_" (remove_csv f) with
    | p0 :: p1 :: _ => Some (p0, p1)
    | _ => None
    end
  else None.

(** A dictionary filled by assignments: the pairs, the latest first. *)
Definition Dict : Type := list (string * string).

Fixpoint dict_get (m : Dict) (key : string) : option string :=
  match m with
  | [] => None
  | (k, v) :: rest => if k =? key then Some v else dict_get rest key
  end.

(** [local_map] after the loop over [os.listdir]; [None] is a data
    directory that does not exist. *)
Definition local_map (listing : option (list string)) : Dict :=
  match listing with
  | None => []
  | Some files =>
      fold_left (fun m f => match entry f with
                            | Some kv => kv :: m
                            | None => m
                            end) files []
  end.

(** [StockDownloader._get_watchlist_stocks] *)
Definition _get_watchlist_stocks (listing : option (list string))
    (watchlist_codes : list string) : list Item :=
  let m := local_map listing in
  map (fun code => (code, match dict_get m code with
                          | Some name => name
                          | None => "自选股"
                          end)) watchlist_codes.

(** An item whose file name reads back: no underscore in the code or in
    the name as written, and no [.csv] inside the two. *)
Definition well_named (item : Item) : bool :=
  negb (has_char "_" (fst item)) &&
  negb (has_char "_" (safe_name (snd item))) &&
  negb (Analyzer.contains ".csv" (fst item ++ "_" ++ safe_name (snd item))).

(** *** [app.py]: [load_stock_data] *)

(** The file that [load_stock_data] opens: the first of the listing whose
    name starts with the code and an underscore. *)
Definition target_file (listing : list string) (code : string) : option string :=
  find (fun f => String.prefix (code ++ "_") f) listing.

(** [target_file.split('_')[1].replace('.csv', '')] *)
Definition stock_name (target_file : string) : string :=
  remove_csv (nth 1 (split_on "_" target_file) EmptyString).

(** The two clean-up steps on the frame read: [drop_duplicates] on the
    date keeping the last row, then [sort_values] on the date. *)
Definition clean_up (df : DataFrame) : DataFrame :=
  sort_values (drop_duplicates_last df).

End FileNames.

(** ** More sample data *)

Module MoreSamples.

Import Config Downloader DownloaderRest Samples.
Local Open Scope string_scope.
Local Open Scope list_scope.

(** A worker that logs in and whose queries answer without a row. *)
Definition idle_worker : WorkerEnv :=
  mkWorkerEnv LoginOk (fun _ => mkTaskEnv (QueryRows []) false WriteOk WriteOk).

(** A first download of the sample symbol, on an empty data directory. *)
Definition empty_disk : Disk := fun _ => None.
Definition full_task : Task := (item, true, Some DEFAULT_START_DATE, Some ModeW).

(** A pool in which every task of every chunk succeeds. *)
Definition succeeding_pool : Pool := fun _ chunks => map all_succeeded chunks.

(** The file of the sample symbol with its header line and no row. *)
Definition header_only_disk : Disk := disk_set empty_disk path (Some (Csv [])).

(** A data directory with the file of the sample symbol and a file that
    is no series, and a watchlist of the sample symbol and one more. *)
Definition listing : list string := [FileNames.file_name item; "notes.txt"].
Definition watchlist_codes : list string := ["sh.600000"; "sz.000001"].

(** The sample symbol on the watchlist, analysed with the scope
    "watchlist_only". *)
Definition watchlist_args : Analyzer.Args Q :=
Analyzer.mkArgs (Some (series rising 60)) "sh.600000" "浦发银行" ["sh.600000"]
                "current" "watchlist_only" None.

(** Backtest mode without a date. *)
Definition undated_backtest_args : Analyzer.Args Q :=
analyser_args (series rising 60) [] "backtest" None.

(** The closes rise by one a day from 100 to 149 and then fall by two a
    day, to 129 at row 59. *)
Definition peaked (i : nat) : Q :=
if (i <? 50)%nat then inject_Z (100 + Z.of_nat i)
else inject_Z (149 - 2 * Z.of_nat (i - 49)).

(** That series, for a symbol outside the watchlist, in current mode. *)
Definition peaked_args : Analyzer.Args Q :=
analyser_args (series peaked 60) [] "current" None.

End MoreSamples.

(* ================================================================= *)
(** * Part II: properties                                              *)
(* ================================================================= *)

(** ** The order of strings *)

Module StringOrder.

Local Open Scope string_scope.

Lemma ascii_compare_refl (a : ascii) : Ascii.compare a a = Eq.
Proof. unfold Ascii.compare. apply N.compare_refl. Qed.

Lemma compare_refl (s : string) : String.compare s s = Eq.
Proof.
  induction s as [|a s IH]; simpl; [reflexivity|].
  now rewrite ascii_compare_refl.
Qed.

Lemma compare_lt_trans (s1 s2 s3 : string) :
  String.compare s1 s2 = Lt -> String.compare s2 s3 = Lt ->
  String.compare s1 s3 = Lt.
Proof.
  revert s2 s3.
  induction s1 as [|a s1 IH]; intros [|b s2] [|c s3]; simpl;
    try discriminate; try reflexivity.
  unfold Ascii.compare.
  destruct (N.compare_spec (N_of_ascii a) (N_of_ascii b)) as [E1|L1|G1];
    try discriminate;
    destruct (N.compare_spec (N_of_ascii b) (N_of_ascii c)) as [E2|L2|G2];
    try discriminate; intros H1 H2.
  - rewrite E1, E2, N.compare_refl. eauto.
  - rewrite E1. now apply N.compare_lt_iff in L2 as ->.
  - rewrite <- E2. now apply N.compare_lt_iff in L1 as ->.
  - assert (L : (N_of_ascii a < N_of_ascii c)%N) by lia.
    now apply N.compare_lt_iff in L as ->.
Qed.

Lemma ltb_lt (s1 s2 : string) : (s1 <? s2) = true <-> String.compare s1 s2 = Lt.
Proof. unfold String.ltb. destruct (String.compare s1 s2); split; congruence. Qed.

Lemma ltb_irrefl (s : string) : (s <? s) = false.
Proof. unfold String.ltb. now rewrite compare_refl. Qed.

Lemma ltb_trans (s1 s2 s3 : string) :
  (s1 <? s2) = true -> (s2 <? s3) = true -> (s1 <? s3) = true.
Proof. rewrite !ltb_lt. apply compare_lt_trans. Qed.

Lemma leb_false_ltb (s1 s2 : string) : (s1 <=? s2) = false -> (s2 <? s1) = true.
Proof.
  unfold String.leb, String.ltb. rewrite (String.compare_antisym s2 s1).
  destruct (String.compare s1 s2); simpl; congruence.
Qed.

Lemma leb_ltb_or_eq (s1 s2 : string) :
  (s1 <=? s2) = true -> (s1 <? s2) = true \/ s1 = s2.
Proof.
  unfold String.leb, String.ltb.
  destruct (String.compare s1 s2) eqn:E; try congruence; auto.
  right. now apply String.compare_eq_iff.
Qed.

End StringOrder.

(** ** The append-merge of [download_worker] *)

Module MergeFacts.

Import Downloader StringOrder.
Local Open Scope string_scope.
Local Open Scope list_scope.

Lemma has_date_In (d : string) (df : DataFrame) :
  has_date d df = true <-> In d (map date df).
Proof.
  unfold has_date. rewrite existsb_exists, in_map_iff.
  split; intros [r [H1 H2]]; exists r.
  - apply String.eqb_eq in H2. auto.
  - split; [assumption | now apply String.eqb_eq].
Qed.

Lemma has_date_false (d : string) (df : DataFrame) :
  has_date d df = false <-> ~ In d (map date df).
Proof.
  rewrite <- has_date_In. destruct (has_date d df); split; congruence.
Qed.

(** *** [last_with_date] *)

Lemma last_with_date_None (d : string) (df : DataFrame) :
  last_with_date d df = None <-> ~ In d (map date df).
Proof.
  induction df as [|r rest IH]; simpl.
  - tauto.
  - destruct (last_with_date d rest) eqn:E.
    + split; [discriminate|]. intros H. exfalso. apply H. right.
      destruct (in_dec string_dec d (map date rest)) as [i|n]; [exact i|].
      apply IH in n. discriminate.
    + destruct (String.eqb_spec (date r) d) as [e|n].
      * split; [discriminate|]. intros H. exfalso. apply H. now left.
      * split; [|reflexivity]. intros _ [H|H]; [contradiction|].
        now apply IH in H.
Qed.

Lemma last_with_date_Some (d : string) (df : DataFrame) (r : Row) :
  last_with_date d df = Some r -> In r df /\ date r = d.
Proof.
  induction df as [|x rest IH]; simpl; [discriminate|].
  destruct (last_with_date d rest) eqn:E.
  - intros H. inversion H; subst. destruct (IH eq_refl). auto.
  - destruct (String.eqb_spec (date x) d); [|discriminate].
    intros H. inversion H; subst. auto.
Qed.

Lemma last_with_date_app (d : string) (l1 l2 : DataFrame) :
  last_with_date d (l1 ++ l2) =
  match last_with_date d l2 with
  | Some r => Some r
  | None => last_with_date d l1
  end.
Proof.
  induction l1 as [|x l1 IH]; simpl.
  - now destruct (last_with_date d l2).
  - rewrite IH. destruct (last_with_date d l2); [reflexivity|].
    reflexivity.
Qed.

(** In a frame whose dates are pairwise distinct, the row of a date is
    the only row that carries it. *)
Lemma last_with_date_unique (df : DataFrame) (r : Row) :
  NoDup (map date df) -> In r df -> last_with_date (date r) df = Some r.
Proof.
  induction df as [|x rest IH]; simpl; [tauto|].
  intros ND [->|Hin]; inversion ND as [|? ? Hx ND']; subst.
  - apply last_with_date_None in Hx. rewrite Hx.
    now rewrite String.eqb_refl.
  - now rewrite (IH ND' Hin).
Qed.

(** *** [drop_duplicates_last] *)

Lemma drop_duplicates_last_In (df : DataFrame) (r : Row) :
  In r (drop_duplicates_last df) <-> last_with_date (date r) df = Some r.
Proof.
  induction df as [|x rest IH]; simpl.
  - split; [tauto | discriminate].
  - destruct (has_date (date x) rest) eqn:Hx.
    + rewrite IH. destruct (last_with_date (date r) rest) eqn:E; [tauto|].
      split; [discriminate|].
      destruct (String.eqb_spec (date x) (date r)) as [e|n]; [|discriminate].
      apply has_date_In in Hx. rewrite e in Hx.
      apply last_with_date_None in E. contradiction.
    + simpl. rewrite IH.
      destruct (last_with_date (date r) rest) eqn:E.
      * split; [|tauto]. intros [->|H]; [|exact H].
        apply has_date_false in Hx.
        apply last_with_date_Some in E as [Hin Hd].
        exfalso. apply Hx. rewrite <- Hd. now apply in_map.
      * destruct (String.eqb_spec (date x) (date r)) as [e|n].
        -- split; [intros [->|H]; [reflexivity|discriminate] |].
           intros H. left. congruence.
        -- split; [intros [->|H]; [congruence|discriminate] | discriminate].
Qed.

Lemma drop_duplicates_last_dates (df : DataFrame) (d : string) :
  In d (map date (drop_duplicates_last df)) <-> In d (map date df).
Proof.
  rewrite !in_map_iff. split.
  - intros [r [Hd Hin]]. apply drop_duplicates_last_In in Hin.
    apply last_with_date_Some in Hin as [Hin _]. eauto.
  - intros [r [Hd Hin]].
    destruct (last_with_date d df) as [r'|] eqn:E.
    + pose proof (last_with_date_Some _ _ E) as [_ Hd'].
      exists r'. split; [assumption|].
      apply drop_duplicates_last_In. now rewrite Hd'.
    + apply last_with_date_None in E. exfalso. apply E.
      rewrite <- Hd. now apply in_map.
Qed.

Lemma drop_duplicates_last_NoDup (df : DataFrame) :
  NoDup (map date (drop_duplicates_last df)).
Proof.
  induction df as [|x rest IH]; simpl; [constructor|].
  destruct (has_date (date x) rest) eqn:Hx; [assumption|].
  simpl. constructor; [|assumption].
  rewrite drop_duplicates_last_dates. now apply has_date_false.
Qed.

(** *** [sort_values] *)

Lemma insert_by_date_perm (r : Row) (df : DataFrame) :
  Permutation (r :: df) (insert_by_date r df).
Proof.
  induction df as [|x rest IH]; simpl; [reflexivity|].
  destruct (date r <=? date x); [reflexivity|].
  rewrite perm_swap. now constructor.
Qed.

Lemma sort_values_perm (df : DataFrame) : Permutation df (sort_values df).
Proof.
  induction df as [|x rest IH]; simpl; [constructor|].
  rewrite <- insert_by_date_perm. now constructor.
Qed.

Lemma sort_values_In (df : DataFrame) (r : Row) :
  In r (sort_values df) <-> In r df.
Proof.
  split; apply Permutation_in;
    [symmetry|]; apply sort_values_perm.
Qed.

Lemma sort_values_NoDup (df : DataFrame) :
  NoDup (map date df) -> NoDup (map date (sort_values df)).
Proof.
  apply Permutation_NoDup, Permutation_map, sort_values_perm.
Qed.

Lemma date_lt_trans (a b c : Row) : date_lt a b -> date_lt b c -> date_lt a c.
Proof. unfold date_lt. apply ltb_trans. Qed.

Lemma insert_by_date_sorted (r : Row) (df : DataFrame) :
  ~ In (date r) (map date df) ->
  StronglySorted date_lt df -> StronglySorted date_lt (insert_by_date r df).
Proof.
  induction df as [|x rest IH]; simpl; intros Hr Hs.
  - repeat constructor.
  - inversion Hs as [|? ? Hs' Hall]; subst.
    destruct (date r <=? date x) eqn:E.
    + assert (Hrx : date_lt r x).
      { destruct (leb_ltb_or_eq _ _ E) as [H|H]; [exact H|].
        exfalso. apply Hr. now left. }
      constructor; [assumption|]. constructor; [assumption|].
      rewrite Forall_forall in *. intros y Hy.
      apply date_lt_trans with x; auto.
    + constructor.
      * apply IH; [tauto | assumption].
      * apply leb_false_ltb in E.
        rewrite Forall_forall in *. intros y Hy.
        apply (Permutation_in _ (Permutation_sym (insert_by_date_perm r rest))) in Hy.
        destruct Hy as [<-|Hy]; [exact E | auto].
Qed.

Lemma sort_values_sorted (df : DataFrame) :
  NoDup (map date df) -> StronglySorted date_lt (sort_values df).
Proof.
  induction df as [|x rest IH]; simpl; intros ND; [constructor|].
  inversion ND as [|? ? Hx ND']; subst.
  apply insert_by_date_sorted; [|auto].
  intros H. apply Hx. apply in_map_iff in H as [y [Hy Hin]].
  apply (proj1 (sort_values_In rest y)) in Hin. rewrite <- Hy. now apply in_map.
Qed.

(** A strictly ascending frame is determined by the rows it holds: any
    sorting routine gives the result of [sort_values] on distinct
    dates. *)
Lemma sorted_unique (l1 l2 : DataFrame) :
  StronglySorted date_lt l1 -> StronglySorted date_lt l2 ->
  (forall r, In r l1 <-> In r l2) -> l1 = l2.
Proof.
  revert l2. induction l1 as [|x l1 IH]; intros [|y l2] S1 S2 Hin.
  - reflexivity.
  - exfalso. apply (Hin y). now left.
  - exfalso. apply (Hin x). now left.
  - inversion S1 as [|? ? S1' A1]; inversion S2 as [|? ? S2' A2]; subst.
    rewrite Forall_forall in A1, A2.
    assert (Hxy : x = y).
    { destruct (proj1 (Hin x) (or_introl eq_refl)) as [e|i]; [auto|].
      destruct (proj2 (Hin y) (or_introl eq_refl)) as [e|j]; [auto|].
      pose proof (ltb_trans _ _ _ (A2 _ i) (A1 _ j)) as H.
      now rewrite ltb_irrefl in H. }
    subst y. f_equal. apply IH; try assumption.
    intros r. split; intros Hr.
    + destruct (proj1 (Hin r) (or_intror Hr)) as [e|i]; [|exact i].
      subst r. specialize (A1 _ Hr). unfold date_lt in A1.
      now rewrite ltb_irrefl in A1.
    + destruct (proj2 (Hin r) (or_intror Hr)) as [e|i]; [|exact i].
      subst r. specialize (A2 _ Hr). unfold date_lt in A2.
      now rewrite ltb_irrefl in A2.
Qed.

Lemma sorted_any_order (df out : DataFrame) :
  NoDup (map date df) -> Permutation df out -> StronglySorted date_lt out ->
  out = sort_values df.
Proof.
  intros ND P S. apply sorted_unique; [assumption | now apply sort_values_sorted |].
  intros r. rewrite sort_values_In. split; apply Permutation_in; [symmetry|]; exact P.
Qed.

(** *** [merge_frames] *)

Lemma merge_frames_In (old_df new_df : DataFrame) (r : Row) :
  In r (merge_frames old_df new_df) <->
  last_with_date (date r) (old_df ++ new_df) = Some r.
Proof.
  unfold merge_frames, concat.
  now rewrite sort_values_In, drop_duplicates_last_In.
Qed.

Lemma merge_frames_NoDup (old_df new_df : DataFrame) :
  NoDup (map date (merge_frames old_df new_df)).
Proof. apply sort_values_NoDup, drop_duplicates_last_NoDup. Qed.

Lemma merge_frames_sorted (old_df new_df : DataFrame) :
  StronglySorted date_lt (merge_frames old_df new_df).
Proof. apply sort_values_sorted, drop_duplicates_last_NoDup. Qed.

Lemma merge_frames_lookup (old_df new_df : DataFrame) (d : string) :
  last_with_date d (merge_frames old_df new_df) =
  last_with_date d (old_df ++ new_df).
Proof.
  destruct (last_with_date d (old_df ++ new_df)) as [r|] eqn:E.
  - pose proof (last_with_date_Some _ _ E) as [_ Hd]. subst d.
    apply last_with_date_unique; [apply merge_frames_NoDup|].
    now apply merge_frames_In.
  - apply last_with_date_None. apply last_with_date_None in E.
    intros H. apply E. unfold merge_frames, concat in H.
    apply in_map_iff in H as [r [Hd Hin]].
    apply (proj1 (sort_values_In _ r)) in Hin.
    apply drop_duplicates_last_dates. rewrite <- Hd. now apply in_map.
Qed.

(** Both sides are strictly ascending and hold the same rows. *)
Lemma merge_frames_idem (old_df new_df : DataFrame) :
  merge_frames (merge_frames old_df new_df) new_df = merge_frames old_df new_df.
Proof.
  apply sorted_unique; try apply merge_frames_sorted.
  intros r. rewrite !merge_frames_In, !last_with_date_app.
  rewrite merge_frames_lookup, last_with_date_app.
  destruct (last_with_date (date r) new_df); tauto.
Qed.

Lemma count_date_NoDup (df : DataFrame) (d : string) :
  NoDup (map date df) -> In d (map date df) -> count_date d df = 1.
Proof.
  unfold count_date.
  induction df as [|x rest IH]; simpl; [tauto|].
  intros ND Hin. inversion ND as [|? ? Hx ND']; subst.
  destruct (String.eqb_spec (date x) d) as [e|n].
  - simpl. f_equal. subst d.
    assert (H : filter (fun r => date r =? date x) rest = []).
    { clear -Hx. induction rest as [|y rest IH]; simpl; [reflexivity|].
      destruct (String.eqb_spec (date y) (date x)) as [e|n].
      - exfalso. apply Hx. left. exact e.
      - apply IH. intros H. apply Hx. now right. }
    now rewrite H.
  - destruct Hin as [e|Hin]; [contradiction|]. now apply IH.
Qed.

End MergeFacts.

(** ** Append-merge on the disk: C1 and C10 *)

Module MergeTheorems.

Import Downloader MergeFacts.
Local Open Scope string_scope.
Local Open Scope list_scope.

(** With the old file readable and the write going through, a task in
    append mode leaves the merged frame in the file and succeeds. *)
Lemma download_task_merges (env : TaskEnv) (task : Task) (d : Disk)
    (old_df new_df : DataFrame) :
  task_mode task = Some ModeA ->
  d (file_path (task_item task)) = Some (Csv old_df) ->
  upstream env = QueryRows new_df ->
  new_df <> [] ->
  read_fault env = false ->
  merged_write env = WriteOk ->
  download_task env task d =
    (Returned true,
     disk_set d (file_path (task_item task))
              (Some (Csv (merge_frames old_df new_df)))).
Proof.
  intros Hmode Hfile Hup Hne Hread Hwrite.
  destruct new_df as [|r rest]; [congruence|].
  cbv beta iota zeta delta
    [download_task try_except bind store path_exists read_csv to_csv ret raise].
  rewrite Hup, Hmode, Hfile, Hread, Hwrite. simpl.
  rewrite Hfile. reflexivity.
Qed.

Lemma merge_frames_dates (old_df new_df : DataFrame) (d : string) :
  In d (map date (merge_frames old_df new_df)) <->
  In d (map date old_df) \/ In d (map date new_df).
Proof.
  unfold merge_frames, concat.
  rewrite <- in_app_iff, <- map_app.
  rewrite <- (drop_duplicates_last_dates (old_df ++ new_df) d).
  set (l := drop_duplicates_last (old_df ++ new_df)).
  pose proof (Permutation_map date (sort_values_perm l)) as P.
  split; apply Permutation_in; [symmetry|]; exact P.
Qed.

(** C1.  In append mode, on an existing readable series file and a
    non-empty incoming batch, the task writes back the union of the old
    and the incoming rows, deduplicated by date and sorted ascending by
    date: every row of the result is a row of the old file or of the
    batch, the dates of the result are those of both, every date occurs
    exactly once, the rows are in strictly ascending order of date, a date
    of the batch carries the (last) incoming row of that date, and a date
    only the old file has keeps its old row. *)
Theorem append_merge_correct (env : TaskEnv) (task : Task) (d : Disk)
    (old_df new_df : DataFrame) :
  task_mode task = Some ModeA ->
  d (file_path (task_item task)) = Some (Csv old_df) ->
  upstream env = QueryRows new_df ->
  new_df <> [] ->
  read_fault env = false ->
  merged_write env = WriteOk ->
  let merged := merge_frames old_df new_df in
  download_task env task d =
    (Returned true, disk_set d (file_path (task_item task)) (Some (Csv merged)))
  /\ merged = sort_values (drop_duplicates_last (old_df ++ new_df))
  /\ (forall r, In r merged -> In r old_df \/ In r new_df)
  /\ (forall dt, In dt (map date merged) <->
                 In dt (map date old_df) \/ In dt (map date new_df))
  /\ (forall dt, In dt (map date old_df) \/ In dt (map date new_df) ->
                 count_date dt merged = 1)
  /\ StronglySorted date_lt merged
  /\ (forall dt, In dt (map date new_df) ->
                 last_with_date dt merged = last_with_date dt new_df)
  /\ (forall dt, ~ In dt (map date new_df) ->
                 last_with_date dt merged = last_with_date dt old_df).
Proof.
  intros Hmode Hfile Hup Hne Hread Hwrite merged. subst merged.
  split; [now apply download_task_merges|].
  split; [reflexivity|].
  split.
  { intros r Hr. apply merge_frames_In in Hr.
    apply last_with_date_Some in Hr as [Hr _]. now apply in_app_iff. }
  split; [apply merge_frames_dates|].
  split.
  { intros dt Hdt. apply count_date_NoDup; [apply merge_frames_NoDup|].
    now apply merge_frames_dates. }
  split; [apply merge_frames_sorted|].
  split.
  - intros dt Hdt. rewrite merge_frames_lookup, last_with_date_app.
    destruct (last_with_date dt new_df) eqn:E; [reflexivity|].
    apply last_with_date_None in E. contradiction.
  - intros dt Hdt. rewrite merge_frames_lookup, last_with_date_app.
    apply last_with_date_None in Hdt. now rewrite Hdt.
Qed.

(** C10.  Merging the same batch a second time changes nothing: the
    result is the same list of rows in the same order, which has no
    duplicate date and is in ascending order. *)
Theorem append_merge_idempotent (old_df new_df : DataFrame) :
  merge_frames (merge_frames old_df new_df) new_df = merge_frames old_df new_df
  /\ NoDup (map date (merge_frames (merge_frames old_df new_df) new_df))
  /\ StronglySorted date_lt (merge_frames (merge_frames old_df new_df) new_df).
Proof.
  split; [|split; [apply merge_frames_NoDup | apply merge_frames_sorted]].
  apply merge_frames_idem.
Qed.

(** The same on the disk: running an append task twice with the same
    batch leaves the file as running it once does. *)
Lemma download_task_twice (env : TaskEnv) (task : Task) (d : Disk)
    (old_df new_df : DataFrame) :
  task_mode task = Some ModeA ->
  d (file_path (task_item task)) = Some (Csv old_df) ->
  upstream env = QueryRows new_df ->
  new_df <> [] ->
  read_fault env = false ->
  merged_write env = WriteOk ->
  forall p,
    snd (download_task env task (snd (download_task env task d))) p =
    snd (download_task env task d) p.
Proof.
  intros Hmode Hfile Hup Hne Hread Hwrite p.
  rewrite (download_task_merges env task d Hmode Hfile Hup Hne Hread Hwrite).
  simpl.
  rewrite (@download_task_merges env task _ (merge_frames old_df new_df) new_df);
    try assumption.
  - simpl. unfold disk_set.
    destruct (p =? file_path (task_item task)); [|reflexivity].
    now rewrite merge_frames_idem.
  - unfold disk_set. now rewrite String.eqb_refl.
Qed.

End MergeTheorems.

(** ** Failures during the append-merge: C2 *)

Module MergeFailures.

Import Downloader MergeFacts.
Local Open Scope string_scope.
Local Open Scope list_scope.

(** When no row arrives, nothing is written. *)
Lemma download_task_no_rows (env : TaskEnv) (task : Task) (d : Disk) :
  upstream env = QueryRaises \/ upstream env = QueryError \/
  upstream env = QueryRows [] ->
  snd (download_task env task d) = d.
Proof.
  intros [E|[E|E]];
    cbv beta iota zeta delta [download_task try_except ret raise];
    rewrite E; reflexivity.
Qed.

(** C2, as the code has it.  In append mode, on an existing file and a
    non-empty batch, when reading the old file or writing the merged
    frame fails, the worker overwrites the file with the incoming batch
    alone.  When that overwrite goes through, the task is reported as a
    success and the file holds exactly the incoming rows; when it raises
    too, the task is reported as failed and the file is what the failed
    write left.  No other file changes. *)
Theorem merge_failure_falls_back (env : TaskEnv) (task : Task) (d : Disk)
    (c : FileContent) (new_df : DataFrame) :
  task_mode task = Some ModeA ->
  d (file_path (task_item task)) = Some c ->
  upstream env = QueryRows new_df ->
  new_df <> [] ->
  merge_step_fails env c ->
  let path := file_path (task_item task) in
  let '(reported, d') := download_task env task d in
  (forall p, p <> path -> d' p = d p) /\
  match plain_write env with
  | WriteOk => reported = Returned true /\ d' path = Some (Csv new_df)
  | WriteFails residue => reported = Returned false /\ d' path = residue
  end.
Proof.
  intros Hmode Hfile Hup Hne Hfail path.
  destruct new_df as [|r rest]; [congruence|].
  cbv beta iota zeta delta
    [download_task try_except bind store path_exists read_csv to_csv ret raise].
  rewrite Hup, Hmode, Hfile. simpl. rewrite Hfile.
  assert (Hset : forall (d0 : Disk) x p, p <> path -> disk_set d0 path x p = d0 p).
  { intros d0 x p Hp. unfold disk_set. apply String.eqb_neq in Hp. now rewrite Hp. }
  assert (Hget : forall (d0 : Disk) x, disk_set d0 path x path = x).
  { intros d0 x. unfold disk_set. now rewrite String.eqb_refl. }
  fold path.
  destruct Hfail as [[tail ->]|[Hr|[residue Hw]]].
  - destruct (plain_write env); simpl; split; auto.
  - destruct c as [old_df|tail]; [rewrite Hr|];
      destruct (plain_write env); simpl; split; auto.
  - destruct c as [old_df|tail].
    + destruct (read_fault env); rewrite ?Hw;
        destruct (plain_write env); simpl; split; auto;
        intros p Hp; rewrite !Hset by assumption; reflexivity.
    + destruct (plain_write env); simpl; split; auto.
Qed.

End MergeFailures.

Module MergeExamples.

Import Downloader Samples.
Local Open Scope string_scope.
Local Open Scope list_scope.

(** The sample batch merged into the sample file: the day fetched again
    carries the incoming prices, once. *)
Lemma append_merge_correct_witness :
  download_task env_ok append_task disk =
    (Returned true, disk_set disk path (Some (Csv merged_df))).
Proof.
  refine (proj1 (@MergeTheorems.append_merge_correct
                   env_ok append_task disk old_df new_df _ _ _ _ _ _)).
  - reflexivity.
  - reflexivity.
  - reflexivity.
  - discriminate.
  - reflexivity.
  - reflexivity.
Defined.

(** The old file cannot be read: the task is reported as a success and
    the file holds the incoming rows only; the row of 2024-01-02 is
    gone. *)
Lemma merge_not_atomic :
  merge_step_fails env_read_fault (Csv old_df) /\
  disk path = Some (Csv old_df) /\
  fst (download_task env_read_fault append_task disk) = Returned true /\
  snd (download_task env_read_fault append_task disk) path = Some (Csv new_df) /\
  last_with_date "2024-01-02" new_df = None.
Proof.
  split; [right; left; reflexivity|].
  repeat split; reflexivity.
Qed.

(** The same when the write of the merged frame breaks off. *)
Lemma merge_not_atomic_on_write :
  fst (download_task env_write_fault append_task disk) = Returned true /\
  snd (download_task env_write_fault append_task disk) path = Some (Csv new_df).
Proof. split; reflexivity. Qed.

Lemma merge_failure_falls_back_witness :
  let '(reported, d') := download_task env_read_fault append_task disk in
  (forall p, p <> path -> d' p = disk p) /\
  reported = Returned true /\ d' path = Some (Csv new_df).
Proof.
  refine (@MergeFailures.merge_failure_falls_back
            env_read_fault append_task disk (Csv old_df) new_df _ _ _ _ _).
  - reflexivity.
  - reflexivity.
  - reflexivity.
  - discriminate.
  - right; left; reflexivity.
Defined.

End MergeExamples.

(** ** The circuit breaker of [StockDownloader.run]: C7 *)

Module Breaker.

Import Config Downloader.
Local Open Scope list_scope.

Lemma record_successes_counters (l : list Item) (st : RunState) :
  rounds_started (record_successes l st) = rounds_started st /\
  results_consumed (record_successes l st) = results_consumed st /\
  tripped (record_successes l st) = tripped st.
Proof.
  revert st. induction l as [|x l IH]; intros st; simpl; [auto|].
  destruct (IH (mkRunState (set_add (fst x) (finished_codes st))
                           (S (final_success_count st)) (rounds_started st)
                           (results_consumed st) (tripped st))) as [A [B C]].
  simpl in *. auto.
Qed.

(** The loop stops at the first result that brings the counter to the
    threshold, and takes nothing after it. *)
Lemma consume_trips (p q : list ChunkResult) (r : ChunkResult) (c : nat)
    (st : RunState) :
  (forall k, k <= List.length p -> 0 < k ->
             counter_after c (firstn k p) < ABORT_THRESHOLD) ->
  ABORT_THRESHOLD <= counter_after c (p ++ [r]) ->
  exists st',
    consume (p ++ r :: q) c st = (st', true) /\
    results_consumed st' = results_consumed st + S (List.length p) /\
    rounds_started st' = rounds_started st.
Proof.
  revert c st. induction p as [|x p IH]; intros c st Hlow Hhigh.
  - cbn [app consume List.length] in *.
    unfold counter_after in Hhigh. cbn [fold_left] in Hhigh.
    apply Nat.leb_le in Hhigh. rewrite Hhigh.
    eexists. split; [reflexivity|].
    destruct (record_successes_counters (fst r) (took_result st)) as [A [B _]].
    rewrite A, B. cbn [took_result rounds_started results_consumed]. split; lia.
  - cbn [app consume List.length].
    assert (Hx : counter_after c [x] < ABORT_THRESHOLD).
    { apply (Hlow 1); cbn [List.length]; lia. }
    unfold counter_after in Hx. cbn [fold_left] in Hx.
    apply Nat.leb_gt in Hx. rewrite Hx.
    destruct (IH (step_counter c x) (record_successes (fst x) (took_result st)))
      as [st' [E [R S]]].
    + intros k Hk Hpos. apply (Hlow (S k)); cbn [List.length]; lia.
    + exact Hhigh.
    + exists st'. split; [exact E|].
      destruct (record_successes_counters (fst x) (took_result st)) as [A [B _]].
      rewrite R, S, A, B. cbn [took_result rounds_started results_consumed].
      split; lia.
Qed.

(** Without a trip, every result is taken. *)
Lemma consume_passes (results : list ChunkResult) (c : nat) (st : RunState) :
  (forall k, k <= List.length results -> 0 < k ->
             counter_after c (firstn k results) < ABORT_THRESHOLD) ->
  exists st',
    consume results c st = (st', false) /\
    results_consumed st' = results_consumed st + List.length results /\
    rounds_started st' = rounds_started st /\
    tripped st' = tripped st.
Proof.
  revert c st. induction results as [|x p IH]; intros c st Hlow.
  - cbn [consume List.length]. exists st. repeat split; lia.
  - cbn [consume List.length].
    assert (Hx : counter_after c [x] < ABORT_THRESHOLD).
    { apply (Hlow 1); cbn [List.length]; lia. }
    unfold counter_after in Hx. cbn [fold_left] in Hx.
    apply Nat.leb_gt in Hx. rewrite Hx.
    destruct (IH (step_counter c x) (record_successes (fst x) (took_result st)))
      as [st' [E [R [S T]]]].
    + intros k Hk Hpos. apply (Hlow (S k)); cbn [List.length]; lia.
    + exists st'. split; [exact E|].
      destruct (record_successes_counters (fst x) (took_result st)) as [A [B C]].
      rewrite R, S, T, A, B, C.
      cbn [took_result rounds_started results_consumed tripped].
      repeat split; lia.
Qed.

(** When no result has a success and the failures reach the threshold,
    the loop trips, and nothing was recorded as a success. *)
Lemma consume_all_failed (results : list ChunkResult) (c : nat) (st : RunState) :
  Forall no_success results ->
  ABORT_THRESHOLD <= c + failure_volume results ->
  c < ABORT_THRESHOLD ->
  exists st',
    consume results c st = (st', true) /\
    finished_codes st' = finished_codes st /\
    final_success_count st' = final_success_count st /\
    rounds_started st' = rounds_started st /\
    results_consumed st' <= results_consumed st + List.length results.
Proof.
  revert c st. induction results as [|x l IH]; intros c st Hall Hvol Hc.
  - unfold failure_volume in Hvol. simpl in Hvol. lia.
  - inversion Hall as [|? ? Hx Hl]; subst. cbn [consume List.length].
    unfold no_success in Hx.
    assert (Hs : step_counter c x = c + List.length (snd x)).
    { unfold step_counter. now rewrite Hx. }
    rewrite Hx. cbn [record_successes].
    destruct (ABORT_THRESHOLD <=? step_counter c x) eqn:E.
    + eexists. split; [reflexivity|].
      cbn [took_result finished_codes final_success_count rounds_started
           results_consumed]. repeat split; lia.
    + apply Nat.leb_gt in E.
      destruct (IH (step_counter c x) (took_result st) Hl) as [st' [E' [A [B [C D]]]]].
      * change (failure_volume (x :: l))
          with (List.length (snd x) + failure_volume l) in Hvol.
        lia.
      * exact E.
      * exists st'. split; [exact E'|].
        unfold took_result in A, B, C, D. simpl in A, B, C, D.
        repeat split; try assumption. lia.
Qed.

Lemma failure_volume_perm (l1 l2 : list ChunkResult) :
  Permutation l1 l2 -> failure_volume l1 = failure_volume l2.
Proof.
  intros P. unfold failure_volume.
  induction P; simpl; lia.
Qed.

Lemma no_success_perm (l1 l2 : list ChunkResult) :
  Permutation l1 l2 -> Forall no_success l1 -> Forall no_success l2.
Proof.
  intros P Hall. rewrite Forall_forall in *. intros x Hx.
  apply Hall. now apply (Permutation_in _ (Permutation_sym P)).
Qed.

Lemma make_chunks_cons (fuel : nat) (t : Task) (batch : list Task)
    (use_proxy : bool) :
  make_chunks (S fuel) (t :: batch) use_proxy =
  (firstn chunk_size (t :: batch), use_proxy)
    :: make_chunks fuel (skipn chunk_size (t :: batch)) use_proxy.
Proof. reflexivity. Qed.

Lemma failure_volume_cons (r : ChunkResult) (l : list ChunkResult) :
  failure_volume (r :: l) = List.length (snd r) + failure_volume l.
Proof. reflexivity. Qed.

(** The chunks hold the batch. *)
Lemma make_chunks_volume (fuel : nat) (batch : list Task) (use_proxy : bool) :
  List.length batch <= fuel ->
  failure_volume (map all_failed (make_chunks fuel batch use_proxy)) =
  List.length batch.
Proof.
  revert batch. induction fuel as [|fuel IH]; intros batch Hlen.
  - destruct batch; [reflexivity | simpl in Hlen; lia].
  - destruct batch as [|t batch]; [reflexivity|].
    rewrite make_chunks_cons. cbn [map]. rewrite failure_volume_cons.
    rewrite IH.
    + unfold all_failed. cbn [fst snd]. rewrite length_map.
      rewrite <- (firstn_skipn chunk_size (t :: batch)) at 3.
      now rewrite length_app.
    + rewrite length_skipn. unfold chunk_size. simpl in *. lia.
Qed.

Lemma all_failed_no_success (chunks : list (list Task * bool)) :
  Forall no_success (map all_failed chunks).
Proof.
  apply Forall_forall. intros x Hx. apply in_map_iff in Hx as [c [<- _]].
  reflexivity.
Qed.

Lemma rounds_cons (pool : Pool) (pending_tasks : list Task) (attempt : nat)
    (later : list nat) (st : RunState) :
  current_batch_of pending_tasks st <> [] ->
  rounds pool pending_tasks (attempt :: later) st =
  let batch := current_batch_of pending_tasks st in
  let chunks := make_chunks (List.length batch) batch (attempt mod 2 =? 0) in
  let '(st', abort) := consume (pool attempt chunks) 0 (started_round st) in
  if abort then trip st' else rounds pool pending_tasks later st'.
Proof.
  intros Hne. cbn [rounds].
  destruct (current_batch_of pending_tasks st); [congruence | reflexivity].
Qed.

(** C7, as the code has it.  In a round that starts: the counter grows by
    the failures of a chunk without a success and goes back to zero on a
    chunk with one; at the first result that brings it to
    [ABORT_THRESHOLD] the run stops with the breaker tripped, no further
    result is taken and no further round starts, whatever rounds were
    left; and a batch of at least [ABORT_THRESHOLD] tasks in which every
    chunk fails trips the breaker in that round, with no success
    recorded. *)
Theorem circuit_breaker (pool : Pool) (pending_tasks : list Task)
    (attempt : nat) (later : list nat) (st : RunState) :
  current_batch_of pending_tasks st <> [] ->
  let batch := current_batch_of pending_tasks st in
  let chunks := make_chunks (List.length batch) batch (attempt mod 2 =? 0) in
  let results := pool attempt chunks in
  let final := rounds pool pending_tasks (attempt :: later) st in
  (forall c r,
      step_counter c r =
      match fst r with [] => c + List.length (snd r) | _ :: _ => 0 end)
  /\
  (forall p r q,
      results = p ++ r :: q ->
      (forall k, k <= List.length p -> 0 < k ->
                 counter_after 0 (firstn k p) < ABORT_THRESHOLD) ->
      ABORT_THRESHOLD <= counter_after 0 (p ++ [r]) ->
      tripped final = true /\
      rounds_started final = S (rounds_started st) /\
      results_consumed final = results_consumed st + S (List.length p))
  /\
  (Permutation results (map all_failed chunks) ->
   ABORT_THRESHOLD <= List.length batch ->
   tripped final = true /\
   rounds_started final = S (rounds_started st) /\
   final_success_count final = final_success_count st /\
   finished_codes final = finished_codes st).
Proof.
  intros Hne batch chunks results final.
  split; [reflexivity|]. split.
  - intros p r q Hres Hlow Hhigh.
    destruct (@consume_trips p q r 0 (started_round st) Hlow Hhigh)
      as [st' [E [R S]]].
    subst final. rewrite (@rounds_cons pool pending_tasks attempt later st Hne).
    cbv zeta. fold batch. fold chunks. fold results. rewrite Hres, E.
    unfold trip. simpl. rewrite R, S. simpl. repeat split; lia.
  - intros Hperm Hsize.
    assert (Hall : Forall no_success results).
    { apply (no_success_perm (Permutation_sym Hperm)), all_failed_no_success. }
    assert (Hvol : failure_volume results = List.length batch).
    { rewrite (failure_volume_perm Hperm). now apply make_chunks_volume. }
    destruct (@consume_all_failed results 0 (started_round st) Hall)
      as [st' [E [A [B [C D]]]]].
    + rewrite Hvol. exact Hsize.
    + unfold ABORT_THRESHOLD. lia.
    + subst final. rewrite (@rounds_cons pool pending_tasks attempt later st Hne).
      cbv zeta. fold batch. fold chunks. fold results. rewrite E.
      unfold trip. simpl. rewrite A, B, C. simpl. repeat split; reflexivity.
Qed.

Lemma current_batch_initial (tasks : list Task) :
  current_batch_of tasks initial_state = tasks.
Proof.
  unfold current_batch_of. simpl.
  induction tasks as [|t l IH]; simpl; [reflexivity|].
  now rewrite IH.
Qed.

(** On a whole run: when every chunk of every round fails and there are
    at least [ABORT_THRESHOLD] tasks, the run stops in its first round. *)
Lemma failing_run_trips (pool : Pool) (tasks : list Task) :
  (forall attempt chunks, Permutation (pool attempt chunks) (map all_failed chunks)) ->
  ABORT_THRESHOLD <= List.length tasks ->
  let final := run_downloads pool tasks in
  tripped final = true /\ rounds_started final = 1 /\
  rounds_started final < MAX_ATTEMPTS /\ final_success_count final = 0.
Proof.
  intros Hpool Hsize final. subst final. unfold run_downloads.
  destruct tasks as [|t l] eqn:Et; [simpl in Hsize; unfold ABORT_THRESHOLD in Hsize; lia|].
  rewrite <- Et in *. clear Et.
  assert (Hne : current_batch_of tasks initial_state <> []).
  { rewrite current_batch_initial. intros ->. simpl in Hsize.
    unfold ABORT_THRESHOLD in Hsize. lia. }
  assert (Hseq : seq 1 MAX_ATTEMPTS = 1 :: seq 2 6) by reflexivity.
  rewrite Hseq. rewrite (@rounds_cons pool tasks 1 (seq 2 6) initial_state Hne). cbv zeta.
  rewrite current_batch_initial.
  set (chunks := make_chunks (List.length tasks) tasks (1 mod 2 =? 0)).
  destruct (@consume_all_failed (pool 1 chunks) 0 (started_round initial_state))
    as [st' [E [A [B [C D]]]]].
  - apply (no_success_perm (Permutation_sym (Hpool 1 chunks))), all_failed_no_success.
  - rewrite (failure_volume_perm (Hpool 1 chunks)).
    unfold chunks. now rewrite make_chunks_volume.
  - unfold ABORT_THRESHOLD. lia.
  - rewrite E. unfold trip. simpl. rewrite B, C. simpl.
    unfold MAX_ATTEMPTS. repeat split; lia.
Qed.

(** Ten tasks that fail in every round: the counter of a round stops at
    ten, the breaker never trips and all [MAX_ATTEMPTS] rounds are run. *)
Lemma small_failing_batch_runs_all_rounds :
  (forall attempt chunks,
      Permutation (failing_pool attempt chunks) (map all_failed chunks)) /\
  Samples.ten_tasks <> [] /\
  tripped (run_downloads failing_pool Samples.ten_tasks) = false /\
  rounds_started (run_downloads failing_pool Samples.ten_tasks) = MAX_ATTEMPTS /\
  final_success_count (run_downloads failing_pool Samples.ten_tasks) = 0.
Proof.
  split; [intros; apply Permutation_refl|].
  split; [discriminate|].
  repeat split; vm_compute; reflexivity.
Qed.

End Breaker.

(** ** Dates as text *)

Module DateFacts.

Import Dates.
Local Open Scope string_scope.
Local Open Scope Z_scope.

Ltac divmod := Z.div_mod_to_equations; lia.

Lemma days_in_month_bounds (y m : Z) : 28 <= days_in_month y m <= 31.
Proof.
  unfold days_in_month.
  destruct m as [|p|p]; try lia.
  repeat (destruct p as [p|p|]; try lia); destruct (is_leap y); lia.
Qed.

Lemma valid_spec (d : Date) :
  valid d = true <->
  1 <= year d <= 9999 /\ 1 <= month d <= 12 /\
  1 <= day d <= days_in_month (year d) (month d).
Proof.
  unfold valid. rewrite !andb_true_iff, !Z.leb_le. tauto.
Qed.

Lemma valid_printable (d : Date) : valid d = true -> printable d.
Proof.
  rewrite valid_spec. unfold printable.
  pose proof (days_in_month_bounds (year d) (month d)). lia.
Qed.

(** *** Digits *)

Lemma code_digit (n : Z) : code (digit n) = 48 + n mod 10.
Proof.
  unfold code, digit.
  assert (H : 0 <= n mod 10 < 10) by (apply Z.mod_pos_bound; lia).
  rewrite N_ascii_embedding by lia. lia.
Qed.

Lemma is_digit_digit (n : Z) : is_digit (digit n) = true.
Proof.
  unfold is_digit. rewrite code_digit.
  assert (H : 0 <= n mod 10 < 10) by (apply Z.mod_pos_bound; lia).
  apply andb_true_iff. rewrite !Z.leb_le. lia.
Qed.

Lemma digit_val_digit (n : Z) : digit_val (digit n) = n mod 10.
Proof. unfold digit_val. rewrite code_digit. lia. Qed.

Lemma compare_digit (a b : Z) :
  Ascii.compare (digit a) (digit b) = (a mod 10 ?= b mod 10).
Proof.
  unfold Ascii.compare.
  pose proof (code_digit a) as Ha. pose proof (code_digit b) as Hb.
  unfold code in Ha, Hb.
  rewrite <- N2Z.inj_compare, Ha, Hb. apply Z.add_compare_mono_l.
Qed.

(** *** Parsing what was formatted *)

Lemma read_year_fmt4 (y : Z) (rest : string) :
  0 <= y <= 9999 ->
  read_year (fmt4 y ++ rest) = Some (y, rest).
Proof.
  intros Hy. unfold fmt4. cbn [append read_year].
  rewrite !is_digit_digit, !digit_val_digit. cbn [andb].
  do 2 f_equal. divmod.
Qed.

Lemma read_upto2_fmt2_dash (n : Z) (rest : string) :
  0 <= n <= 99 ->
  read_upto2 (fmt2 n ++ String "-" rest) = Some (n, String "-" rest).
Proof.
  intros Hn. unfold fmt2. cbn [append read_upto2].
  rewrite !is_digit_digit, !digit_val_digit. do 2 f_equal. divmod.
Qed.

Lemma read_upto2_fmt2_end (n : Z) :
  0 <= n <= 99 ->
  read_upto2 (fmt2 n) = Some (n, "").
Proof.
  intros Hn. unfold fmt2. cbn [read_upto2].
  rewrite !is_digit_digit, !digit_val_digit. do 2 f_equal. divmod.
Qed.

Lemma strftime_shape (d : Date) :
  strftime d =
  fmt4 (year d) ++ String "-" (fmt2 (month d) ++ String "-" (fmt2 (day d))).
Proof. reflexivity. Qed.

Lemma expect_dash_dash (s : string) : expect_dash (String "-" s) = Some s.
Proof. reflexivity. Qed.

Lemma strptime_strftime (d : Date) :
  valid d = true -> strptime (strftime d) = Some d.
Proof.
  intros Hv. destruct (valid_printable _ Hv) as [Hy [Hm Hd]].
  rewrite strftime_shape. unfold strptime.
  rewrite read_year_fmt4 by assumption. rewrite expect_dash_dash.
  rewrite read_upto2_fmt2_dash by assumption. rewrite expect_dash_dash.
  rewrite read_upto2_fmt2_end by assumption.
  destruct d as [y m dd]. simpl in *. now rewrite Hv.
Qed.

(** *** The order of formatted dates is the order of the dates *)

Lemma compare_fmt4 (a b : Z) (s t : string) :
  0 <= a <= 9999 -> 0 <= b <= 9999 ->
  String.compare (fmt4 a ++ s) (fmt4 b ++ t) =
  match a ?= b with Eq => String.compare s t | ne => ne end.
Proof.
  intros Ha Hb. unfold fmt4. cbn [append String.compare].
  rewrite !compare_digit.
  destruct (Z.compare_spec ((a / 1000) mod 10) ((b / 1000) mod 10)) as [E1|L1|G1].
  - destruct (Z.compare_spec ((a / 100) mod 10) ((b / 100) mod 10)) as [E2|L2|G2].
    + destruct (Z.compare_spec ((a / 10) mod 10) ((b / 10) mod 10)) as [E3|L3|G3].
      * destruct (Z.compare_spec (a mod 10) (b mod 10)) as [E4|L4|G4].
        -- assert (E : a = b) by divmod. subst b. now rewrite Z.compare_refl.
        -- assert (E : a < b) by divmod. apply Z.compare_lt_iff in E. now rewrite E.
        -- assert (E : a > b) by divmod. apply Z.compare_gt_iff in E.
           apply Z.compare_gt_iff in E. now rewrite E.
      * assert (E : a < b) by divmod. apply Z.compare_lt_iff in E. now rewrite E.
      * assert (E : b < a) by divmod. apply Z.compare_gt_iff in E. now rewrite E.
    + assert (E : a < b) by divmod. apply Z.compare_lt_iff in E. now rewrite E.
    + assert (E : b < a) by divmod. apply Z.compare_gt_iff in E. now rewrite E.
  - assert (E : a < b) by divmod. apply Z.compare_lt_iff in E. now rewrite E.
  - assert (E : b < a) by divmod. apply Z.compare_gt_iff in E. now rewrite E.
Qed.

Lemma compare_fmt2 (a b : Z) (s t : string) :
  0 <= a <= 99 -> 0 <= b <= 99 ->
  String.compare (fmt2 a ++ s) (fmt2 b ++ t) =
  match a ?= b with Eq => String.compare s t | ne => ne end.
Proof.
  intros Ha Hb. unfold fmt2. cbn [append String.compare].
  rewrite !compare_digit.
  destruct (Z.compare_spec ((a / 10) mod 10) ((b / 10) mod 10)) as [E3|L3|G3].
  - destruct (Z.compare_spec (a mod 10) (b mod 10)) as [E4|L4|G4].
    + assert (E : a = b) by divmod. subst b. now rewrite Z.compare_refl.
    + assert (E : a < b) by divmod. apply Z.compare_lt_iff in E. now rewrite E.
    + assert (E : b < a) by divmod. apply Z.compare_gt_iff in E. now rewrite E.
  - assert (E : a < b) by divmod. apply Z.compare_lt_iff in E. now rewrite E.
  - assert (E : b < a) by divmod. apply Z.compare_gt_iff in E. now rewrite E.
Qed.

Lemma compare_dash (s t : string) :
  String.compare (String "-" s) (String "-" t) = String.compare s t.
Proof. reflexivity. Qed.

Lemma compare_strftime (a b : Date) :
  printable a -> printable b ->
  String.compare (strftime a) (strftime b) = Dates.compare a b.
Proof.
  intros [Ya [Ma Da]] [Yb [Mb Db]]. rewrite !strftime_shape.
  rewrite compare_fmt4 by assumption. unfold Dates.compare.
  destruct (year a ?= year b); try reflexivity.
  rewrite compare_dash, compare_fmt2 by assumption.
  destruct (month a ?= month b); try reflexivity.
  rewrite compare_dash.
  change (fmt2 (day a)) with (fmt2 (day a) ++ "").
  change (fmt2 (day b)) with (fmt2 (day b) ++ "").
  rewrite compare_fmt2 by assumption. cbn [String.compare].
  now destruct (day a ?= day b).
Qed.

End DateFacts.

(** ** The planner, [check_status_worker]: C9 *)

Module Planner.

Import Config Dates DateFacts Downloader.
Local Open Scope string_scope.
Local Open Scope Z_scope.

Lemma compare_spec (a b : Date) :
  match Dates.compare a b with
  | Eq => a = b
  | Lt => year a < year b \/
          (year a = year b /\ (month a < month b \/
                               (month a = month b /\ day a < day b)))
  | Gt => year b < year a \/
          (year a = year b /\ (month b < month a \/
                               (month a = month b /\ day b < day a)))
  end.
Proof.
  unfold Dates.compare. destruct a as [ya ma da], b as [yb mb db]. simpl.
  destruct (Z.compare_spec ya yb); try lia.
  destruct (Z.compare_spec ma mb); try lia.
  destruct (Z.compare_spec da db); try lia.
  congruence.
Qed.

(** The day after a date before [b] is not after [b]. *)
Lemma next_day_le (a b : Date) :
  valid a = true -> valid b = true ->
  Dates.compare a b = Lt ->
  Dates.compare (next_day a) b <> Gt /\ printable (next_day a).
Proof.
  intros Va Vb Hlt.
  apply valid_spec in Va. apply valid_spec in Vb.
  pose proof (compare_spec a b) as Hab. rewrite Hlt in Hab.
  pose proof (days_in_month_bounds (year a) (month a)) as Ba.
  unfold next_day, printable.
  destruct (Z.ltb_spec (day a) (days_in_month (year a) (month a))) as [L1|L1].
  - split.
    + intros Hgt. pose proof (compare_spec (mkDate (year a) (month a) (day a + 1)) b) as H.
      rewrite Hgt in H. simpl in H. lia.
    + simpl. lia.
  - destruct (Z.ltb_spec (month a) 12) as [L2|L2].
    + split.
      * intros Hgt.
        pose proof (compare_spec (mkDate (year a) (month a + 1) 1) b) as H.
        rewrite Hgt in H. simpl in H.
        destruct Hab as [Hy|[Hy [Hm|[Hm Hd]]]]; try lia.
        rewrite Hy, Hm in *. lia.
      * simpl. lia.
    + split.
      * intros Hgt.
        pose proof (compare_spec (mkDate (year a + 1) 1 1) b) as H.
        rewrite Hgt in H. simpl in H.
        destruct Hab as [Hy|[Hy [Hm|[Hm Hd]]]]; try lia.
        rewrite Hy, Hm in *. lia.
      * simpl. destruct Hab as [Hy|[Hy [Hm|[Hm Hd]]]]; try lia.
        rewrite Hy, Hm in *. lia.
Qed.

Lemma prev_day_printable (d : Date) : valid d = true -> printable (prev_day d).
Proof.
  intros V. apply valid_spec in V.
  pose proof (days_in_month_bounds (year d) (month d)) as B.
  pose proof (days_in_month_bounds (year d) (month d - 1)) as B'.
  unfold prev_day, printable.
  destruct (Z.ltb_spec 1 (day d)); [simpl; lia|].
  destruct (Z.ltb_spec 1 (month d)); simpl; lia.
Qed.

Lemma leb_strftime (a b : Date) :
  printable a -> printable b ->
  (strftime a <=? strftime b)%string = Dates.leb a b.
Proof.
  intros Pa Pb. unfold String.leb, Dates.leb. now rewrite compare_strftime.
Qed.

Lemma ltb_strftime (a b : Date) :
  printable a -> printable b ->
  (strftime a <? strftime b)%string = Dates.ltb a b.
Proof.
  intros Pa Pb. unfold String.ltb, Dates.ltb. now rewrite compare_strftime.
Qed.

Lemma eqb_strftime (a b : Date) :
  printable a -> printable b ->
  (strftime a =? strftime b)%string = Dates.eqb a b.
Proof.
  intros Pa Pb. unfold Dates.eqb.
  rewrite <- compare_strftime by assumption.
  destruct (String.eqb_spec (strftime a) (strftime b)) as [E|N].
  - now rewrite E, StringOrder.compare_refl.
  - destruct (String.compare (strftime a) (strftime b)) eqn:C; try reflexivity.
    apply String.compare_eq_iff in C. contradiction.
Qed.

Lemma is_empty_strftime (d : Date) : is_empty (strftime d) = false.
Proof. reflexivity. Qed.

(** C9.  The planner decides as the specification says: no file, or a
    last date that cannot be read, gives a full fetch from
    [DEFAULT_START_DATE]; a last stored date on or after today gives no
    fetch; a last stored date of yesterday before [DATA_READY_HOUR] gives
    no fetch; every other stored date gives an incremental fetch from the
    day after it. *)
Theorem planner_decision (d : Disk) (now : Clock) (item : Item) (l : LastDate) :
  valid (today now) = true ->
  observed d (file_path item) l ->
  check_status_worker d now item = Returned (planner_spec now item l).
Proof.
  intros Vt Hobs. unfold check_status_worker. cbv zeta.
  destruct l as [| |last]; simpl in Hobs.
  - now rewrite Hobs.
  - destruct Hobs as [Hex [Hl|Hl]];
      destruct (d (file_path item)); try congruence; now rewrite Hl.
  - destruct Hobs as [Hex [Vl Hl]].
    destruct (d (file_path item)); try congruence. rewrite Hl.
    rewrite is_empty_strftime.
    pose proof (valid_printable _ Vt) as Pt.
    pose proof (valid_printable _ Vl) as Pl.
    rewrite (leb_strftime Pt Pl). unfold planner_spec.
    destruct (Dates.leb (today now) last) eqn:Hle; [reflexivity|].
    rewrite (strptime_strftime _ Vl).
    rewrite (eqb_strftime Pl (prev_day_printable _ Vt)).
    destruct (Dates.eqb last (prev_day (today now)) && (hour now <? DATA_READY_HOUR)%nat);
      [reflexivity|].
    assert (Hlt : Dates.compare last (today now) = Lt).
    { unfold Dates.leb in Hle.
      pose proof (compare_spec (today now) last) as H1.
      pose proof (compare_spec last (today now)) as H2.
      destruct (Dates.compare (today now) last); try discriminate.
      destruct (Dates.compare last (today now)); try reflexivity.
      - subst last. lia.
      - lia. }
    destruct (@next_day_le last (today now) Vl Vt Hlt) as [Hng Pn].
    rewrite (ltb_strftime Pt Pn). unfold Dates.ltb.
    pose proof (compare_spec (today now) (next_day last)) as H1.
    pose proof (compare_spec (next_day last) (today now)) as H2.
    destruct (Dates.compare (today now) (next_day last)); try reflexivity.
    destruct (Dates.compare (next_day last) (today now)); try congruence.
    + rewrite H2 in H1. lia.
    + lia.
Qed.

End Planner.

Module SyncExamples.

Import Config Downloader Samples.
Local Open Scope string_scope.
Local Open Scope list_scope.

(** Sixty tasks that all fail: the third chunk brings the counter to
    sixty and the run stops there, in its first round. *)
Lemma circuit_breaker_witness :
  let final := rounds failing_pool sixty_tasks (1 :: seq 2 6) initial_state in
  (tripped final = true /\ rounds_started final = 1 /\
   results_consumed final = 3) /\
  (tripped final = true /\ rounds_started final = 1 /\
   final_success_count final = 0 /\ finished_codes final = []).
Proof.
  assert (Hne : current_batch_of sixty_tasks initial_state <> [])
    by (vm_compute; discriminate).
  pose proof (@Breaker.circuit_breaker failing_pool sixty_tasks 1 (seq 2 6)
                initial_state Hne) as H.
  cbv zeta in H. destruct H as [_ [Htrip Hfail]].
  split.
  - set (results :=
           failing_pool 1
             (make_chunks (List.length (current_batch_of sixty_tasks initial_state))
                (current_batch_of sixty_tasks initial_state) (1 mod 2 =? 0)%nat)) in *.
    refine (Htrip (firstn 2 results) (nth 2 results ([], [])) [] _ _ _).
    + vm_compute. reflexivity.
    + intros k Hk Hpos. vm_compute in Hk.
      destruct k as [|[|[|k]]]; [lia| | |lia]; vm_compute; lia.
    + vm_compute. lia.
  - apply Hfail.
    + apply Permutation_refl.
    + vm_compute. lia.
Defined.

(** The sample file ends on 2024-01-03.  On the evening of 2024-01-04 the
    planner asks for an incremental fetch from 2024-01-04. *)
Lemma planner_decision_witness :
  check_status_worker disk evening item =
  Returned (item, true, Some "2024-01-04", Some ModeA).
Proof.
  refine (@Planner.planner_decision disk evening item
            (Stored (Dates.mkDate 2024 1 3)) _ _).
  - reflexivity.
  - split; [discriminate|]. split; reflexivity.
Defined.

(** In the morning of the same day it asks for nothing. *)
Example planner_morning :
  check_status_worker disk morning item = Returned (item, false, None, None).
Proof. reflexivity. Qed.

End SyncExamples.

(** ** The indicators look at no later row: C3 *)

Module LookAhead.

Import Arith PandasTA Analyzer.
Local Open Scope list_scope.

Section Causal.
Context {F : Type} `{Float F}.

(** *** Cutting a column commutes with every pass of the library *)

Lemma firstn_rolling (n : nat) (agg : list F -> F) (xs : list F) :
  forall (w : list F) (k : nat),
    firstn k (rolling n agg w xs) = rolling n agg w (firstn k xs).
Proof.
  induction xs as [|x xs IH]; intros w k.
  - now rewrite !firstn_nil.
  - destruct k as [|k]; [reflexivity|].
    cbn [rolling firstn]. now rewrite IH.
Qed.

Lemma firstn_ema_scan (n : nat) (xs : Series F) :
  forall (seen : nat) (acc : F) (k : nat),
    firstn k (ema_scan n seen acc xs) = ema_scan n seen acc (firstn k xs).
Proof.
  induction xs as [|x xs IH]; intros seen acc k.
  - now rewrite !firstn_nil.
  - destruct k as [|k]; [reflexivity|].
    destruct x as [x|]; cbn [ema_scan firstn].
    + destruct (S seen <? n); cbn [firstn]; now rewrite IH.
    + now rewrite IH.
Qed.

Lemma firstn_rma_scan (n : nat) (xs : Series F) :
  forall (seen : nat) (num den : F) (k : nat),
    firstn k (rma_scan n seen num den xs) = rma_scan n seen num den (firstn k xs).
Proof.
  induction xs as [|x xs IH]; intros seen num den k.
  - now rewrite !firstn_nil.
  - destruct k as [|k]; [reflexivity|].
    destruct x as [x|]; cbn [rma_scan firstn]; now rewrite IH.
Qed.

Lemma firstn_diff_from (xs : list F) :
  forall (prev : F) (k : nat),
    firstn k (diff_from prev xs) = diff_from prev (firstn k xs).
Proof.
  induction xs as [|x xs IH]; intros prev k.
  - now rewrite !firstn_nil.
  - destruct k as [|k]; [reflexivity|].
    cbn [diff_from firstn]. now rewrite IH.
Qed.

Lemma firstn_diff (xs : list F) (k : nat) :
  firstn k (diff xs) = diff (firstn k xs).
Proof.
  destruct xs as [|x xs]; [now rewrite !firstn_nil|].
  destruct k as [|k]; [reflexivity|].
  cbn [diff firstn]. now rewrite firstn_diff_from.
Qed.

Lemma firstn_zip_with {A B C : Type} (f : A -> B -> C)
    (l1 : list A) (l2 : list B) (k : nat) :
  firstn k (zip_with f l1 l2) = zip_with f (firstn k l1) (firstn k l2).
Proof.
  unfold zip_with. now rewrite firstn_map, combine_firstn.
Qed.

Lemma firstn_ema (xs : Series F) (n k : nat) :
  firstn k (ema xs n) = ema (firstn k xs) n.
Proof. apply firstn_ema_scan. Qed.

Lemma firstn_rma (xs : Series F) (n k : nat) :
  firstn k (rma xs n) = rma (firstn k xs) n.
Proof. apply firstn_rma_scan. Qed.

(** The value at a row is read from the column cut after that row. *)
Lemma at_firstn (s : Series F) (i : nat) : at_ s i = at_ (firstn (S i) s) i.
Proof.
  unfold at_. rewrite nth_firstn.
  destruct (Nat.ltb_spec i (S i)); [reflexivity | lia].
Qed.

Lemma at_agree (s1 s2 : Series F) (i : nat) :
  firstn (S i) s1 = firstn (S i) s2 -> at_ s1 i = at_ s2 i.
Proof. intros E. now rewrite (at_firstn s1), (at_firstn s2), E. Qed.

(** *** Rolling windows *)

Lemma length_push (n : nat) (w : list F) (x : F) :
  List.length (push n w x) = Nat.min (S (List.length w)) n.
Proof.
  unfold push. rewrite length_skipn, length_app. cbn [List.length]. lia.
Qed.

(** A window that cannot be full yet gives a missing value. *)
Lemma rolling_warm_up (n : nat) (agg : list F -> F) (xs : list F) :
  forall (w : list F) (i : nat),
    List.length w + S i < n -> at_ (rolling n agg w xs) i = None.
Proof.
  unfold at_.
  induction xs as [|x xs IH]; intros w i Hlt.
  - now destruct i.
  - cbn [rolling]. destruct i as [|i]; cbn [nth].
    + rewrite length_push.
      destruct (Nat.eqb_spec (Nat.min (S (List.length w)) n) n); [lia | reflexivity].
    + apply IH. rewrite length_push. lia.
Qed.

Lemma length_rolling (n : nat) (agg : list F -> F) (xs : list F) :
  forall w, List.length (rolling n agg w xs) = List.length xs.
Proof.
  induction xs as [|x xs IH]; intros w; cbn [rolling List.length]; [reflexivity|].
  now rewrite IH.
Qed.

(** The column an [sma] is stored in, read by rows: the rolling mean,
    whether or not the whole column was long enough for the library. *)
Lemma column_sma (xs : list F) (n i : nat) :
  at_ (column (List.length xs) (sma xs n)) i = at_ (rolling n mean [] xs) i.
Proof.
  unfold sma, verify_series, column.
  destruct (Nat.ltb_spec (List.length xs) n) as [Hshort|Hlong]; [|reflexivity].
  destruct (Nat.lt_ge_cases i (List.length xs)) as [Hi|Hi].
  - rewrite rolling_warm_up by (simpl; lia).
    unfold at_. apply nth_repeat.
  - unfold at_. rewrite !nth_overflow; try reflexivity.
    + now rewrite length_rolling.
    + now rewrite repeat_length.
Qed.

Lemma sma_agree (xs1 xs2 : list F) (n i : nat) :
  firstn (S i) xs1 = firstn (S i) xs2 ->
  at_ (column (List.length xs1) (sma xs1 n)) i =
  at_ (column (List.length xs2) (sma xs2 n)) i.
Proof.
  intros E. rewrite !column_sma. apply at_agree.
  now rewrite !firstn_rolling, E.
Qed.

Lemma macd_defined (closes : list F) :
  26 <= List.length closes ->
  macd closes 12 26 9 =
  let fastma := ema (map Some closes) 12 in
  let slowma := ema (map Some closes) 26 in
  let line := zip_with (lift2 fsub) fastma slowma in
  let signalma := ema line 9 in
  Some (line, zip_with (lift2 fsub) line signalma, signalma).
Proof.
  intros Hlen. unfold macd, verify_series.
  change (Nat.max 12 (Nat.max 26 9)) with 26.
  destruct (Nat.ltb_spec (List.length closes) 26); [lia | reflexivity].
Qed.

Lemma rsi_defined (closes : list F) :
  14 <= List.length closes ->
  rsi closes 14 =
  Some (zip_with rsi_cell (rma (map clip_below (diff closes)) 14)
                          (rma (map clip_above (diff closes)) 14)).
Proof.
  intros Hlen. unfold rsi, verify_series.
  destruct (Nat.ltb_spec (List.length closes) 14); [lia | reflexivity].
Qed.

(** The three columns of [macd] and the column of [rsi], cut after a row,
    are those of the closes cut after that row. *)
Lemma firstn_macd_line (closes : list F) (k : nat) :
  firstn k (zip_with (lift2 fsub) (ema (map Some closes) 12)
                                  (ema (map Some closes) 26)) =
  zip_with (lift2 fsub) (ema (map Some (firstn k closes)) 12)
                        (ema (map Some (firstn k closes)) 26).
Proof. now rewrite firstn_zip_with, !firstn_ema, !firstn_map. Qed.

Lemma firstn_rsi_column (closes : list F) (k : nat) :
  firstn k (zip_with rsi_cell (rma (map clip_below (diff closes)) 14)
                              (rma (map clip_above (diff closes)) 14)) =
  zip_with rsi_cell (rma (map clip_below (diff (firstn k closes))) 14)
                    (rma (map clip_above (diff (firstn k closes))) 14).
Proof. now rewrite firstn_zip_with, !firstn_rma, !firstn_map, !firstn_diff. Qed.

(** C3.  Two series that agree on the rows up to [i] (from row 25 on, where
    the MACD is defined) give the same moving averages 5/20/60/250, the
    same two MACD columns [DIF] and [DEA] and the same RSI(14) at row [i],
    whatever rows follow in either; in particular a series and the same
    series cut after row [i]. *)
Theorem no_look_ahead (s1 s2 : list (Bar F)) (i : nat) :
  25 <= i ->
  i < List.length s1 ->
  i < List.length s2 ->
  firstn (S i) s1 = firstn (S i) s2 ->
  exists f1 f2,
    indicators (TA := pandas_ta) s1 = Some f1 /\
    indicators (TA := pandas_ta) s2 = Some f2 /\
    at_ (MA5 f1) i = at_ (MA5 f2) i /\
    at_ (MA20 f1) i = at_ (MA20 f2) i /\
    at_ (MA60 f1) i = at_ (MA60 f2) i /\
    at_ (MA250 f1) i = at_ (MA250 f2) i /\
    at_ (DIF f1) i = at_ (DIF f2) i /\
    at_ (DEA f1) i = at_ (DEA f2) i /\
    at_ (RSI f1) i = at_ (RSI f2) i.
Proof.
  intros Hi L1 L2 E.
  assert (Ec : firstn (S i) (map (@close F) s1) = firstn (S i) (map (@close F) s2))
    by (now rewrite !firstn_map, E).
  assert (Lc1 : List.length (map (@close F) s1) = List.length s1) by apply length_map.
  assert (Lc2 : List.length (map (@close F) s2) = List.length s2) by apply length_map.
  unfold indicators. cbn [ta_macd ta_sma ta_rsi ta_kdj pandas_ta].
  rewrite !macd_defined by lia. cbv zeta.
  do 2 eexists. split; [reflexivity|]. split; [reflexivity|].
  cbn [MA5 MA20 MA60 MA250 DIF DEA RSI].
  rewrite <- Lc1, <- Lc2.
  repeat split; try (now apply sma_agree).
  - apply at_agree. now rewrite !firstn_macd_line, Ec.
  - apply at_agree.
    rewrite !firstn_zip_with, !firstn_ema, !firstn_zip_with, !firstn_ema.
    now rewrite !firstn_map, E.
  - rewrite !rsi_defined by lia. cbn [column].
    apply at_agree. now rewrite !firstn_rsi_column, Ec.
Qed.

End Causal.

End LookAhead.

(** ** The analyser: C4, C6 and C8, and the filter as the code computes it *)

Module AnalyzerFacts.

Import Arith PandasTA Analyzer.
Local Open Scope string_scope.
Local Open Scope list_scope.

Section Facts.
Context {F : Type} {FF : Float F} {TA : TALib F}.

(** *** The evaluation index *)

Lemma last_index_upto_range (target : Dates.Date) (df : list (Bar F)) :
  forall (i0 : nat) (found : option nat) (idx : nat),
    last_index_upto target df i0 found = Some idx ->
    found = Some idx \/ (i0 <= idx < i0 + List.length df).
Proof.
  induction df as [|b rest IH]; intros i0 found idx; cbn [last_index_upto].
  - auto.
  - intros Hl. apply IH in Hl. cbn [List.length].
    destruct Hl as [Hl|Hl]; [|right; lia].
    destruct (Dates.leb (date b) target); [|now left].
    inversion Hl; subst. right. lia.
Qed.

Lemma last_index_upto_app (target : Dates.Date) (l1 l2 : list (Bar F)) :
  forall (i0 : nat) (found : option nat),
    last_index_upto target (l1 ++ l2) i0 found =
    last_index_upto target l2 (i0 + List.length l1)
                    (last_index_upto target l1 i0 found).
Proof.
  induction l1 as [|b l1 IH]; intros i0 found; cbn [app last_index_upto List.length].
  - now rewrite Nat.add_0_r.
  - rewrite IH. f_equal. lia.
Qed.

Lemma eval_index_range (mode : string) (bt_date : option Dates.Date)
    (df : list (Bar F)) (idx : nat) :
  df <> [] ->
  eval_index mode bt_date df = Some idx -> idx < List.length df.
Proof.
  intros Hne. unfold eval_index.
  assert (Hlast : List.length df - 1 < List.length df).
  { destruct df; [congruence | simpl; lia]. }
  destruct (mode =? "backtest"); [|intros E; inversion E; lia].
  destruct bt_date as [target|]; [|intros E; inversion E; lia].
  destruct (last_index_upto target df 0 None) as [i|] eqn:El; [|discriminate].
  destruct (i <? 60)%nat; [discriminate|].
  intros E; inversion E; subst.
  apply last_index_upto_range in El as [El|El]; [discriminate | simpl in El; lia].
Qed.

(** A backtest index is at least 60, and the series cut after it gives
    the same index. *)
Lemma eval_index_backtest (target : Dates.Date) (df : list (Bar F)) (idx : nat) :
  eval_index "backtest" (Some target) df = Some idx ->
  60 <= idx < List.length df /\
  eval_index "backtest" (Some target) (firstn (S idx) df) = Some idx.
Proof.
  unfold eval_index. rewrite String.eqb_refl.
  destruct (last_index_upto target df 0 None) as [i|] eqn:El; [|discriminate].
  destruct (Nat.ltb_spec i 60) as [Hlt|Hge]; [discriminate|].
  intros E; inversion E; subst i.
  pose proof (last_index_upto_range _ _ _ _ El) as [R|R]; [discriminate|].
  simpl in R. split; [lia|].
  rewrite <- (firstn_skipn (S idx) df) in El.
  rewrite last_index_upto_app in El.
  assert (Hlen : List.length (firstn (S idx) df) = S idx)
    by (rewrite length_firstn; lia).
  rewrite Hlen in El. cbn [Nat.add] in El.
  apply last_index_upto_range in El as [El|El]; [|lia].
  rewrite El.
  destruct (Nat.ltb_spec idx 60); [lia | reflexivity].
Qed.

Lemma indicators_bars (df : list (Bar F)) (fr : Frame F) :
  indicators df = Some fr -> bars fr = df.
Proof.
  unfold indicators.
  destruct (ta_macd (map (@close F) df) 12 26 9) as [[[c0 c1] c2]|]; [|discriminate].
  intros E; inversion E; reflexivity.
Qed.

(** What [evaluation_point] gives: the frame of the rows read, at least 60
    of them, and an index into them. *)
Lemma evaluation_point_spec (args : Args F) (fr : Frame F) (idx : nat)
    (is_vip : bool) :
  evaluation_point args = Some (fr, idx, is_vip) ->
  frame args = Some (bars fr) /\
  60 <= List.length (bars fr) /\
  eval_index (mode args) (bt_date args) (bars fr) = Some idx /\
  is_vip = existsb (fun c => c =? code args) (watchlist_set args) /\
  exists curr, nth_error (bars fr) idx = Some curr.
Proof.
  unfold evaluation_point.
  destruct (frame args) as [df|]; [|discriminate].
  destruct (Nat.ltb_spec (List.length df) 60) as [Hs|Hl]; [discriminate|].
  destruct ((scope args =? "watchlist_only")
            && negb (existsb (fun c => c =? code args) (watchlist_set args)));
    [discriminate|].
  destruct (indicators df) as [fr'|] eqn:Ei; [|discriminate].
  destruct (eval_index (mode args) (bt_date args) df) as [i|] eqn:Ee; [|discriminate].
  intros E; inversion E; subst.
  rewrite (indicators_bars _ Ei).
  repeat split; try assumption.
  assert (Hne : df <> []) by (intros ->; simpl in Hl; lia).
  pose proof (eval_index_range _ _ Hne Ee) as Hr.
  destruct (nth_error df idx) as [c|] eqn:En; [eauto|].
  apply nth_error_None in En. lia.
Qed.

(** *** The labels *)

Lemma contains_macd_state (fr : Frame F) (idx : nat) :
  contains "金叉" (macd_state fr idx) = macd_golden fr idx.
Proof. unfold macd_state. now destruct (macd_golden fr idx). Qed.

Lemma contains_kdj_state (fr : Frame F) (idx : nat) :
  contains "金叉" (kdj_state fr idx) = kdj_golden fr idx.
Proof. unfold kdj_state. now destruct (kdj_golden fr idx). Qed.

Lemma strategy_pass_spec (fr : Frame F) (idx : nat) :
  strategy_pass fr idx =
  cmp2 fgt (bar_at fr idx (@close F)) (at_ (MA20 fr) idx)
  || (macd_golden fr idx || kdj_golden fr idx).
Proof.
  unfold strategy_pass, cond1, cond2.
  now rewrite contains_macd_state, contains_kdj_state.
Qed.

(** C4.  A series of fewer than 60 rows, and a backtest date that lands at
    a row index below 60, give no result. *)
Theorem insufficient_history (args : Args F) (df : list (Bar F)) :
  frame args = Some df ->
  (List.length df < 60 \/
   (mode args = "backtest" /\
    exists target idx,
      bt_date args = Some target /\
      last_index_upto target df 0 None = Some idx /\ idx < 60)) ->
  _process_one_stock args = None.
Proof.
  intros Hf Hshort. unfold _process_one_stock, evaluation_point. rewrite Hf.
  destruct (Nat.ltb_spec (List.length df) 60) as [Hs|Hl]; [reflexivity|].
  destruct Hshort as [Hs|[Hm [target [idx [Hb [Hi Hlt]]]]]]; [lia|].
  destruct ((scope args =? "watchlist_only")
            && negb (existsb (fun c => c =? code args) (watchlist_set args)));
    [reflexivity|].
  destruct (indicators df); [|reflexivity].
  unfold eval_index. rewrite Hm, Hb, String.eqb_refl, Hi.
  destruct (Nat.ltb_spec idx 60); [reflexivity | lia].
Qed.

(** The filter as the code computes it.  [matched] is built from the
    code's own tests: [macd_golden] compares [DIF] with the column the code
    stores as [DEA], which is column 1 of [ta.macd].  A symbol of the
    watchlist gets a result whatever [matched] is, and a symbol outside it
    gets none exactly when [matched] is false. *)
Lemma strategy_inclusion (args : Args F) (fr : Frame F) (idx : nat)
    (is_vip : bool) :
  evaluation_point args = Some (fr, idx, is_vip) ->
  let matched :=
    cmp2 fgt (bar_at fr idx (@close F)) (at_ (MA20 fr) idx)
    || (macd_golden fr idx || kdj_golden fr idx) in
  strategy_pass fr idx = matched /\
  (is_vip = true ->
   exists res, _process_one_stock args = Some res /\ is_watchlist res = true) /\
  (is_vip = false ->
   (_process_one_stock args = None <-> matched = false) /\
   (forall res, _process_one_stock args = Some res -> is_watchlist res = false)).
Proof.
  intros Hep matched.
  destruct (evaluation_point_spec _ Hep) as [_ [_ [_ [_ [curr Hc]]]]].
  pose proof (strategy_pass_spec fr idx) as Hsp. fold matched in Hsp.
  split; [exact Hsp|].
  unfold _process_one_stock. rewrite Hep, Hc. unfold analyse. rewrite Hsp.
  split.
  - intros ->. rewrite andb_false_r. eexists. split; reflexivity.
  - intros ->. destruct matched; cbn [negb andb].
    + split; [split; discriminate|].
      intros res E; inversion E; reflexivity.
    + split; [split; reflexivity|]. discriminate.
Qed.

(** *** The reasons *)

(** The reasons are the true ones among three, in a fixed order. *)
Lemma match_reason_spec (fr : Frame F) (idx : nat) :
  match_reason fr idx =
  map fst
    (filter snd
       [ ("站上月线", cmp2 fgt (bar_at fr idx (@close F)) (at_ (MA20 fr) idx));
         ("MACD金叉", macd_golden fr idx);
         ("放量", fgt (vol_ratio fr idx) (of_Q (3 # 2))) ]).
Proof.
  unfold match_reason, cond1. rewrite contains_macd_state.
  destruct (cmp2 fgt (bar_at fr idx (@close F)) (at_ (MA20 fr) idx)),
    (macd_golden fr idx), (fgt (vol_ratio fr idx) (of_Q (3 # 2))); reflexivity.
Qed.

Lemma match_str_fallback (fr : Frame F) (idx : nat) :
  match_str fr idx = "自选观察" <-> match_reason fr idx = [].
Proof.
  unfold match_str. rewrite match_reason_spec.
  destruct (cmp2 fgt (bar_at fr idx (@close F)) (at_ (MA20 fr) idx)),
    (macd_golden fr idx), (fgt (vol_ratio fr idx) (of_Q (3 # 2)));
    cbn; split; intros E; try reflexivity; discriminate.
Qed.

Lemma process_match (args : Args F) (fr : Frame F) (idx : nat) (is_vip : bool)
    (res : Result F) :
  evaluation_point args = Some (fr, idx, is_vip) ->
  _process_one_stock args = Some res ->
  res_match res = match_str fr idx /\ is_watchlist res = is_vip /\
  (strategy_pass fr idx = true \/ is_vip = true).
Proof.
  intros Hep. unfold _process_one_stock. rewrite Hep.
  destruct (nth_error (bars fr) idx) as [curr|]; [|discriminate].
  unfold analyse.
  destruct (strategy_pass fr idx), is_vip; cbn [negb andb];
    try discriminate; intros E; inversion E; cbn; auto.
Qed.

(** The fallback reason reaches a symbol outside the watchlist exactly
    through a KDJ golden cross, which passes the filter and has no reason
    of its own. *)
Lemma fallback_outside_watchlist (args : Args F) (fr : Frame F) (idx : nat)
    (is_vip : bool) (res : Result F) :
  evaluation_point args = Some (fr, idx, is_vip) ->
  _process_one_stock args = Some res ->
  is_watchlist res = false ->
  res_match res = "自选观察" ->
  kdj_golden fr idx = true /\ macd_golden fr idx = false /\
  cmp2 fgt (bar_at fr idx (@close F)) (at_ (MA20 fr) idx) = false.
Proof.
  intros Hep Hres Hw Hm.
  destruct (process_match _ Hep Hres) as [Em [Ew Hpass]].
  rewrite Em in Hm. apply match_str_fallback in Hm.
  rewrite match_reason_spec in Hm.
  rewrite strategy_pass_spec in Hpass.
  destruct Hpass as [Hpass|Hv]; [|congruence].
  destruct (cmp2 fgt (bar_at fr idx (@close F)) (at_ (MA20 fr) idx)),
    (macd_golden fr idx), (fgt (vol_ratio fr idx) (of_Q (3 # 2)));
    cbn in Hm; try discriminate; cbn in Hpass; auto.
Qed.

(** *** Forward returns *)

Lemma forward_offset (df : list (Bar F)) (idx k : nat) :
  1 <= k ->
  nth_error (skipn (idx + 1) df) (k - 1) = nth_error df (idx + k).
Proof.
  intros Hk. rewrite nth_error_skipn. f_equal. lia.
Qed.

(** C8, as the code has it.  In backtest mode the forward outcomes are
    taken from the rows after the evaluation index [idx] only, and they are
    percentages rounded to two places: the return at offset [k] (5, 10, 30)
    is [round((close(idx+k) - close(idx)) / close(idx) * 100, 2)] when at
    least [k] rows follow [idx] and 0.0 otherwise, and the maximum forward
    gain is the same expression on the highest high of the next rows, at
    most 30 of them (0.0 when no row follows).  With exactly ten rows after
    [idx] the returns at 5 and 10 are computed and the return at 30 is
    0.0. *)
Theorem forward_outcomes (args : Args F) (fr : Frame F) (idx : nat)
    (is_vip : bool) (res : Result F) :
  evaluation_point args = Some (fr, idx, is_vip) ->
  _process_one_stock args = Some res ->
  mode args = "backtest" ->
  exists curr fw,
    nth_error (bars fr) idx = Some curr /\
    buy_price res = close curr /\
    forward res = Some fw /\
    let pct x :=
      fround 2 (fmul (fdiv (fsub x (close curr)) (close curr)) (of_Z 100)) in
    let n := List.length (bars fr) - S idx in
    let ret k :=
      if (k <=? n)%nat
      then match nth_error (bars fr) (idx + k) with
           | Some b => pct (close b)
           | None => of_Q 0
           end
      else of_Q 0 in
    T5 fw = ret 5 /\ T10 fw = ret 10 /\ T30 fw = ret 30 /\
    max_gain fw =
      match max_of (map (@high F) (firstn 30 (skipn (S idx) (bars fr)))) with
      | Some m => pct m
      | None => of_Q 0
      end /\
    (forall k, 1 <= k <= n -> exists b, nth_error (bars fr) (idx + k) = Some b) /\
    (n = 10 ->
     T30 fw = of_Q 0 /\
     exists b5 b10,
       nth_error (bars fr) (idx + 5) = Some b5 /\
       nth_error (bars fr) (idx + 10) = Some b10 /\
       T5 fw = pct (close b5) /\ T10 fw = pct (close b10)).
Proof.
  intros Hep Hres Hmode.
  unfold _process_one_stock in Hres. rewrite Hep in Hres.
  destruct (nth_error (bars fr) idx) as [curr|] eqn:Hc; [|discriminate].
  unfold analyse in Hres.
  destruct (negb (strategy_pass fr idx) && negb is_vip); [discriminate|].
  inversion Hres as [Hr]. clear Hres Hr.
  rewrite Hmode, String.eqb_refl.
  exists curr. eexists. split; [reflexivity|]. split; [reflexivity|].
  split; [reflexivity|]. cbv zeta.
  assert (Hrows : forall k, 1 <= k <= List.length (bars fr) - S idx ->
                            exists b, nth_error (bars fr) (idx + k) = Some b).
  { intros k Hk. destruct (nth_error (bars fr) (idx + k)) eqn:E; [eauto|].
    apply nth_error_None in E. lia. }
  assert (Hfw : forall fw,
     fw = forward_returns (bars fr) idx (close curr) ->
     T5 fw = (if (5 <=? List.length (bars fr) - S idx)%nat
              then match nth_error (bars fr) (idx + 5) with
                   | Some b => pct_gain (close curr) (close b)
                   | None => of_Q 0
                   end
              else of_Q 0) /\
     T10 fw = (if (10 <=? List.length (bars fr) - S idx)%nat
               then match nth_error (bars fr) (idx + 10) with
                    | Some b => pct_gain (close curr) (close b)
                    | None => of_Q 0
                    end
               else of_Q 0) /\
     T30 fw = (if (30 <=? List.length (bars fr) - S idx)%nat
               then match nth_error (bars fr) (idx + 30) with
                    | Some b => pct_gain (close curr) (close b)
                    | None => of_Q 0
                    end
               else of_Q 0) /\
     max_gain fw =
       match max_of (map (@high F) (firstn 30 (skipn (S idx) (bars fr)))) with
       | Some m => pct_gain (close curr) m
       | None => of_Q 0
       end).
  { intros fw ->. unfold forward_returns. cbv zeta.
    set (future := skipn (idx + 1) (bars fr)).
    assert (Hfut : skipn (S idx) (bars fr) = future)
      by (unfold future; f_equal; lia).
    assert (Hn : List.length (bars fr) - S idx = List.length future)
      by (unfold future; rewrite length_skipn; lia).
    rewrite Hfut, Hn.
    rewrite <- (@forward_offset (bars fr) idx 5) by lia.
    rewrite <- (@forward_offset (bars fr) idx 10) by lia.
    rewrite <- (@forward_offset (bars fr) idx 30) by lia.
    fold future.
    destruct future as [|b0 rest]; [repeat split; reflexivity|].
    cbn [List.length Nat.ltb Nat.leb T5 T10 T30 max_gain].
    repeat split; reflexivity. }
  destruct (Hfw _ eq_refl) as [H5 [H10 [H30 Hmax]]].
  split; [exact H5|]. split; [exact H10|]. split; [exact H30|].
  split; [exact Hmax|]. split; [exact Hrows|].
  intros Hten. rewrite H5, H10, H30, Hten. cbn [Nat.leb].
  split; [reflexivity|].
  destruct (Hrows 5) as [b5 E5]; [lia|].
  destruct (Hrows 10) as [b10 E10]; [lia|].
  exists b5, b10. rewrite E5, E10. repeat split; reflexivity.
Qed.

End Facts.

End AnalyzerFacts.

Module AnalyzerExamples.

Import Arith PandasTA Analyzer Samples.
Local Open Scope string_scope.
Local Open Scope list_scope.

(** Rows 0 to 60 of a rising series, alone and followed by ten more rows:
    the same indicator values at row 60. *)
Lemma no_look_ahead_witness :
  exists f1 f2,
    indicators (TA := pandas_ta) (series rising 61) = Some f1 /\
    indicators (TA := pandas_ta) (series rising 71) = Some f2 /\
    at_ (MA5 f1) 60 = at_ (MA5 f2) 60 /\
    at_ (MA20 f1) 60 = at_ (MA20 f2) 60 /\
    at_ (MA60 f1) 60 = at_ (MA60 f2) 60 /\
    at_ (MA250 f1) 60 = at_ (MA250 f2) 60 /\
    at_ (DIF f1) 60 = at_ (DIF f2) 60 /\
    at_ (DEA f1) 60 = at_ (DEA f2) 60 /\
    at_ (RSI f1) 60 = at_ (RSI f2) 60.
Proof.
  apply (@LookAhead.no_look_ahead Q QFloat (series rising 61) (series rising 71) 60).
  - lia.
  - vm_compute. lia.
  - vm_compute. lia.
  - vm_compute. reflexivity.
Defined.

(** A series of 59 rows, and a series of 70 rows with a backtest date,
    2024-02-29, that is the date of row 59. *)
Lemma insufficient_history_witness :
  _process_one_stock (TA := pandas_ta)
    (analyser_args (series rising 59) ["sh.600000"] "current" None) = None /\
  _process_one_stock (TA := pandas_ta)
    (analyser_args (series rising 70) ["sh.600000"] "backtest"
                   (Some (Dates.mkDate 2024 2 29))) = None.
Proof.
  split.
  - apply (@AnalyzerFacts.insufficient_history Q QFloat pandas_ta
             (analyser_args (series rising 59) ["sh.600000"] "current" None)
             (series rising 59)); [reflexivity|].
    left. vm_compute. lia.
  - apply (@AnalyzerFacts.insufficient_history Q QFloat pandas_ta
             (analyser_args (series rising 70) ["sh.600000"] "backtest"
                            (Some (Dates.mkDate 2024 2 29)))
             (series rising 70)); [reflexivity|].
    right. split; [reflexivity|].
    exists (Dates.mkDate 2024 2 29), 59.
    split; [reflexivity|]. split; [vm_compute; reflexivity | lia].
Defined.

Ltac evaluate_point args E :=
  let v := eval vm_compute in (evaluation_point (TA := pandas_ta) args) in
  match v with
  | Some (?fr, ?idx, ?vip) =>
      assert (E : evaluation_point (TA := pandas_ta) args = Some (fr, idx, vip))
        by (vm_compute; reflexivity)
  end.

(** A falling series: the close is below MA20 and neither cross is
    golden.  The symbol gets a result when it is on the watchlist and none
    when it is not. *)
Lemma strategy_inclusion_witness :
  (exists res,
      _process_one_stock (TA := pandas_ta)
        (analyser_args (series falling 60) ["sh.600000"] "current" None) = Some res /\
      is_watchlist res = true) /\
  _process_one_stock (TA := pandas_ta)
    (analyser_args (series falling 60) [] "current" None) = None.
Proof.
  split.
  - evaluate_point (analyser_args (series falling 60) ["sh.600000"] "current" None) E.
    destruct (AnalyzerFacts.strategy_inclusion _ E) as [_ [Hin _]].
    apply Hin. reflexivity.
  - evaluate_point (analyser_args (series falling 60) [] "current" None) E.
    destruct (AnalyzerFacts.strategy_inclusion _ E) as [_ [_ Hout]].
    destruct (Hout eq_refl) as [Hiff _].
    apply Hiff. vm_compute. reflexivity.
Defined.

(** The return at five rows is reported as 3.12, the percentage
    [5 / 160 * 100 = 3.125] rounded to two places, where the ratio
    [(close(i+5) - close(i)) / close(i)] is [1/32 = 0.03125]; the maximum
    forward gain is reported as 6.88, where the ratio [(171 - 160) / 160]
    is [11/160 = 0.06875]. *)
Lemma forward_return_is_a_rounded_percentage :
  option_map (fun r => (buy_price r, option_map (fun fw => (T5 fw, max_gain fw)) (forward r)))
             (_process_one_stock (TA := pandas_ta) backtest_args)
  = Some (160%Q, Some ((78 # 25)%Q, (172 # 25)%Q)) /\
  nth_error (map (@close Q) (series rising 71)) 65 = Some 165%Q /\
  max_of (map (@high Q) (firstn 30 (skipn 61 (series rising 71)))) = Some 171%Q /\
  fdiv (fsub 165%Q 160%Q) 160%Q = (1 # 32)%Q /\
  fdiv (fsub 171%Q 160%Q) 160%Q = (11 # 160)%Q /\
  ~ Qeq (78 # 25) (1 # 32) /\
  ~ Qeq (172 # 25) (11 # 160).
Proof.
  repeat split; try (vm_compute; reflexivity); intros E; vm_compute in E; discriminate.
Qed.

(** On the same input: the returns at 5 and 10 rows are computed and the
    return at 30 rows is 0.0. *)
Lemma forward_outcomes_witness :
  exists res fw,
    _process_one_stock (TA := pandas_ta) backtest_args = Some res /\
    forward res = Some fw /\
    T5 fw = (78 # 25)%Q /\ T10 fw = (25 # 4)%Q /\ T30 fw = 0%Q.
Proof.
  evaluate_point backtest_args E.
  destruct (_process_one_stock (TA := pandas_ta) backtest_args) as [res|] eqn:R;
    [|vm_compute in R; discriminate].
  destruct (AnalyzerFacts.forward_outcomes _ E R eq_refl)
    as [curr [fw [Hc [_ [Hf H]]]]].
  cbv zeta in H. destruct H as [_ [_ [_ [_ [_ Hten]]]]].
  destruct (Hten eq_refl) as [H30 [b5 [b10 [E5 [E10 [H5 H10]]]]]].
  exists res, fw. split; [reflexivity|]. split; [exact Hf|].
  vm_compute in Hc. inversion Hc; subst curr.
  vm_compute in E5. inversion E5; subst b5.
  vm_compute in E10. inversion E10; subst b10.
  rewrite H5, H10, H30. repeat split; vm_compute; reflexivity.
Defined.

(** C6 on a symbol outside the watchlist.  In the series [sliding] the last
    close, 86.5, is below MA20, the MACD column is below both other columns
    of [ta.macd], K is above D, and the volume ratio is 1: the symbol passes
    the filter on the KDJ golden cross alone, no reason is recorded for it,
    and the result carries the reason of the watchlist, "自选观察". *)
Lemma fallback_reason_outside_watchlist :
  option_map
    (fun r => (is_watchlist r, res_match r, res_macd_state r, res_kdj_state r,
               res_vol_ratio r))
    (_process_one_stock (TA := pandas_ta)
       (analyser_args (series sliding 60) [] "current" None))
  = Some (false, "自选观察", "死叉", "金叉", 1%Q).
Proof. vm_compute. reflexivity. Qed.

End AnalyzerExamples.

(** ** [download_worker] as a whole *)

Module WorkerFacts.

Import Config Downloader DownloaderRest MergeFacts StringOrder.
Local Open Scope string_scope.
Local Open Scope list_scope.

Lemma disk_set_other (d : Disk) (path p : string) (c : option FileContent) :
  p <> path -> disk_set d path c p = d p.
Proof. intros Hp. unfold disk_set. apply String.eqb_neq in Hp. now rewrite Hp. Qed.

Lemma disk_set_same (d : Disk) (path : string) (c : option FileContent) :
  disk_set d path c path = c.
Proof. unfold disk_set. now rewrite String.eqb_refl. Qed.

(** A task returns and writes to no file but its own. *)
Lemma download_task_frame (env : TaskEnv) (task : Task) (d : Disk) :
  exists ok d',
    download_task env task d = (Returned ok, d') /\
    forall p, p <> file_path (task_item task) -> d' p = d p.
Proof.
  cbv beta iota zeta delta
    [download_task try_except bind store path_exists read_csv to_csv ret raise].
  destruct (upstream env) as [| |new_df]; try (do 2 eexists; split; [reflexivity | auto]).
  destruct new_df as [|r rest]; [do 2 eexists; split; [reflexivity | auto]|].
  destruct (is_append (task_mode task));
    destruct (d (file_path (task_item task))) as [[old|tail]|] eqn:Hd;
    cbn [andb]; rewrite ?Hd;
    repeat match goal with
           | |- context [read_fault env] => destruct (read_fault env)
           | |- context [merged_write env] => destruct (merged_write env)
           | |- context [plain_write env] => destruct (plain_write env)
           end;
    cbn iota; rewrite ?Hd;
    do 2 eexists; (split; [reflexivity|]);
    intros p Hp; rewrite ?disk_set_other by assumption; reflexivity.
Qed.

Lemma download_loop_spec (we : WorkerEnv) (task_list : list Task) :
  forall (success failed : list Item) (d : Disk),
  exists s1 f1 d',
    download_loop we task_list success failed d =
      ((success ++ s1, failed ++ f1), d') /\
    Permutation (s1 ++ f1) (map task_item task_list) /\
    (forall p, (forall t, In t task_list -> p <> file_path (task_item t)) ->
               d' p = d p).
Proof.
  induction task_list as [|task rest IH]; intros success failed d.
  - exists [], [], d. cbn. rewrite !app_nil_r. repeat split; auto.
  - cbn [download_loop map].
    destruct (download_task_frame (task_env we (task_item task)) task d)
      as [ok [d1 [E Hframe]]].
    rewrite E. destruct ok.
    + destruct (IH (success ++ [task_item task]) failed d1) as [s1 [f1 [d' [E' [P F]]]]].
      exists (task_item task :: s1), f1, d'. rewrite E', <- app_assoc. cbn.
      split; [reflexivity|]. split; [now constructor|].
      intros p Hp. rewrite F by (intros t Ht; apply Hp; now right).
      apply Hframe, Hp. now left.
    + destruct (IH success (failed ++ [task_item task]) d1) as [s1 [f1 [d' [E' [P F]]]]].
      exists s1, (task_item task :: f1), d'. rewrite E', <- app_assoc. cbn.
      split; [reflexivity|]. split.
      * rewrite <- P. symmetry. apply Permutation_middle.
      * intros p Hp. rewrite F by (intros t Ht; apply Hp; now right).
        apply Hframe, Hp. now left.
Qed.

(** X1.  Whatever the upstream and the disk do, a worker hands back every
    item of its chunk exactly once, as a success or as a failure; it writes
    to no file but those of its own tasks; and when the login fails it
    writes nothing and reports every item as failed. *)
Theorem download_worker_partition (we : WorkerEnv) (task_list : list Task)
    (use_proxy : bool) (d : Disk) :
  let '((success, failed), d') := download_worker we (task_list, use_proxy) d in
  Permutation (success ++ failed) (map task_item task_list) /\
  List.length success + List.length failed = List.length task_list /\
  (forall p, (forall t, In t task_list -> p <> file_path (task_item t)) ->
             d' p = d p) /\
  (login we <> LoginOk ->
   success = [] /\ failed = map task_item task_list /\ forall p, d' p = d p).
Proof.
  unfold download_worker.
  destruct (login we) eqn:L.
  - destruct (download_loop_spec we task_list [] [] d) as [s1 [f1 [d' [E [P F]]]]].
    rewrite E. cbn [app]. split; [exact P|]. split.
    + rewrite <- length_app, (Permutation_length P). apply length_map.
    + split; [exact F | congruence].
  - cbn [app]. rewrite length_map. repeat split; auto.
  - cbn [app]. rewrite length_map. repeat split; auto.
Qed.

(** X2.  A worker whose queries all answer without a row reports every
    item as a success, in the order of the chunk, and leaves the disk as it
    is; a worker whose queries all fail hands back exactly the result of a
    failed chunk and leaves the disk as it is. *)
Theorem download_worker_without_rows (we : WorkerEnv) (task_list : list Task)
    (use_proxy : bool) (d : Disk) :
  login we = LoginOk ->
  ((forall t, In t task_list -> nothing_new (task_env we (task_item t))) ->
   download_worker we (task_list, use_proxy) d =
     ((map task_item task_list, []), d)) /\
  ((forall t, In t task_list -> query_fails (task_env we (task_item t))) ->
   download_worker we (task_list, use_proxy) d =
     (all_failed (task_list, use_proxy), d)).
Proof.
  intros L. unfold download_worker. rewrite L. split; intros Hall.
  - assert (G : forall success failed,
               download_loop we task_list success failed d =
               ((success ++ map task_item task_list, failed), d)).
    { induction task_list as [|task rest IH]; intros success failed; cbn.
      - now rewrite app_nil_r.
      - assert (E : download_task (task_env we (task_item task)) task d = (Returned true, d)).
        { cbv beta iota zeta delta [download_task try_except ret].
          now rewrite (Hall task (or_introl eq_refl)). }
        rewrite E, IH by (intros t Ht; apply Hall; now right).
        now rewrite <- app_assoc. }
    apply G.
  - assert (G : forall success failed,
               download_loop we task_list success failed d =
               ((success, failed ++ map task_item task_list), d)).
    { induction task_list as [|task rest IH]; intros success failed; cbn.
      - now rewrite app_nil_r.
      - assert (E : download_task (task_env we (task_item task)) task d = (Returned false, d)).
        { cbv beta iota zeta delta [download_task try_except ret raise].
          destruct (Hall task (or_introl eq_refl)) as [H|H]; now rewrite H. }
        rewrite E, IH by (intros t Ht; apply Hall; now right).
        now rewrite <- app_assoc. }
    apply G.
Qed.

(** X3.  In full mode, and in append mode when there is no file yet, a
    non-empty batch whose write goes through replaces the file by the
    batch exactly as it came: its rows are neither deduplicated nor sorted,
    and what the file held before is gone. *)
Theorem full_write_overwrites (env : TaskEnv) (task : Task) (d : Disk)
    (new_df : DataFrame) :
  task_mode task <> Some ModeA \/ d (file_path (task_item task)) = None ->
  upstream env = QueryRows new_df ->
  new_df <> [] ->
  plain_write env = WriteOk ->
  download_task env task d =
    (Returned true, disk_set d (file_path (task_item task)) (Some (Csv new_df))).
Proof.
  intros Hmode Hup Hne Hw.
  destruct new_df as [|r rest]; [congruence|].
  cbv beta iota zeta delta
    [download_task try_except bind store path_exists read_csv to_csv ret raise].
  rewrite Hup, Hw.
  destruct Hmode as [Hm|Hf].
  - assert (Ha : is_append (task_mode task) = false).
    { destruct (task_mode task) as [[|]|]; try reflexivity. congruence. }
    rewrite Ha. reflexivity.
  - rewrite Hf. now rewrite andb_false_r.
Qed.

(** *** The last stored date after a merge *)

Lemma sorted_last_is_max (df : DataFrame) (dflt : Row) :
  StronglySorted date_lt df -> df <> [] ->
  In (last df dflt) df /\
  forall r, In r df -> (date r <=? date (last df dflt)) = true.
Proof.
  induction df as [|x rest IH]; intros S Hne; [congruence|].
  inversion S as [|? ? S' Hall]; subst.
  destruct rest as [|y rest'].
  - cbn. split; [now left|]. intros r [<-|[]].
    unfold String.leb. now rewrite compare_refl.
  - destruct (IH S' ltac:(discriminate)) as [Hin Hmax].
    change (last (x :: y :: rest') dflt) with (last (y :: rest') dflt).
    split; [now right|].
    intros r [<-|Hr]; [|now apply Hmax].
    rewrite Forall_forall in Hall. specialize (Hall _ Hin).
    unfold date_lt, String.ltb in Hall. unfold String.leb.
    destruct (String.compare (date x) (date (last (y :: rest') dflt)));
      congruence.
Qed.

(** X4.  After an append-merge that goes through, the date [get_last_date]
    reads from the file is a date of the old file or of the batch and no
    date of either is later: the planner's next decision is taken on the
    latest date known. *)
Theorem merged_last_date (env : TaskEnv) (task : Task) (d : Disk)
    (old_df new_df : DataFrame) :
  task_mode task = Some ModeA ->
  d (file_path (task_item task)) = Some (Csv old_df) ->
  upstream env = QueryRows new_df ->
  new_df <> [] ->
  read_fault env = false ->
  merged_write env = WriteOk ->
  exists latest,
    get_last_date (snd (download_task env task d)) (file_path (task_item task))
      = Some latest /\
    (In latest (map date old_df) \/ In latest (map date new_df)) /\
    forall dt, In dt (map date old_df) \/ In dt (map date new_df) ->
               (dt <=? latest) = true.
Proof.
  intros Hmode Hfile Hup Hne Hread Hwrite.
  rewrite (MergeTheorems.download_task_merges env task d Hmode Hfile Hup Hne Hread Hwrite).
  cbn [snd]. unfold get_last_date. rewrite disk_set_same.
  set (m := merge_frames old_df new_df).
  assert (Hm : m <> []).
  { intros E. destruct new_df as [|r rest]; [congruence|].
    assert (Hin : In (date r) (map date m)).
    { apply MergeTheorems.merge_frames_dates. right. now left. }
    rewrite E in Hin. contradiction. }
  destruct (sorted_last_is_max (mkRow "" []) (merge_frames_sorted old_df new_df) Hm)
    as [Hin Hmax].
  fold m in Hin, Hmax.
  exists (date (last m (mkRow "" []))).
  split; [destruct m; [congruence | reflexivity]|].
  split.
  - apply MergeTheorems.merge_frames_dates. now apply in_map.
  - intros dt Hdt. apply MergeTheorems.merge_frames_dates in Hdt.
    apply in_map_iff in Hdt as [r [<- Hr]]. now apply Hmax.
Qed.

End WorkerFacts.

(** ** The retry loop of [StockDownloader.run], beyond the breaker *)

Module RunFacts.

Import Config Downloader DownloaderRest.
Local Open Scope string_scope.
Local Open Scope list_scope.

(** *** Chunks *)

Lemma make_chunks_spec (fuel : nat) :
  forall (batch : list Task) (use_proxy : bool),
    List.length batch <= fuel ->
    let chunks := make_chunks fuel batch use_proxy in
    List.concat (map fst chunks) = batch /\
    Forall (fun c => 1 <= List.length (fst c) <= chunk_size /\ snd c = use_proxy)
           chunks /\
    List.length batch <= chunk_size * List.length chunks /\
    chunk_size * List.length chunks < List.length batch + chunk_size.
Proof.
  induction fuel as [|fuel IH]; intros batch use_proxy Hlen.
  - destruct batch; [|simpl in Hlen; lia].
    cbn. unfold chunk_size. repeat split; auto; lia.
  - destruct batch as [|t batch].
    + cbn. unfold chunk_size. repeat split; auto; lia.
    + rewrite Breaker.make_chunks_cons.
      assert (Hskip : List.length (skipn chunk_size (t :: batch)) <= fuel).
      { rewrite length_skipn. unfold chunk_size. simpl in *. lia. }
      destruct (IH (skipn chunk_size (t :: batch)) use_proxy Hskip)
        as [Hc [Hf [Hlo Hhi]]].
      cbv zeta. cbn [map fst List.concat List.length].
      rewrite Hc, firstn_skipn.
      rewrite length_skipn in Hlo, Hhi.
      split; [reflexivity|]. split.
      * constructor; [|exact Hf]. cbn [fst snd].
        rewrite length_firstn. unfold chunk_size. cbn [List.length]. split; [lia | reflexivity].
      * unfold chunk_size in *. cbn [List.length] in *. lia.
Qed.

(** X5.  The chunks of a round hold the batch: put end to end they give
    the batch back in its order, every chunk has between 1 and 20 tasks and
    carries the round's proxy flag, and their number is the batch size
    divided by 20, rounded up. *)
Theorem chunks_partition (batch : list Task) (use_proxy : bool) :
  let chunks := make_chunks (List.length batch) batch use_proxy in
  List.concat (map fst chunks) = batch /\
  Forall (fun c => 1 <= List.length (fst c) <= 20 /\ snd c = use_proxy) chunks /\
  List.length chunks = (List.length batch + 19) / 20.
Proof.
  destruct (@make_chunks_spec (List.length batch) batch use_proxy
              (Nat.le_refl (List.length batch)))
    as [Hc [Hf [Hlo Hhi]]].
  cbv zeta. split; [exact Hc|]. split; [exact Hf|].
  unfold chunk_size in *.
  apply Nat.div_unique with
    (r := List.length batch + 19
          - 20 * List.length (make_chunks (List.length batch) batch use_proxy)); lia.
Qed.

(** *** The set of finished codes *)

Lemma mem_In (c : string) (s : list string) : mem c s = true <-> In c s.
Proof.
  unfold mem. rewrite existsb_exists. split.
  - intros [x [Hx E]]. apply String.eqb_eq in E. now subst.
  - intros H. exists c. split; [exact H | apply String.eqb_refl].
Qed.

Lemma set_add_spec (c : string) (s : list string) :
  (forall x, In x (set_add c s) <-> x = c \/ In x s) /\
  (NoDup s -> NoDup (set_add c s)) /\
  List.length (set_add c s) <= S (List.length s).
Proof.
  unfold set_add. destruct (mem c s) eqn:E.
  - apply mem_In in E. repeat split; auto.
    + intros [->|H]; auto.
  - assert (Hn : ~ In c s) by (rewrite <- mem_In; congruence).
    repeat split; try (cbn; lia).
    + intros [<-|H]; auto.
    + intros [->|H]; [now left | now right].
    + intros ND. now constructor.
Qed.

(** What recording a list of successes does to the state. *)
Lemma record_successes_spec (l : list Item) :
  forall st,
    let st' := record_successes l st in
    final_success_count st' = final_success_count st + List.length l /\
    (forall c, In c (finished_codes st') <->
               In c (finished_codes st) \/ In c (codes l)) /\
    (NoDup (finished_codes st) -> NoDup (finished_codes st')) /\
    List.length (finished_codes st') <= List.length (finished_codes st) + List.length l.
Proof.
  induction l as [|item l IH]; intros st; cbv zeta.
  - cbn. repeat split; auto; try lia. intros [H|[]]; exact H.
  - cbn [record_successes].
    set (st1 := mkRunState (set_add (fst item) (finished_codes st))
                           (S (final_success_count st)) (rounds_started st)
                           (results_consumed st) (tripped st)).
    destruct (IH st1) as [Hc [Hin [Hnd Hlen]]].
    destruct (set_add_spec (fst item) (finished_codes st)) as [Sin [Snd Slen]].
    cbn [finished_codes final_success_count st1] in *.
    split; [cbn [List.length]; lia|]. split; [|split].
    + intros c. rewrite Hin, Sin. unfold codes. cbn [map In]. intuition.
    + intros ND. apply Hnd, Snd, ND.
    + cbn [List.length]. lia.
Qed.

Lemma consume_keeps (results : list ChunkResult) :
  forall (c : nat) (st : RunState),
    tidy st ->
    let '(st', abort) := consume results c st in
    tidy st' /\
    rounds_started st' = rounds_started st /\
    tripped st' = tripped st /\
    final_success_count st <= final_success_count st' /\
    (forall x, In x (finished_codes st) -> In x (finished_codes st')).
Proof.
  induction results as [|r rest IH]; intros c st [ND Hlen].
  - cbn. repeat split; auto.
  - cbn [consume].
    destruct (record_successes_spec (fst r) (took_result st)) as [Hc [Hin [Hnd Hl]]].
    destruct (Breaker.record_successes_counters (fst r) (took_result st)) as [Hr [_ Ht]].
    cbn [took_result finished_codes final_success_count rounds_started tripped] in *.
    assert (T : tidy (record_successes (fst r) (took_result st))).
    { split; [apply Hnd, ND | lia]. }
    destruct (ABORT_THRESHOLD <=? step_counter c r)%nat.
    + repeat split; try apply T; try assumption; try lia.
      intros x Hx. apply Hin. now left.
    + specialize (IH (step_counter c r) _ T).
      destruct (consume rest (step_counter c r)
                        (record_successes (fst r) (took_result st))) as [st' abort].
      destruct IH as [T' [R' [Tr' [C' I']]]].
      repeat split; try apply T'; try congruence; try lia.
      intros x Hx. apply I', Hin. now left.
Qed.

Lemma rounds_keep (pool : Pool) (pending_tasks : list Task) (attempts : list nat) :
  forall st,
    tidy st ->
    let st' := rounds pool pending_tasks attempts st in
    tidy st' /\
    rounds_started st' <= rounds_started st + List.length attempts /\
    final_success_count st <= final_success_count st' /\
    (forall x, In x (finished_codes st) -> In x (finished_codes st')).
Proof.
  induction attempts as [|attempt later IH]; intros st T; cbv zeta.
  - cbn. repeat split; try apply T; auto; lia.
  - destruct (current_batch_of pending_tasks st) as [|t batch] eqn:Eb.
    + cbn [rounds]. rewrite Eb. cbn [List.length]. repeat split; try apply T; auto; lia.
    + rewrite (@Breaker.rounds_cons pool pending_tasks attempt later st)
        by (rewrite Eb; discriminate).
      cbv zeta.
      assert (Ts : tidy (started_round st)) by exact T.
      pose proof (consume_keeps
                    (pool attempt
                       (make_chunks (List.length (current_batch_of pending_tasks st))
                                    (current_batch_of pending_tasks st)
                                    (attempt mod 2 =? 0)%nat))
                    0 Ts) as K.
      destruct (consume _ 0 (started_round st)) as [st1 abort].
      destruct K as [T1 [R1 [Tr1 [C1 I1]]]].
      cbn [started_round rounds_started final_success_count finished_codes] in *.
      destruct abort.
      * unfold trip. cbn. cbn [List.length]. repeat split; try apply T1; auto; lia.
      * destruct (IH st1 T1) as [T2 [R2 [C2 I2]]].
        cbn [List.length]. repeat split; try apply T2; auto; lia.
Qed.

(** X6.  A run starts at most [MAX_ATTEMPTS] rounds, whatever the workers
    hand back; the set of finished codes holds no code twice and never
    holds more codes than successes were counted. *)
Theorem run_is_bounded (pool : Pool) (tasks : list Task) :
  let final := run_downloads pool tasks in
  rounds_started final <= MAX_ATTEMPTS /\
  NoDup (finished_codes final) /\
  List.length (finished_codes final) <= final_success_count final.
Proof.
  cbv zeta. unfold run_downloads.
  assert (T0 : tidy initial_state) by (split; [constructor | cbn; lia]).
  destruct tasks as [|t l].
  - destruct T0 as [A B]. unfold MAX_ATTEMPTS. cbn. repeat split; auto; lia.
  - destruct (rounds_keep pool (t :: l) (seq 1 MAX_ATTEMPTS) T0)
      as [[A B] [R _]].
    rewrite length_seq in R. cbn [initial_state rounds_started] in R.
    repeat split; auto.
Qed.

(** *** A run in which every task succeeds *)

Lemma step_counter_quiet (r : ChunkResult) : snd r = [] -> step_counter 0 r = 0.
Proof. intros E. unfold step_counter. rewrite E. now destruct (fst r). Qed.

(** Results without a failure never move the counter. *)
Lemma consume_quiet (results : list ChunkResult) :
  forall st,
    Forall (fun r => snd r = []) results ->
    exists st',
      consume results 0 st = (st', false) /\
      final_success_count st' = final_success_count st + successes results /\
      rounds_started st' = rounds_started st /\
      tripped st' = tripped st /\
      (forall c, In c (finished_codes st') <->
                 In c (finished_codes st) \/
                 exists r, In r results /\ In c (codes (fst r))).
Proof.
  induction results as [|r rest IH]; intros st Hall.
  - exists st. cbn. repeat split; auto; try lia.
    + intros [H|[r [[] _]]]; exact H.
  - inversion Hall as [|? ? Hr Hrest]; subst.
    cbn [consume]. rewrite (step_counter_quiet _ Hr).
    change (ABORT_THRESHOLD <=? 0)%nat with false. cbv iota.
    destruct (IH (record_successes (fst r) (took_result st)) Hrest)
      as [st' [E [C [R [T I]]]]].
    destruct (record_successes_spec (fst r) (took_result st)) as [Hc [Hin _]].
    destruct (Breaker.record_successes_counters (fst r) (took_result st)) as [Hro [_ Ht]].
    cbn [took_result finished_codes final_success_count rounds_started tripped] in *.
    exists st'. split; [exact E|].
    split.
    { change (successes (r :: rest))
        with (List.length (fst r) + successes rest). lia. }
    split; [congruence|]. split; [congruence|].
    intros c. rewrite I, Hin. split.
    + intros [[H|H]|[r' [Hr' Hc']]]; auto.
      * right. exists r. split; [now left | exact H].
      * right. exists r'. split; [now right | exact Hc'].
    + intros [H|[r' [[<-|Hr'] Hc']]]; auto.
      right. exists r'. auto.
Qed.

Lemma successes_perm (l1 l2 : list ChunkResult) :
  Permutation l1 l2 -> successes l1 = successes l2.
Proof. intros P. unfold successes. induction P; simpl; lia. Qed.

Lemma successes_all (chunks : list (list Task * bool)) :
  successes (map all_succeeded chunks) = List.length (List.concat (map fst chunks)).
Proof.
  unfold successes. induction chunks as [|c l IH]; [reflexivity|].
  cbn [map list_sum List.concat]. rewrite length_app, <- IH.
  unfold all_succeeded at 1. cbn [fst]. now rewrite length_map.
Qed.

(** X7.  When every task of the first round succeeds, the run ends after
    that round without a trip: every task is counted as a success once,
    the code of every task is finished, and no second round starts. *)
Theorem successful_run (pool : Pool) (tasks : list Task) :
  tasks <> [] ->
  (forall attempt chunks,
      Permutation (pool attempt chunks) (map all_succeeded chunks)) ->
  let final := run_downloads pool tasks in
  rounds_started final = 1 /\
  tripped final = false /\
  final_success_count final = List.length tasks /\
  (forall t, In t tasks -> In (fst (task_item t)) (finished_codes final)).
Proof.
  intros Hne Hpool. cbv zeta. unfold run_downloads.
  destruct tasks as [|t0 l0] eqn:Et; [congruence|]. rewrite <- Et in *. clear Et t0 l0.
  assert (Hb : current_batch_of tasks initial_state <> [])
    by now rewrite Breaker.current_batch_initial.
  change (seq 1 MAX_ATTEMPTS) with (1 :: seq 2 6).
  rewrite (@Breaker.rounds_cons pool tasks 1 (seq 2 6) initial_state Hb).
  cbv zeta. rewrite Breaker.current_batch_initial.
  set (chunks := make_chunks (List.length tasks) tasks (1 mod 2 =? 0)%nat).
  destruct (@make_chunks_spec (List.length tasks) tasks (1 mod 2 =? 0)%nat
              (Nat.le_refl _)) as [Hcat _].
  fold chunks in Hcat.
  assert (Hq : Forall (fun r => snd r = []) (pool 1 chunks)).
  { apply Forall_forall. intros r Hr.
    apply (Permutation_in _ (Hpool 1 chunks)) in Hr.
    apply in_map_iff in Hr as [c [<- _]]. reflexivity. }
  destruct (consume_quiet (started_round initial_state) Hq)
    as [st' [E [C [R [T I]]]]].
  rewrite E.
  cbn [started_round initial_state final_success_count rounds_started tripped
       finished_codes] in *.
  assert (Hdone : forall t, In t tasks -> In (fst (task_item t)) (finished_codes st')).
  { intros t Ht. apply I. right.
    rewrite <- Hcat in Ht. apply in_concat in Ht as [ts [Hts Hin]].
    apply in_map_iff in Hts as [c [<- Hc]].
    exists (all_succeeded c). split.
    - apply (Permutation_in _ (Permutation_sym (Hpool 1 chunks))).
      now apply in_map.
    - unfold codes, all_succeeded. cbn [fst]. rewrite map_map.
      apply in_map_iff. exists t. auto. }
  assert (Hempty : current_batch_of tasks st' = []).
  { unfold current_batch_of.
    assert (G : forall l, (forall t, In t l -> In t tasks) ->
                filter (fun t => negb (mem (fst (task_item t)) (finished_codes st'))) l = []).
    { induction l as [|t l IH]; intros Hl; [reflexivity|]. cbn [filter].
      assert (M : mem (fst (task_item t)) (finished_codes st') = true).
      { apply mem_In, Hdone, Hl. now left. }
      rewrite M. cbn [negb]. apply IH. intros x Hx. apply Hl. now right. }
    apply G. auto. }
  assert (Hstop : rounds pool tasks (seq 2 6) st' = st').
  { cbn [seq rounds]. now rewrite Hempty. }
  rewrite Hstop. split; [exact R|]. split; [exact T|]. split; [|exact Hdone].
  rewrite C, (successes_perm (Hpool 1 chunks)), successes_all.
  fold chunks. now rewrite Hcat.
Qed.

End RunFacts.

(** ** The planner's fetch window *)

Module PlannerWindow.

Import Config Dates DateFacts Downloader.
Local Open Scope string_scope.
Local Open Scope Z_scope.

Lemma next_day_after (a : Date) :
  valid a = true -> Dates.compare a (next_day a) = Lt.
Proof.
  intros _. destruct a as [y m dd]. unfold next_day, Dates.compare. cbn [year month day].
  assert (L : forall x, (x ?= x + 1) = Lt) by (intros x; apply Z.compare_lt_iff; lia).
  destruct (dd <? days_in_month y m); [|destruct (m <? 12)]; cbn [year month day];
    rewrite ?Z.compare_refl, ?L; reflexivity.
Qed.

Lemma next_day_valid (a b : Date) :
  valid a = true -> valid b = true -> Dates.compare a b = Lt ->
  valid (next_day a) = true.
Proof.
  intros Va Vb Hlt.
  pose proof (Planner.compare_spec a b) as Hab. rewrite Hlt in Hab.
  apply valid_spec in Va. apply valid_spec in Vb. apply valid_spec.
  pose proof (days_in_month_bounds (year a) (month a)) as Ba.
  pose proof (days_in_month_bounds (year a) (month a + 1)) as Ba'.
  pose proof (days_in_month_bounds (year a + 1) 1) as Ba''.
  assert (Hcases : year a < year b \/ (year a = year b /\ month a < month b) \/
                   day a < days_in_month (year a) (month a)).
  { destruct Hab as [Hy|[Hy [Hm|[Hm Hd]]]]; auto.
    right. right. rewrite Hy, Hm. lia. }
  unfold next_day.
  destruct (Z.ltb_spec (day a) (days_in_month (year a) (month a)));
    [|destruct (Z.ltb_spec (month a) 12)]; cbn [year month day]; lia.
Qed.

(** The decision on a file whose last line starts with a date. *)
Lemma check_status_stored (d : Disk) (now : Clock) (item : Item) (last : Date) :
  valid (today now) = true ->
  observed d (file_path item) (Stored last) ->
  check_status_worker d now item =
  Returned
    (if Dates.leb (today now) last then (item, false, None, None)
     else if (Dates.eqb last (prev_day (today now))
              && (hour now <? DATA_READY_HOUR)%nat)%bool
     then (item, false, None, None)
     else (item, true, Some (strftime (next_day last)), Some ModeA)).
Proof.
  intros Vt [Hex [Vl Hl]]. unfold check_status_worker. cbv zeta.
  destruct (d (file_path item)); try congruence. rewrite Hl.
  rewrite Planner.is_empty_strftime.
  pose proof (valid_printable _ Vt) as Pt.
  pose proof (valid_printable _ Vl) as Pl.
  rewrite (Planner.leb_strftime Pt Pl).
  destruct (Dates.leb (today now) last) eqn:Hle; [reflexivity|].
  rewrite (strptime_strftime _ Vl).
  rewrite (Planner.eqb_strftime Pl (Planner.prev_day_printable _ Vt)).
  destruct (Dates.eqb last (prev_day (today now)) && (hour now <? DATA_READY_HOUR)%nat)%bool;
    [reflexivity|].
  assert (Hlt : Dates.compare last (today now) = Lt).
  { unfold Dates.leb in Hle.
    pose proof (Planner.compare_spec (today now) last) as H1.
    pose proof (Planner.compare_spec last (today now)) as H2.
    destruct (Dates.compare (today now) last); try discriminate.
    destruct (Dates.compare last (today now)); try reflexivity.
    - subst last. lia.
    - lia. }
  destruct (@Planner.next_day_le last (today now) Vl Vt Hlt) as [Hng Pn].
  rewrite (Planner.ltb_strftime Pt Pn). unfold Dates.ltb.
  pose proof (Planner.compare_spec (today now) (next_day last)) as H1.
  pose proof (Planner.compare_spec (next_day last) (today now)) as H2.
  destruct (Dates.compare (today now) (next_day last)); try reflexivity.
  destruct (Dates.compare (next_day last) (today now)); try congruence.
  + rewrite H2 in H1. lia.
  + lia.
Qed.

(** X8.  An incremental task never asks again for a stored day and never
    asks for a day to come: its start date is the text of a date, the day
    after the last stored date, it sorts after the last stored date and not
    after today, as the strings the code compares. *)
Theorem incremental_window (d : Disk) (now : Clock) (item : Item) (last : Date)
    (task : Task) :
  valid (today now) = true ->
  observed d (file_path item) (Stored last) ->
  check_status_worker d now item = Returned task ->
  task_mode task = Some ModeA ->
  exists start,
    task = (item, true, Some start, Some ModeA) /\
    strptime start = Some (next_day last) /\
    (strftime last <? start)%string = true /\
    (start <=? strftime (today now))%string = true.
Proof.
  intros Vt Hobs Hret Hmode.
  pose proof Hobs as [_ [Vl _]].
  rewrite (@check_status_stored d now item last Vt Hobs) in Hret.
  destruct (Dates.leb (today now) last) eqn:Hle;
    [inversion Hret; subst; discriminate|].
  destruct (Dates.eqb last (prev_day (today now)) && (hour now <? DATA_READY_HOUR)%nat)%bool;
    [inversion Hret; subst; discriminate|].
  inversion Hret; subst task. clear Hret Hmode.
  assert (Hlt : Dates.compare last (today now) = Lt).
  { unfold Dates.leb in Hle.
    pose proof (Planner.compare_spec (today now) last) as H1.
    pose proof (Planner.compare_spec last (today now)) as H2.
    destruct (Dates.compare (today now) last); try discriminate.
    destruct (Dates.compare last (today now)); try reflexivity.
    - subst last. lia.
    - lia. }
  destruct (@Planner.next_day_le last (today now) Vl Vt Hlt) as [Hng Pn].
  pose proof (valid_printable _ Vt) as Pt.
  pose proof (valid_printable _ Vl) as Pl.
  exists (strftime (next_day last)). split; [reflexivity|].
  split; [apply strptime_strftime, (@next_day_valid last (today now) Vl Vt Hlt)|].
  split.
  - rewrite (Planner.ltb_strftime Pl Pn). unfold Dates.ltb.
    now rewrite (@next_day_after last Vl).
  - rewrite (Planner.leb_strftime Pn Pt). unfold Dates.leb.
    destruct (Dates.compare (next_day last) (today now)); congruence.
Qed.

End PlannerWindow.

Module MoreSyncExamples.

Import Config Downloader DownloaderRest Samples MoreSamples.
Local Open Scope string_scope.
Local Open Scope list_scope.

Lemma download_worker_without_rows_witness :
  download_worker idle_worker (ten_tasks, false) disk =
    ((map task_item ten_tasks, []), disk).
Proof.
  refine (proj1 (@WorkerFacts.download_worker_without_rows
                   idle_worker ten_tasks false disk _) _).
  - reflexivity.
  - intros t Ht. reflexivity.
Defined.

Lemma full_write_overwrites_witness :
  download_task env_ok full_task empty_disk =
    (Returned true, disk_set empty_disk path (Some (Csv new_df))).
Proof.
  refine (@WorkerFacts.full_write_overwrites env_ok full_task empty_disk new_df _ _ _ _).
  - left. discriminate.
  - reflexivity.
  - discriminate.
  - reflexivity.
Defined.

(** After the sample merge the last stored date is 2024-01-04. *)
Lemma merged_last_date_witness :
  exists latest,
    get_last_date (snd (download_task env_ok append_task disk)) path = Some latest /\
    (In latest (map date old_df) \/ In latest (map date new_df)) /\
    forall dt, In dt (map date old_df) \/ In dt (map date new_df) ->
               (dt <=? latest) = true.
Proof.
  refine (@WorkerFacts.merged_last_date env_ok append_task disk old_df new_df
            _ _ _ _ _ _).
  - reflexivity.
  - reflexivity.
  - reflexivity.
  - discriminate.
  - reflexivity.
  - reflexivity.
Defined.

Lemma successful_run_witness :
  let final := run_downloads succeeding_pool ten_tasks in
  rounds_started final = 1 /\
  tripped final = false /\
  final_success_count final = 10 /\
  (forall t, In t ten_tasks -> In (fst (task_item t)) (finished_codes final)).
Proof.
  refine (@RunFacts.successful_run succeeding_pool ten_tasks _ _).
  - discriminate.
  - intros attempt chunks. apply Permutation_refl.
Defined.

Lemma incremental_window_witness :
  exists start,
    (item, true, Some "2024-01-04", Some ModeA) = (item, true, Some start, Some ModeA) /\
    Dates.strptime start = Some (Dates.next_day (Dates.mkDate 2024 1 3)) /\
    (Dates.strftime (Dates.mkDate 2024 1 3) <? start) = true /\
    (start <=? Dates.strftime (today evening)) = true.
Proof.
  refine (@PlannerWindow.incremental_window disk evening item
            (Dates.mkDate 2024 1 3) _ _ _ _ _).
  - reflexivity.
  - split; [discriminate|]. split; reflexivity.
  - reflexivity.
  - reflexivity.
Defined.

End MoreSyncExamples.

(** ** Reading the last date back from the bytes of a file *)

Module TailRead.

Import Config Downloader DownloaderRest.
Local Open Scope string_scope.
Local Open Scope list_scope.

Lemma list_ascii_app (a b : string) :
  list_ascii_of_string (a ++ b) = list_ascii_of_string a ++ list_ascii_of_string b.
Proof. induction a as [|c a IH]; cbn; [reflexivity | now rewrite IH]. Qed.

Lemma seek_newline (text : list ascii) (pos : nat) :
  nth pos text zero = newline -> seek_line_start text pos = S pos.
Proof. intros H. destruct pos; cbn [seek_line_start]; now rewrite H, Ascii.eqb_refl. Qed.

Lemma seek_step (text : list ascii) (p : nat) :
  Ascii.eqb (nth (S p) text zero) newline = false ->
  seek_line_start text (S p) = seek_line_start text p.
Proof. intros H. cbn [seek_line_start]. now rewrite H. Qed.

(** Stepping back over a line without a newline stops at the newline
    before it. *)
Lemma seek_back (before body after : list ascii) :
  Forall (fun c => Ascii.eqb c newline = false) body ->
  forall k, k < List.length body ->
    seek_line_start (before ++ newline :: body ++ after)
                    (List.length before + 1 + k)
    = List.length before + 1.
Proof.
  intros Hbody.
  assert (Hnth : forall k, k < List.length body ->
            nth (S (List.length before + k))
                (before ++ newline :: body ++ after) zero = nth k body zero).
  { intros k Hk. rewrite app_nth2 by lia.
    replace (S (List.length before + k) - List.length before) with (S k) by lia.
    cbn [nth]. now rewrite app_nth1. }
  assert (Hnl : nth (List.length before) (before ++ newline :: body ++ after) zero
                = newline).
  { rewrite app_nth2 by lia. now rewrite Nat.sub_diag. }
  rewrite Forall_forall in Hbody.
  induction k as [|k IH]; intros Hk.
  - replace (List.length before + 1 + 0) with (S (List.length before + 0)) by lia.
    rewrite seek_step.
    + rewrite Nat.add_0_r, seek_newline by assumption. lia.
    + rewrite Hnth by assumption. apply Hbody, nth_In. assumption.
  - replace (List.length before + 1 + S k) with (S (List.length before + S k)) by lia.
    rewrite seek_step.
    + replace (List.length before + S k) with (List.length before + 1 + k) by lia.
      apply IH. lia.
    + rewrite Hnth by assumption. apply Hbody, nth_In. assumption.
Qed.

Lemma readline_line (body : list ascii) :
  Forall (fun c => Ascii.eqb c newline = false) body ->
  readline (body ++ [newline]) = body ++ [newline].
Proof.
  induction 1 as [|c l Hc Hl IH]; cbn.
  - reflexivity.
  - now rewrite Hc, IH.
Qed.

Lemma first_field_stops (field rest : list ascii) :
  Forall (fun c => Ascii.eqb c comma = false) field ->
  first_field (field ++ comma :: rest) = field.
Proof.
  induction 1 as [|c l Hc Hl IH]; cbn.
  - reflexivity.
  - now rewrite Hc, IH.
Qed.

Lemma plain_char_spec (c : ascii) :
  plain_char c = true ->
  Ascii.eqb c comma = false /\ Ascii.eqb c newline = false.
Proof.
  unfold plain_char. rewrite negb_true_iff, !orb_false_iff. tauto.
Qed.

Lemma plain_no_newline (s : string) :
  plain s = true ->
  Forall (fun c => Ascii.eqb c newline = false) (list_ascii_of_string s).
Proof.
  unfold plain. rewrite forallb_forall, Forall_forall.
  intros H c Hc. now apply plain_char_spec, H.
Qed.

Lemma plain_no_comma (s : string) :
  plain s = true ->
  Forall (fun c => Ascii.eqb c comma = false) (list_ascii_of_string s).
Proof.
  unfold plain. rewrite forallb_forall, Forall_forall.
  intros H c Hc. now apply plain_char_spec, H.
Qed.

Lemma concat_cons (x y : string) (l : list string) :
  String.concat "," (x :: y :: l) = (x ++ "," ++ String.concat "," (y :: l))%string.
Proof. reflexivity. Qed.

Lemma concat_no_newline (fields : list string) :
  forallb plain fields = true ->
  Forall (fun c => Ascii.eqb c newline = false)
         (list_ascii_of_string (String.concat "," fields)).
Proof.
  induction fields as [|x l IH]; intros Hall; [constructor|].
  cbn [forallb] in Hall. apply andb_true_iff in Hall as [Hx Hl].
  destruct l as [|y l].
  - cbn [String.concat]. now apply plain_no_newline.
  - rewrite concat_cons, !list_ascii_app. apply Forall_app. split.
    + now apply plain_no_newline.
    + apply Forall_app. split; [repeat constructor | now apply IH].
Qed.

Lemma linesep_last (crlf : bool) :
  exists cr, linesep crlf = cr ++ [newline] /\
             Forall (fun c => Ascii.eqb c newline = false) cr /\
             List.length cr <= 1.
Proof.
  destruct crlf; cbn.
  - exists ["013"%char]. split; [reflexivity|]. split; [|cbn; lia].
    constructor; [reflexivity | constructor].
  - exists []. split; [reflexivity|]. split; [constructor | cbn; lia].
Qed.

(** The rendering of a frame ends with the line of its last row, after
    the newline that ends the line before. *)
Lemma to_csv_text_last (crlf : bool) (df : DataFrame) (r : Row) :
  exists before cr,
    to_csv_text crlf (df ++ [r]) =
    before ++ newline
      :: (list_ascii_of_string (String.concat "," (date r :: cells r)) ++ cr)
         ++ [newline]
    /\ Forall (fun c => Ascii.eqb c newline = false) cr
    /\ 66 <= List.length before.
Proof.
  destruct (linesep_last crlf) as (cr & Ecr & Hcr & _).
  unfold to_csv_text. rewrite flat_map_app. cbn [flat_map]. rewrite app_nil_r.
  set (front := csv_line crlf header
                ++ flat_map (fun r0 => csv_line crlf (date r0 :: cells r0)) df).
  assert (Hfront : exists before, front = before ++ [newline]
                                  /\ 66 <= List.length before).
  { unfold front. induction df as [|x l IH] using rev_ind.
    - cbn [flat_map]. rewrite app_nil_r. unfold csv_line. rewrite Ecr.
      exists (list_ascii_of_string (String.concat "," header) ++ cr).
      split; [now rewrite app_assoc|].
      rewrite length_app.
      assert (Hh : List.length (list_ascii_of_string (String.concat "," header)) = 66)
        by reflexivity.
      lia.
    - destruct IH as (b0 & E0 & L0).
      rewrite flat_map_app. cbn [flat_map]. rewrite app_nil_r.
      rewrite app_assoc, E0. unfold csv_line. rewrite Ecr.
      exists ((b0 ++ [newline])
              ++ list_ascii_of_string (String.concat "," (date x :: cells x)) ++ cr).
      split; [now rewrite <- !app_assoc|].
      rewrite !length_app. lia. }
  destruct Hfront as (before & E & Hlen).
  exists before, cr. split; [|split; assumption].
  rewrite app_assoc.
  change (csv_line crlf header
          ++ flat_map (fun r0 => csv_line crlf (date r0 :: cells r0)) df)
    with front.
  rewrite E. unfold csv_line. rewrite Ecr.
  now rewrite <- !app_assoc.
Qed.

(** The last line of a rendered frame with at least one row gives the
    date of the last row. *)
Lemma read_back_last (crlf : bool) (df : DataFrame) (r : Row) :
  forallb plain_row (df ++ [r]) = true ->
  cells r <> [] ->
  get_last_date_of (Some (to_csv_text crlf (df ++ [r]))) = Some (date r).
Proof.
  intros Hplain Hcells.
  assert (Hr : plain_row r = true).
  { rewrite forallb_app in Hplain. apply andb_true_iff in Hplain as [_ H].
    cbn in H. now rewrite andb_true_r in H. }
  unfold plain_row in Hr. apply andb_true_iff in Hr as [Hd Hc].
  destruct (to_csv_text_last crlf df r) as (before & cr & E & Hcr & Hlen).
  set (fields := list_ascii_of_string (String.concat "," (date r :: cells r))) in *.
  set (body := fields ++ cr) in *.
  assert (Hbody : Forall (fun c => Ascii.eqb c newline = false) body).
  { apply Forall_app. split; [|assumption].
    apply concat_no_newline. cbn [forallb]. now rewrite Hd, Hc. }
  assert (Hne : 0 < List.length body).
  { unfold body, fields. destruct (cells r) as [|y l]; [congruence|].
    rewrite concat_cons, !list_ascii_app, !length_app. cbn. lia. }
  unfold get_last_date_of. rewrite E.
  assert (Hsize : List.length (before ++ newline :: body ++ [newline])
                  = List.length before + 1 + List.length body + 1).
  { rewrite length_app. cbn [List.length]. rewrite length_app. cbn. lia. }
  rewrite Hsize.
  destruct (Nat.ltb_spec (List.length before + 1 + List.length body + 1) 50); [lia|].
  cbv zeta.
  replace (List.length before + 1 + List.length body + 1 - 2)
    with (List.length before + 1 + (List.length body - 1)) by lia.
  rewrite seek_back by (assumption || lia).
  replace (before ++ newline :: body ++ [newline])
    with ((before ++ [newline]) ++ body ++ [newline])
    by (now rewrite <- app_assoc).
  replace (List.length before + 1) with (List.length (before ++ [newline]))
    by (rewrite length_app; cbn; lia).
  rewrite skipn_app, Nat.sub_diag, skipn_all. cbn [skipn app].
  rewrite readline_line by assumption.
  unfold body, fields. destruct (cells r) as [|y l] eqn:Ec; [congruence|].
  rewrite concat_cons, !list_ascii_app, <- !app_assoc.
  change (list_ascii_of_string ",") with [comma]. cbn [app].
  rewrite first_field_stops by now apply plain_no_comma.
  now rewrite string_of_list_ascii_of_string.
Qed.

(** X9.  [get_last_date], run on the bytes [to_csv] wrote for a frame,
    returns what the row-level [get_last_date] returns for that frame: the
    date of the last row, whatever the number of rows, and the column name
    of the header for a frame without rows; with either line terminator.
    The fields need no quoting and every row has a column after the
    date. *)
Theorem last_date_read_back (crlf : bool) (d : Disk) (path : string)
    (df : DataFrame) :
  forallb plain_row df = true ->
  (forall r, In r df -> cells r <> []) ->
  d path = Some (Csv df) ->
  get_last_date_of (Some (to_csv_text crlf df)) = get_last_date d path.
Proof.
  intros Hplain Hcells Hd. unfold get_last_date. rewrite Hd.
  destruct df as [|r0 rest] using rev_ind.
  - now destruct crlf.
  - clear IHrest. rewrite read_back_last.
    + rewrite last_last. destruct (rest ++ [r0]) eqn:E; [|reflexivity].
      now destruct rest.
    + assumption.
    + apply Hcells, in_or_app. right. now left.
Qed.

(** A file shorter than 50 bytes, or none, has no last date, so that the
    planner asks for the full history. *)
Lemma short_file_no_date (text : list ascii) :
  List.length text < 50 -> get_last_date_of (Some text) = None.
Proof.
  intros H. unfold get_last_date_of.
  now destruct (Nat.ltb_spec (List.length text) 50); [|lia].
Qed.

End TailRead.

(** ** The list of symbols and the files the planner leaves alone *)

Module ListFacts.

Import Config Downloader DownloaderRest.
Local Open Scope string_scope.
Local Open Scope list_scope.

Lemma scan_days_spec (query : nat -> DayAnswer) (days : list nat) :
  (exists before i rest temp,
      days = before ++ i :: rest /\
      query i = DayRows temp /\ 4000 < List.length temp /\
      (forall j, In j before -> ~ full_day (query j)) /\
      scan_days query days = keep_listed temp)
  \/ ((forall j, In j days -> ~ full_day (query j)) /\ scan_days query days = []).
Proof.
  induction days as [|i rest IH].
  - right. split; [intros j []| reflexivity].
  - cbn [scan_days].
    assert (Hskip : ~ full_day (query i) -> 
       (exists before i0 rest0 temp,
          i :: rest = before ++ i0 :: rest0 /\
          query i0 = DayRows temp /\ 4000 < List.length temp /\
          (forall j, In j before -> ~ full_day (query j)) /\
          scan_days query rest = keep_listed temp)
       \/ ((forall j, In j (i :: rest) -> ~ full_day (query j)) /\
           scan_days query rest = [])).
    { intros Hi. destruct IH as [(before & i0 & rest0 & temp & E & Hq & Hlen & Hb & Hs) | [Hall Hs]].
      - left. exists (i :: before), i0, rest0, temp. repeat split; try assumption.
        + now rewrite E.
        + intros j [<- | Hj]; [assumption | now apply Hb].
      - right. split; [|assumption]. intros j [<- | Hj]; [assumption | now apply Hall]. }
    destruct (query i) as [|temp] eqn:Hq.
    + apply Hskip. intros [].
    + destruct (Nat.ltb_spec 4000 (List.length temp)) as [Hlen | Hlen].
      * left. exists [], i, rest, temp. repeat split; try assumption.
        intros j [].
      * apply Hskip. cbn. lia.
Qed.

Lemma seq_split (a n : nat) (before : list nat) (i : nat) (rest : list nat) :
  seq a n = before ++ i :: rest ->
  before = seq a (List.length before) /\ i = a + List.length before.
Proof.
  revert a n. induction before as [|b before IH]; intros a n E.
  - destruct n; [discriminate|]. cbn in E. injection E as E _. cbn. split; [reflexivity | lia].
  - destruct n; [discriminate|]. cbn in E. injection E as Eb E.
    destruct (IH _ _ E) as [H1 H2]. cbn [List.length seq]. split.
    + f_equal; [congruence | exact H1].
    + lia.
Qed.

(** X10.  [get_all_stocks] returns the symbols of the most recent of the
    last 30 days (today included) whose query has no error and more than
    4000 rows: the rows of that day whose code starts with sh.6, sz.0,
    sz.3 or bj., in the order of the answer, each with its name; older
    days are not looked at.  When no such day exists the list is empty. *)
Theorem get_all_stocks_first_full_day (query : nat -> DayAnswer) :
  (exists i temp,
      i < 30 /\ query i = DayRows temp /\ 4000 < List.length temp /\
      (forall j, j < i -> ~ full_day (query j)) /\
      get_all_stocks query = keep_listed temp /\
      (forall item, In item (get_all_stocks query) <->
         listed (fst item) = true /\
         exists row, In row temp /\ item = (row_code row, code_name row)))
  \/ ((forall j, j < 30 -> ~ full_day (query j)) /\ get_all_stocks query = []).
Proof.
  unfold get_all_stocks.
  destruct (scan_days_spec query (seq 0 30))
    as [(before & i & rest & temp & E & Hq & Hlen & Hb & Hs) | [Hall Hs]].
  - left. exists i, temp.
    assert (Hi : i = List.length before /\ before = seq 0 i /\ i < 30).
    { destruct (seq_split 0 30 before i rest E) as [Hb' Hi']. cbn in Hi'.
      assert (Hl : List.length (seq 0 30) = List.length (before ++ i :: rest)) by now rewrite E.
      rewrite length_seq, length_app in Hl. cbn [List.length] in Hl.
      split; [assumption|]. split; [now rewrite Hi' | lia]. }
    destruct Hi as (Hi1 & Hi2 & Hi3).
    repeat split; try assumption.
    + intros j Hj. apply Hb. rewrite Hi2. apply in_seq. lia.
    + rewrite Hs in H. unfold keep_listed in H. apply in_map_iff in H.
      destruct H as (row & <- & Hin). apply filter_In in Hin. apply Hin.
    + rewrite Hs in H. unfold keep_listed in H. apply in_map_iff in H.
      destruct H as (row & <- & Hin). apply filter_In in Hin.
      exists row. split; [apply Hin | reflexivity].
    + intros [Hl (row & Hin & ->)]. rewrite Hs. unfold keep_listed.
      apply in_map_iff. exists row. split; [reflexivity|].
      apply filter_In. split; assumption.
  - right. split; [|assumption]. intros j Hj. apply Hall, in_seq. lia.
Qed.

(** A date string starts with a digit, and sorts before every string
    that starts with a later character. *)
Lemma strftime_before_letter (t : Dates.Date) (c : ascii) (rest : string) :
  (57 < Dates.code c)%Z -> (Dates.strftime t <=? String c rest) = true.
Proof.
  intros Hc. rewrite DateFacts.strftime_shape. unfold Dates.fmt4.
  cbn [append]. unfold String.leb. cbn [String.compare].
  assert (Hlt : Ascii.compare (Dates.digit (Dates.year t / 1000)) c = Lt).
  { unfold Ascii.compare. pose proof (DateFacts.code_digit (Dates.year t / 1000)) as Hd.
    unfold Dates.code in Hd, Hc.
    assert (0 <= (Dates.year t / 1000) mod 10 < 10)%Z by (apply Z.mod_pos_bound; lia).
    apply N.compare_lt_iff. lia. }
  now rewrite Hlt.
Qed.

(** X11.  A file whose last line starts with a character after the digits
    (a letter, as in the header line of a file without rows) is taken as
    up to date: whatever the day and the hour, the planner asks for no
    download, so such a file is never filled by a later run. *)
Theorem letter_tail_is_skipped (d : Disk) (now : Clock) (item : Item)
  (c : ascii) (rest : string) :
  get_last_date d (file_path item) = Some (String c rest) ->
  (57 < Dates.code c)%Z ->
  check_status_worker d now item = Returned (item, false, None, None).
Proof.
  intros Hlast Hc. unfold check_status_worker.
  destruct (d (file_path item)) eqn:Hd.
  - rewrite Hlast. cbn [is_empty].
    now rewrite strftime_before_letter.
  - unfold get_last_date in Hlast. now rewrite Hd in Hlast.
Qed.

End ListFacts.

(** ** The analyser: the row that is evaluated and what is read around it *)

Module AnalyzerRows.

Import Arith PandasTA Analyzer.
Local Open Scope string_scope.
Local Open Scope list_scope.

Section Rows.
Context {F : Type} {FF : Float F} {TA : TALib F}.

(** A result comes from an evaluation point and its row. *)
Lemma process_inv (args : Args F) (res : Result F) :
  _process_one_stock args = Some res ->
  exists fr idx is_vip curr,
    evaluation_point args = Some (fr, idx, is_vip) /\
    nth_error (bars fr) idx = Some curr /\
    analyse args fr idx is_vip curr = Some res.
Proof.
  unfold _process_one_stock.
  destruct (evaluation_point args) as [[[fr idx] is_vip]|]; [|discriminate].
  destruct (nth_error (bars fr) idx) as [curr|] eqn:En; [|discriminate].
  intros E. exists fr, idx, is_vip, curr. auto.
Qed.

Lemma analyse_fields (args : Args F) (fr : Frame F) (idx : nat) (is_vip : bool)
    (curr : Bar F) (res : Result F) :
  analyse args fr idx is_vip curr = Some res ->
  res_code res = code args /\ res_name res = name args /\
  res_date res = date curr /\ buy_price res = close curr /\
  is_watchlist res = is_vip /\
  forward res = (if mode args =? "backtest"
                 then Some (forward_returns (bars fr) idx (close curr))
                 else None) /\
  res_pressure res =
    option_map (fround 2)
      (max_of (map (@high F)
         (firstn (idx + 1 - Nat.max 0 (idx - 30)) (skipn (Nat.max 0 (idx - 30)) (bars fr))))) /\
  res_support res =
    option_map (fround 2)
      (min_of (map (@low F)
         (firstn (idx + 1 - Nat.max 0 (idx - 30)) (skipn (Nat.max 0 (idx - 30)) (bars fr))))) /\
  res_trend res =
    map (fround 2) (map (@close F) (firstn 5 (skipn (idx - 4) (bars fr)))).
Proof.
  unfold analyse.
  destruct (negb (strategy_pass fr idx) && negb is_vip); [discriminate|].
  intros E; inversion E; cbn. repeat split; reflexivity.
Qed.

(** X12.  With the scope "watchlist_only" the analyser gives a result for
    no symbol outside the watchlist: every result is flagged as a
    watchlist symbol and its code is on the watchlist. *)
Theorem watchlist_only_scope (args : Args F) (res : Result F) :
  scope args = "watchlist_only" ->
  _process_one_stock args = Some res ->
  is_watchlist res = true /\ In (res_code res) (watchlist_set args).
Proof.
  intros Hs Hres.
  destruct (process_inv _ Hres) as (fr & idx & is_vip & curr & Hep & Hn & Ha).
  destruct (analyse_fields _ _ _ _ _ Ha) as (Hc & _ & _ & _ & Hw & _).
  assert (Hv : is_vip = true /\
               existsb (fun c => c =? code args) (watchlist_set args) = true).
  { unfold evaluation_point in Hep.
    destruct (frame args) as [df|]; [|discriminate].
    destruct (List.length df <? 60)%nat; [discriminate|].
    rewrite Hs, String.eqb_refl in Hep. cbn [andb] in Hep.
    destruct (existsb (fun c => c =? code args) (watchlist_set args)); [|discriminate].
    cbn [negb] in Hep.
    destruct (indicators df); [|discriminate].
    destruct (eval_index (mode args) (bt_date args) df); [|discriminate].
    inversion Hep. auto. }
  destruct Hv as [-> Hex]. split; [assumption|].
  apply existsb_exists in Hex as (c & Hin & Hc').
  apply String.eqb_eq in Hc'. rewrite Hc. now subst c.
Qed.

(** The index that [last_index_upto] finds is the last one whose row is
    dated on or before the target. *)
Lemma last_index_upto_last (target : Dates.Date) (df : list (Bar F)) :
  forall (i0 : nat) (found : option nat) (idx : nat),
    last_index_upto target df i0 found = Some idx ->
    (found = Some idx /\
     forall b, In b df -> Dates.leb (date b) target = false)
    \/ (exists k b,
          idx = i0 + k /\ nth_error df k = Some b /\
          Dates.leb (date b) target = true /\
          forall j b', k < j -> nth_error df j = Some b' ->
                       Dates.leb (date b') target = false).
Proof.
  induction df as [|b rest IH]; intros i0 found idx; cbn [last_index_upto].
  - intros ->. left. split; [reflexivity | intros b []].
  - intros Hl. apply IH in Hl.
    destruct Hl as [[Hf Hall] | (k & b' & -> & Hn & Hle & Hlater)].
    + destruct (Dates.leb (date b) target) eqn:Hb.
      * right. exists 0, b. inversion Hf; subst. repeat split.
        -- lia.
        -- assumption.
        -- intros j b' Hj Hn. destruct j; [lia|]. cbn in Hn.
           apply Hall. eapply nth_error_In; eassumption.
      * left. split; [assumption|]. intros x [<- | Hx]; [assumption | now apply Hall].
    + right. exists (S k), b'. repeat split.
      * lia.
      * assumption.
      * assumption.
      * intros j b'' Hj Hn'. destruct j; [lia|]. cbn in Hn'.
        apply (Hlater j); [lia | assumption].
Qed.

(** X13.  In backtest mode with a date, a result is computed at the last
    row dated on or before that date: the result carries the date and the
    close of that row, the row has at least 60 rows before it, and every
    later row of the file is dated after the backtest date. *)
Theorem backtest_row (args : Args F) (df : list (Bar F)) (target : Dates.Date)
    (res : Result F) :
  mode args = "backtest" ->
  bt_date args = Some target ->
  frame args = Some df ->
  _process_one_stock args = Some res ->
  exists idx curr,
    nth_error df idx = Some curr /\
    60 <= idx /\
    res_date res = date curr /\
    buy_price res = close curr /\
    Dates.leb (date curr) target = true /\
    (forall j b, idx < j -> nth_error df j = Some b ->
                 Dates.leb (date b) target = false).
Proof.
  intros Hm Hb Hf Hres.
  destruct (process_inv _ Hres) as (fr & idx & is_vip & curr & Hep & Hn & Ha).
  destruct (analyse_fields _ _ _ _ _ Ha) as (_ & _ & Hd & Hp & _).
  destruct (AnalyzerFacts.evaluation_point_spec _ Hep) as (Hfr & _ & He & _).
  rewrite Hf in Hfr. inversion Hfr as [Hdf]. rewrite <- Hdf in *.
  rewrite Hm, Hb in He. unfold eval_index in He. rewrite String.eqb_refl in He.
  destruct (last_index_upto target df 0 None) as [i|] eqn:El; [|discriminate].
  destruct (Nat.ltb_spec i 60) as [Hlt|Hge]; [discriminate|].
  inversion He; subst i.
  apply last_index_upto_last in El.
  destruct El as [[Hnone _] | (k & b & Hk & Hnk & Hle & Hlater)]; [discriminate|].
  cbn in Hk. subst k. rewrite Hn in Hnk. inversion Hnk; subst b.
  exists idx, curr. repeat split; assumption.
Qed.

(** X14.  Without a backtest date, or in a mode other than "backtest",
    the analyser evaluates the last row of the file.  In backtest mode
    without a date no row follows the evaluated one, so the four forward
    outcomes are reported as 0.0; in any other mode none is reported. *)
Theorem latest_row_without_date (args : Args F) (df : list (Bar F))
    (res : Result F) :
  mode args <> "backtest" \/ bt_date args = None ->
  frame args = Some df ->
  _process_one_stock args = Some res ->
  exists curr,
    nth_error df (List.length df - 1) = Some curr /\
    res_date res = date curr /\
    buy_price res = close curr /\
    forward res =
      (if mode args =? "backtest"
       then Some {| T5 := of_Q 0; T10 := of_Q 0; T30 := of_Q 0; max_gain := of_Q 0 |}
       else None).
Proof.
  intros Hcase Hf Hres.
  destruct (process_inv _ Hres) as (fr & idx & is_vip & curr & Hep & Hn & Ha).
  destruct (analyse_fields _ _ _ _ _ Ha) as (_ & _ & Hd & Hp & _ & Hfw & _).
  destruct (AnalyzerFacts.evaluation_point_spec _ Hep) as (Hfr & Hlen & He & _).
  rewrite Hf in Hfr. inversion Hfr as [Hdf]. rewrite <- Hdf in *.
  assert (Hidx : idx = List.length df - 1).
  { unfold eval_index in He.
    destruct Hcase as [Hmode | Hdate].
    - apply String.eqb_neq in Hmode. rewrite Hmode in He. now inversion He.
    - rewrite Hdate in He. destruct (mode args =? "backtest"); now inversion He. }
  subst idx. exists curr. repeat split; try assumption.
  rewrite Hfw. destruct (mode args =? "backtest"); [|reflexivity].
  unfold forward_returns.
  replace (List.length df - 1 + 1) with (List.length df) by lia.
  now rewrite skipn_all.
Qed.

Lemma fold_left_picks (op : F -> F -> F) (rest : list F) :
  (forall a b, op a b = a \/ op a b = b) ->
  forall acc, In (fold_left op rest acc) (acc :: rest).
Proof.
  intros Hop. induction rest as [|y rest IH]; intros acc; cbn [fold_left].
  - now left.
  - destruct (IH (op acc y)) as [H|H].
    + cbn [In] in H |- *. rewrite <- H.
      destruct (Hop acc y) as [E|E]; rewrite E; auto.
    + right. right. exact H.
Qed.

Lemma max_of_In (l : list F) (m : F) : max_of l = Some m -> In m l.
Proof.
  destruct l as [|x rest]; [discriminate|]. cbn [max_of]. intros E.
  injection E as <-. apply fold_left_picks.
  intros a b. unfold fmax. destruct (fgt b a); auto.
Qed.

Lemma min_of_In (l : list F) (m : F) : min_of l = Some m -> In m l.
Proof.
  destruct l as [|x rest]; [discriminate|]. cbn [min_of]. intros E.
  injection E as <-. apply fold_left_picks.
  intros a b. unfold fmin. destruct (flt b a); auto.
Qed.

(** The rows of a slice [df.iloc[s:s+n]] are rows of the frame, at the
    indices from [s] on. *)
Lemma slice_In (df : list (Bar F)) (s n : nat) (b : Bar F) :
  In b (firstn n (skipn s df)) ->
  exists j, s <= j < s + n /\ nth_error df j = Some b.
Proof.
  intros Hin. apply In_nth_error in Hin as [k Hk].
  assert (Hkn : k < n).
  { assert (H : nth_error (firstn n (skipn s df)) k <> None) by congruence.
    apply nth_error_Some in H. rewrite length_firstn in H. lia. }
  rewrite nth_error_firstn in Hk.
  destruct (Nat.ltb_spec k n); [|lia].
  rewrite nth_error_skipn in Hk.
  exists (s + k). split; [lia | assumption].
Qed.

(** The evaluation index leaves at least 59 rows before it. *)
Lemma eval_index_late (mode : string) (bt_date : option Dates.Date)
    (df : list (Bar F)) (idx : nat) :
  60 <= List.length df ->
  eval_index mode bt_date df = Some idx -> 59 <= idx < List.length df.
Proof.
  intros Hlen He.
  assert (Hne : df <> []) by (intros ->; cbn in Hlen; lia).
  pose proof (AnalyzerFacts.eval_index_range _ _ Hne He) as Hr.
  split; [|assumption].
  unfold eval_index in He.
  destruct (mode =? "backtest"); [|inversion He; lia].
  destruct bt_date as [target|]; [|inversion He; lia].
  destruct (last_index_upto target df 0 None) as [i|]; [|discriminate].
  destruct (Nat.ltb_spec i 60); [discriminate|]. inversion He. lia.
Qed.

(** X15.  The resistance and the support of a result are the rounded high
    and the rounded low of rows among the evaluated row and the 30 rows
    before it, and the trend lists the rounded closes of the evaluated row
    and the four rows before it: no row after the evaluated one is read
    for them, in backtest mode either. *)
Theorem levels_within_window (args : Args F) (fr : Frame F) (idx : nat)
    (is_vip : bool) (res : Result F) :
  evaluation_point args = Some (fr, idx, is_vip) ->
  _process_one_stock args = Some res ->
  (exists j b, idx - 30 <= j <= idx /\ nth_error (bars fr) j = Some b /\
               res_pressure res = Some (fround 2 (high b))) /\
  (exists j b, idx - 30 <= j <= idx /\ nth_error (bars fr) j = Some b /\
               res_support res = Some (fround 2 (low b))) /\
  List.length (res_trend res) = 5 /\
  (forall k, k < 5 ->
     exists b, nth_error (bars fr) (idx - 4 + k) = Some b /\
               nth_error (res_trend res) k = Some (fround 2 (close b))).
Proof.
  intros Hep Hres.
  destruct (AnalyzerFacts.evaluation_point_spec _ Hep) as (_ & Hlen & He & _ & curr & Hn).
  pose proof (eval_index_late _ _ _ Hlen He) as Hidx.
  unfold _process_one_stock in Hres. rewrite Hep, Hn in Hres.
  destruct (analyse_fields _ _ _ _ _ Hres) as (_ & _ & _ & _ & _ & _ & Hp & Hs & Ht).
  set (df := bars fr) in *.
  replace (Nat.max 0 (idx - 30)) with (idx - 30) in Hp, Hs by lia.
  replace (idx + 1 - (idx - 30)) with 31 in Hp, Hs by lia.
  set (period_df := firstn 31 (skipn (idx - 30) df)) in *.
  assert (Hperiod : period_df <> []).
  { unfold period_df. intros E. apply (f_equal (@List.length _)) in E.
    rewrite length_firstn, length_skipn in E. cbn [List.length] in E.
    fold df in Hidx. lia. }
  assert (Hin : forall b, In b period_df ->
                  exists j, idx - 30 <= j <= idx /\ nth_error df j = Some b).
  { intros b Hb. apply slice_In in Hb as (j & Hj & Hnj).
    exists j. split; [lia | assumption]. }
  split; [|split; [|split]].
  - destruct (max_of (map (@high F) period_df)) as [m|] eqn:Em.
    + apply max_of_In in Em. apply in_map_iff in Em as (b & <- & Hb).
      destruct (Hin b Hb) as (j & Hj & Hnj). exists j, b. auto.
    + destruct period_df; [congruence | discriminate].
  - destruct (min_of (map (@low F) period_df)) as [m|] eqn:Em.
    + apply min_of_In in Em. apply in_map_iff in Em as (b & <- & Hb).
      destruct (Hin b Hb) as (j & Hj & Hnj). exists j, b. auto.
    + destruct period_df; [congruence | discriminate].
  - rewrite Ht, !length_map, length_firstn, length_skipn. lia.
  - intros k Hk.
    assert (Hlt : idx - 4 + k < List.length df) by lia.
    destruct (nth_error df (idx - 4 + k)) as [b|] eqn:Eb;
      [|apply nth_error_None in Eb; lia].
    exists b. split; [reflexivity|].
    rewrite Ht, map_map, nth_error_map, nth_error_firstn.
    destruct (Nat.ltb_spec k 5); [|lia].
    now rewrite nth_error_skipn, Eb.
Qed.

End Rows.

End AnalyzerRows.

(** ** File names read back *)

Module FileNameFacts.

Import Config Downloader FileNames.
Local Open Scope string_scope.
Local Open Scope list_scope.

Lemma append_assoc (a b c : string) : ((a ++ b) ++ c = a ++ (b ++ c))%string.
Proof. induction a as [|x a IH]; cbn; [reflexivity | now rewrite IH]. Qed.

Lemma strip_idem (s : string) : strip (strip s) = strip s.
Proof.
  induction s as [|c s IH]; cbn [strip]; [reflexivity|].
  destruct (Ascii.eqb c "*" || Ascii.eqb c "/" || Ascii.eqb c "?")%bool eqn:E.
  - exact IH.
  - cbn [strip]. now rewrite E, IH.
Qed.

Lemma has_char_app (c : ascii) (a b : string) :
  has_char c (a ++ b) = has_char c a || has_char c b.
Proof.
  induction a as [|x a IH]; cbn; [reflexivity|].
  now rewrite IH, orb_assoc.
Qed.

Lemma split_no_sep (sep : ascii) (a : string) :
  has_char sep a = false -> split_on sep a = [a].
Proof.
  induction a as [|x a IH]; cbn [has_char split_on]; [reflexivity|].
  intros H. apply orb_false_iff in H as [Hx Ha].
  now rewrite Hx, (IH Ha).
Qed.

Lemma split_app (sep : ascii) (a b : string) :
  has_char sep a = false ->
  split_on sep (a ++ String sep b) = a :: split_on sep b.
Proof.
  induction a as [|x a IH]; cbn [has_char split_on append].
  - intros _. now rewrite Ascii.eqb_refl.
  - intros H. apply orb_false_iff in H as [Hx Ha].
    now rewrite Hx, (IH Ha).
Qed.

Lemma prefix_nil (s : string) : String.prefix "" s = true.
Proof. now destruct s. Qed.

Lemma contains_cons (sub : string) (c : ascii) (r : string) :
  Analyzer.contains sub (String c r) = false ->
  String.prefix sub (String c r) = false /\ Analyzer.contains sub r = false.
Proof.
  cbn [Analyzer.contains].
  destruct (String.prefix sub (String c r)); [discriminate | auto].
Qed.

Lemma contains_app_r (sub a b : string) :
  Analyzer.contains sub (a ++ b) = false -> Analyzer.contains sub b = false.
Proof.
  induction a as [|x a IH]; cbn [append]; [auto|].
  intros H. apply contains_cons in H as [_ H]. auto.
Qed.

Lemma prefix_csv_inv (c0 c1 c2 c3 : ascii) (r : string) :
  String.prefix ".csv" (String c0 (String c1 (String c2 (String c3 r)))) = true ->
  c0 = "."%char /\ c1 = "c"%char /\ c2 = "s"%char /\ c3 = "v"%char.
Proof.
  cbn [String.prefix]. intros H.
  destruct (ascii_dec "." c0) as [<-|]; [|discriminate].
  destruct (ascii_dec "c" c1) as [<-|]; [|discriminate].
  destruct (ascii_dec "s" c2) as [<-|]; [|discriminate].
  destruct (ascii_dec "v" c3) as [<-|]; [|discriminate].
  auto.
Qed.

Lemma remove_csv_step (c0 c1 c2 c3 : ascii) (r3 : string) :
  remove_csv (String c0 (String c1 (String c2 (String c3 r3)))) =
  if String.prefix ".csv" (String c0 (String c1 (String c2 (String c3 r3))))
  then remove_csv r3
  else String c0 (remove_csv (String c1 (String c2 (String c3 r3)))).
Proof. reflexivity. Qed.

(** Removing [.csv] from a name that holds it only at its end gives the
    name without it. *)
Lemma remove_csv_suffix (s : string) :
  Analyzer.contains ".csv" s = false -> remove_csv (s ++ ".csv") = s.
Proof.
  induction s as [|c0 r0 IH]; [reflexivity|].
  intros H. apply contains_cons in H as [Hp Hc]. specialize (IH Hc).
  destruct r0 as [|c1 [|c2 [|c3 r3]]]; cbn [append] in IH |- *;
    rewrite remove_csv_step;
    match goal with
    | |- (if ?t then _ else _) = _ => destruct t eqn:E
    end; try (now rewrite IH).
  - apply prefix_csv_inv in E as (_ & E & _). discriminate.
  - apply prefix_csv_inv in E as (_ & _ & E & _). discriminate.
  - apply prefix_csv_inv in E as (_ & _ & _ & E). discriminate.
  - apply prefix_csv_inv in E as (-> & -> & -> & ->).
    cbn in Hp. rewrite prefix_nil in Hp. discriminate.
Qed.

Lemma ends_with_app (suffix a : string) : ends_with suffix (a ++ suffix) = true.
Proof.
  induction a as [|x a IH].
  - destruct suffix; cbn [append ends_with]; now rewrite String.eqb_refl.
  - cbn [append ends_with]. rewrite IH. apply orb_true_r.
Qed.

Lemma well_named_spec (item : Item) :
  well_named item = true ->
  has_char "_" (fst item) = false /\
  has_char "_" (safe_name (snd item)) = false /\
  Analyzer.contains ".csv" (fst item ++ String "_" (safe_name (snd item))) = false.
Proof.
  unfold well_named. rewrite !andb_true_iff, !negb_true_iff. tauto.
Qed.

Lemma file_name_stem (item : Item) :
  file_name item = ((fst item ++ String "_" (safe_name (snd item))) ++ ".csv")%string.
Proof. unfold file_name. now rewrite append_assoc. Qed.

Lemma file_name_parts (item : Item) :
  file_name item = (fst item ++ String "_" (safe_name (snd item) ++ ".csv"))%string.
Proof. reflexivity. Qed.

(** X16.  The name of a series file reads back.  For a code and a name
    without underscore and without [.csv] inside, the analyser
    ([_process_one_stock]), the downloader ([_get_watchlist_stocks]) and
    the application ([get_stock_name_map], [load_stock_data]) each take
    from the file name the code and the name as written into it, and the
    item made of the two is stored under the same path. *)
Theorem file_name_round_trip (item : Item) :
  well_named item = true ->
  parse_file_name (file_name item) = (fst item, safe_name (snd item)) /\
  entry (file_name item) = Some (fst item, safe_name (snd item)) /\
  stock_name (file_name item) = safe_name (snd item) /\
  file_path (parse_file_name (file_name item)) = file_path item.
Proof.
  intros Hw. apply well_named_spec in Hw as (Hc & Hn & Hcsv).
  assert (Hn' : has_char "_" (safe_name (snd item) ++ ".csv") = false)
    by (rewrite has_char_app, Hn; reflexivity).
  assert (Hsafe : Analyzer.contains ".csv" (safe_name (snd item)) = false).
  { apply contains_app_r in Hcsv. now apply contains_cons in Hcsv. }
  assert (Hsplit : split_on "_" (file_name item)
                   = [fst item; (safe_name (snd item) ++ ".csv")%string]).
  { rewrite file_name_parts, split_app by assumption.
    now rewrite split_no_sep. }
  assert (Hparse : parse_file_name (file_name item) = (fst item, safe_name (snd item))).
  { unfold parse_file_name. rewrite Hsplit. cbn [hd nth].
    rewrite file_name_parts at 1. rewrite has_char_app. cbn [has_char].
    rewrite Ascii.eqb_refl, orb_true_r. cbn [orb].
    now rewrite remove_csv_suffix. }
  split; [exact Hparse|]. split; [|split].
  - unfold entry. rewrite file_name_stem, ends_with_app.
    rewrite remove_csv_suffix by assumption.
    rewrite split_app by assumption. now rewrite split_no_sep.
  - unfold stock_name. rewrite Hsplit. cbn [nth]. now apply remove_csv_suffix.
  - rewrite Hparse. unfold file_path, safe_name. cbn [fst snd].
    now rewrite strip_idem.
Qed.

(** What the dictionary holds after the loop: the value of a key comes
    from a file of the listing, and a key that a file gives is present. *)
Lemma local_map_fold (files : list string) :
  forall (acc : Dict) (key : string),
    let m := fold_left (fun m f => match entry f with
                                   | Some kv => kv :: m
                                   | None => m
                                   end) files acc in
    (forall v, dict_get m key = Some v ->
       (exists f, In f files /\ entry f = Some (key, v)) \/ dict_get acc key = Some v) /\
    ((exists f v, In f files /\ entry f = Some (key, v)) -> dict_get m key <> None) /\
    (dict_get acc key <> None -> dict_get m key <> None).
Proof.
  induction files as [|f files IH]; intros acc key; cbn [fold_left].
  - cbv zeta. repeat split; auto. intros (f & v & [] & _).
  - set (acc' := match entry f with Some kv => kv :: acc | None => acc end).
    destruct (IH acc' key) as (Hget & Hin & Hacc). cbv zeta in *.
    assert (Hstep : dict_get acc key <> None -> dict_get acc' key <> None).
    { unfold acc'. destruct (entry f) as [[k v]|]; [|auto].
      cbn [dict_get]. destruct (k =? key); [discriminate | auto]. }
    repeat split.
    + intros v Hv. destruct (Hget v Hv) as [(f' & Hf' & He) | Ha].
      * left. exists f'. split; [now right | assumption].
      * unfold acc' in Ha. destruct (entry f) as [[k v']|] eqn:Ef; [|now right].
        cbn [dict_get] in Ha. destruct (String.eqb_spec k key) as [->|Hk].
        -- inversion Ha; subst. left. exists f. split; [now left | assumption].
        -- now right.
    + intros (f' & v & [<- | Hf'] & He).
      * apply Hacc. unfold acc'. rewrite He. cbn [dict_get].
        now rewrite String.eqb_refl.
      * apply Hin. eauto.
    + auto.
Qed.

(** X17.  [_get_watchlist_stocks] gives one task item per watchlist code,
    in the order of the watchlist.  A code whose series file is in the
    data directory, and is the only file of that code, gets the name that
    leads back to that file, so that the planner looks at the file that
    is there; a code without a file gets the name "自选股". *)
Theorem watchlist_items_find_files (files : list string) (codes : list string)
    (item : Item) :
  well_named item = true ->
  In (file_name item) files ->
  (forall f n, In f files -> entry f = Some (fst item, n) ->
               n = safe_name (snd item)) ->
  let tasks := _get_watchlist_stocks (Some files) codes in
  map fst tasks = codes /\
  (forall t, In t tasks -> fst t = fst item -> file_path t = file_path item) /\
  (forall c, In c codes ->
     (forall f n, In f files -> entry f <> Some (c, n)) ->
     In (c, "自选股") tasks).
Proof.
  intros Hw Hin Huniq tasks. unfold tasks, _get_watchlist_stocks. cbv zeta.
  cbn [local_map].
  split; [|split].
  - rewrite map_map. cbn [fst]. apply map_id.
  - intros t Ht Hcode. apply in_map_iff in Ht as (c & <- & Hc).
    cbn [fst] in Hcode. subst c.
    destruct (local_map_fold files [] (fst item)) as (Hget & Hpresent & _).
    cbv zeta in Hget, Hpresent.
    destruct (dict_get _ (fst item)) as [n|] eqn:Eg.
    + destruct (Hget n eq_refl) as [(f & Hf & He) | Ha]; [|discriminate].
      rewrite (Huniq f n Hf He). unfold file_path, safe_name. cbn [fst snd].
      now rewrite strip_idem.
    + exfalso. apply Hpresent; [|reflexivity].
      exists (file_name item), (safe_name (snd item)). split; [assumption|].
      now apply file_name_round_trip.
  - intros c Hc Hnone. apply in_map_iff. exists c. split; [|assumption].
    destruct (local_map_fold files [] c) as (Hget & _ & _). cbv zeta in Hget.
    destruct (dict_get _ c) as [n|] eqn:Eg; [|reflexivity].
    exfalso. destruct (Hget n eq_refl) as [(f & Hf & He) | Ha]; [|discriminate].
    now apply (Hnone f n).
Qed.

(** X18.  The clean-up of [load_stock_data] changes nothing on a file that
    an append-merge wrote: the frame is already without a repeated date
    and in ascending order of date.  On any frame, running the clean-up a
    second time changes nothing. *)
Theorem clean_up_of_merged (old_df new_df df : DataFrame) :
  clean_up (merge_frames old_df new_df) = merge_frames old_df new_df /\
  clean_up (clean_up df) = clean_up df.
Proof.
  assert (H : forall a b, clean_up (merge_frames a b) = merge_frames a b).
  { intros a b. apply MergeFacts.sorted_unique.
    - apply MergeFacts.sort_values_sorted, MergeFacts.drop_duplicates_last_NoDup.
    - apply MergeFacts.merge_frames_sorted.
    - intros r. unfold clean_up.
      rewrite MergeFacts.sort_values_In, MergeFacts.drop_duplicates_last_In.
      now rewrite MergeFacts.merge_frames_lookup, MergeFacts.merge_frames_In. }
  split; [apply H|].
  assert (E : clean_up df = merge_frames df []).
  { unfold clean_up, merge_frames, concat. now rewrite app_nil_r. }
  rewrite E. apply H.
Qed.

End FileNameFacts.

(** ** A download followed by a new plan *)

Module SyncTwice.

Import Config Downloader DownloaderRest StringOrder.
Local Open Scope string_scope.
Local Open Scope list_scope.

Lemma leb_trans (s1 s2 s3 : string) :
  (s1 <=? s2) = true -> (s2 <=? s3) = true -> (s1 <=? s3) = true.
Proof.
  intros H1 H2.
  destruct (leb_ltb_or_eq _ _ H1) as [L1 | ->]; [|assumption].
  destruct (leb_ltb_or_eq _ _ H2) as [L2 | <-]; [|assumption].
  pose proof (ltb_trans _ _ _ L1 L2) as L.
  unfold String.ltb in L. unfold String.leb.
  destruct (String.compare s1 s3); congruence.
Qed.

(** The file that a task in append mode leaves when the merge goes
    through ends in the latest date of the old rows and the new ones. *)
Lemma merged_file_tail (d : Disk) (path : string) (old_df new_df : DataFrame) :
  new_df <> [] ->
  exists latest,
    get_last_date (disk_set d path (Some (Csv (merge_frames old_df new_df)))) path
      = Some latest /\
    forall dt, In dt (map date old_df) \/ In dt (map date new_df) ->
               (dt <=? latest) = true.
Proof.
  intros Hne. unfold get_last_date. rewrite WorkerFacts.disk_set_same.
  set (m := merge_frames old_df new_df).
  assert (Hm : m <> []).
  { intros E. destruct new_df as [|r rest]; [congruence|].
    assert (Hin : In (date r) (map date m)).
    { apply MergeTheorems.merge_frames_dates. right. now left. }
    rewrite E in Hin. contradiction. }
  destruct (WorkerFacts.sorted_last_is_max (mkRow "" [])
              (MergeFacts.merge_frames_sorted old_df new_df) Hm) as [Hin Hmax].
  fold m in Hin, Hmax.
  exists (date (last m (mkRow "" []))).
  split; [destruct m; [congruence | reflexivity]|].
  intros dt Hdt. apply MergeTheorems.merge_frames_dates in Hdt.
  apply in_map_iff in Hdt as [r [<- Hr]]. now apply Hmax.
Qed.

(** X19.  A symbol whose append-merge went through and whose file now
    holds a row dated today or later is not planned again on that day:
    the planner, run on the disk the task left, asks for no download. *)
Theorem fetched_today_is_skipped (env : TaskEnv) (task : Task) (d : Disk)
    (now : Clock) (old_df new_df : DataFrame) (dt : string) :
  task_mode task = Some ModeA ->
  d (file_path (task_item task)) = Some (Csv old_df) ->
  upstream env = QueryRows new_df ->
  new_df <> [] ->
  read_fault env = false ->
  merged_write env = WriteOk ->
  In dt (map date old_df) \/ In dt (map date new_df) ->
  (Dates.strftime (today now) <=? dt) = true ->
  check_status_worker (snd (download_task env task d)) now (task_item task)
    = Returned (task_item task, false, None, None).
Proof.
  intros Hmode Hfile Hup Hne Hread Hwrite Hdt Hle.
  rewrite (MergeTheorems.download_task_merges env task d Hmode Hfile Hup Hne Hread Hwrite).
  cbn [snd].
  destruct (merged_file_tail d (file_path (task_item task)) old_df Hne)
    as (latest & Hlast & Hmax).
  unfold check_status_worker. rewrite Hlast.
  rewrite WorkerFacts.disk_set_same.
  assert (Hlatest : (Dates.strftime (today now) <=? latest) = true)
    by (eapply leb_trans; [exact Hle | now apply Hmax]).
  destruct latest as [|c rest].
  - discriminate.
  - cbn [is_empty]. now rewrite Hlatest.
Qed.

End SyncTwice.

(** ** Examples for the properties above *)

Module MoreExamples.

Import Config Downloader DownloaderRest FileNames Arith PandasTA Analyzer
       Samples MoreSamples.
Local Open Scope string_scope.
Local Open Scope list_scope.

(** The bytes of the sample file end in the line of 2024-01-03. *)
Lemma last_date_read_back_witness :
  get_last_date_of (Some (to_csv_text true old_df)) = get_last_date disk path.
Proof.
  refine (@TailRead.last_date_read_back true disk path old_df _ _ _).
  - vm_compute. reflexivity.
  - intros r [<- | [<- | []]]; discriminate.
  - reflexivity.
Defined.

(** A file with the header line alone is left alone. *)
Lemma letter_tail_is_skipped_witness :
  check_status_worker header_only_disk evening item
    = Returned (item, false, None, None).
Proof.
  refine (@ListFacts.letter_tail_is_skipped header_only_disk evening item
            "d"%char "ate" _ _).
  - reflexivity.
  - vm_compute. reflexivity.
Defined.

Lemma watchlist_only_scope_witness :
  exists res,
    _process_one_stock (TA := pandas_ta) watchlist_args = Some res /\
    is_watchlist res = true /\ In (res_code res) (watchlist_set watchlist_args).
Proof.
  destruct (_process_one_stock (TA := pandas_ta) watchlist_args) as [res|] eqn:R;
    [|vm_compute in R; discriminate].
  exists res. split; [reflexivity|].
  refine (@AnalyzerRows.watchlist_only_scope Q QFloat pandas_ta watchlist_args res _ R).
  reflexivity.
Defined.

(** The backtest of 2024-03-01 on the rising series is computed at row
    60, whose close is 160. *)
Lemma backtest_row_witness :
  exists res idx curr,
    _process_one_stock (TA := pandas_ta) backtest_args = Some res /\
    nth_error (series rising 71) idx = Some curr /\
    60 <= idx /\
    res_date res = Analyzer.date curr /\
    buy_price res = close curr /\
    Dates.leb (Analyzer.date curr) (Dates.mkDate 2024 3 1) = true.
Proof.
  destruct (_process_one_stock (TA := pandas_ta) backtest_args) as [res|] eqn:R;
    [|vm_compute in R; discriminate].
  destruct (@AnalyzerRows.backtest_row Q QFloat pandas_ta backtest_args
              (series rising 71) (Dates.mkDate 2024 3 1) res
              eq_refl eq_refl eq_refl R)
    as (idx & curr & Hn & Hi & Hd & Hp & Hle & _).
  exists res, idx, curr. repeat split; assumption.
Defined.

Lemma latest_row_without_date_witness :
  exists res curr,
    _process_one_stock (TA := pandas_ta) undated_backtest_args = Some res /\
    nth_error (series rising 60) 59 = Some curr /\
    res_date res = Analyzer.date curr /\
    forward res = Some {| T5 := 0%Q; T10 := 0%Q; T30 := 0%Q; max_gain := 0%Q |}.
Proof.
  destruct (_process_one_stock (TA := pandas_ta) undated_backtest_args)
    as [res|] eqn:R; [|vm_compute in R; discriminate].
  destruct (@AnalyzerRows.latest_row_without_date Q QFloat pandas_ta
              undated_backtest_args (series rising 60) res
              (or_intror eq_refl) eq_refl R)
    as (curr & Hn & Hd & _ & Hf).
  exists res, curr. repeat split; assumption.
Defined.

Lemma levels_within_window_witness :
  exists res,
    _process_one_stock (TA := pandas_ta) backtest_args = Some res /\
    List.length (res_trend res) = 5.
Proof.
  AnalyzerExamples.evaluate_point backtest_args E.
  destruct (_process_one_stock (TA := pandas_ta) backtest_args) as [res|] eqn:R;
    [|vm_compute in R; discriminate].
  destruct (AnalyzerRows.levels_within_window _ E R) as (_ & _ & Hlen & _).
  exists res. split; [reflexivity | exact Hlen].
Defined.

Lemma file_name_round_trip_witness :
  parse_file_name (file_name item) = (fst item, safe_name (snd item)) /\
  entry (file_name item) = Some (fst item, safe_name (snd item)) /\
  stock_name (file_name item) = safe_name (snd item) /\
  file_path (parse_file_name (file_name item)) = file_path item.
Proof.
  refine (@FileNameFacts.file_name_round_trip item _).
  vm_compute. reflexivity.
Defined.

Lemma watchlist_items_find_files_witness :
  let tasks := _get_watchlist_stocks (Some listing) watchlist_codes in
  map fst tasks = watchlist_codes /\
  (forall t, In t tasks -> fst t = fst item -> file_path t = file_path item) /\
  (forall c, In c watchlist_codes ->
     (forall f n, In f listing -> entry f <> Some (c, n)) ->
     In (c, "自选股") tasks).
Proof.
  refine (@FileNameFacts.watchlist_items_find_files listing watchlist_codes item _ _ _).
  - vm_compute. reflexivity.
  - left. reflexivity.
  - intros f n [<- | [<- | []]] E; vm_compute in E.
    + inversion E. reflexivity.
    + discriminate.
Defined.

(** The sample merge stores the row of 2024-01-04; the planner run again
    on that day skips the symbol. *)
Lemma fetched_today_is_skipped_witness :
  check_status_worker (snd (download_task env_ok append_task disk)) evening item
    = Returned (item, false, None, None).
Proof.
  refine (@SyncTwice.fetched_today_is_skipped env_ok append_task disk evening
            old_df new_df "2024-01-04" _ _ _ _ _ _ _ _).
  - reflexivity.
  - reflexivity.
  - reflexivity.
  - discriminate.
  - reflexivity.
  - reflexivity.
  - right. right. left. reflexivity.
  - reflexivity.
Defined.

End MoreExamples.

(** ** The column that the MACD test reads: C5 *)

Module MacdCross.

Import Arith PandasTA Analyzer MacdSpec Samples MoreSamples.
Local Open Scope string_scope.
Local Open Scope list_scope.

Section Column.
Context {F : Type} {FF : Float F}.

(** With [pandas_ta], the column that the code stores as [DEA] is the
    histogram of [ta.macd], the MACD line minus its signal line, and not
    the signal line. *)
Lemma dea_column_is_histogram (df : list (Bar F)) (fr : Frame F) :
  indicators (TA := pandas_ta) df = Some fr ->
  DEA fr = zip_with (lift2 fsub) (DIF fr) (signal_line (TA := pandas_ta) df).
Proof.
  unfold indicators, signal_line. cbn [ta_macd pandas_ta]. unfold macd.
  destruct (verify_series (map (@close F) df) (Nat.max 12 (Nat.max 26 9)))
    as [closes|]; [|discriminate].
  cbv zeta. intros E. inversion E. reflexivity.
Qed.

End Column.

(** C5.  The inclusion rule of the specification does not hold of the
    code.  On the series [peaked], for a symbol outside the watchlist, the
    evaluation row is row 59: the close, 129, is below MA20, 141.25; the
    MACD line is below its signal line, a death cross; K is not above D, a
    death cross; so [matched], as the specification words it, is false and
    the symbol is to be dropped.  The code compares the MACD line with
    column 1 of [ta.macd], the histogram, finds it above, and keeps the
    symbol with the MACD state "金叉" and the reason "MACD金叉". *)
Theorem death_cross_kept_as_golden :
  exists fr,
    evaluation_point (TA := pandas_ta) peaked_args = Some (fr, 59, false) /\
    bar_at fr 59 (@close Q) = Some 129%Q /\
    at_ (MA20 fr) 59 = Some (565 # 4)%Q /\
    cmp2 flt (at_ (DIF fr) 59) (at_ (signal_line (TA := pandas_ta) (bars fr)) 59)
      = true /\
    kdj_golden fr 59 = false /\
    spec_matched (TA := pandas_ta) fr 59 = false /\
    macd_golden fr 59 = true /\
    cmp2 flt (at_ (DEA fr) 59) (Some 0%Q) = true /\
    option_map
      (fun r => (is_watchlist r, res_match r, res_macd_state r, res_kdj_state r))
      (_process_one_stock (TA := pandas_ta) peaked_args)
    = Some (false, "MACD金叉", "金叉", "死叉").
Proof.
  AnalyzerExamples.evaluate_point peaked_args E.
  eexists. split; [exact E|].
  repeat split; vm_compute; reflexivity.
Qed.

End MacdCross.
